(** * ChartDB client: canvas synchronisation engine and legacy migration

    A shallow embedding of the canvas component (view projection, edge
    reconciliation, change reconciliation, persistence scheduling) and of the
    IndexedDB-to-API migration routine, followed by the properties that the
    design document states about them. *)

From Stdlib Require Import ZArith Ascii String Sorted.
From stdpp Require Import gmap strings list fin_maps pretty.

Local Open Scope string_scope.
Local Open Scope list_scope.

(* ===================================================================== *)
(** * Part I: the embedding *)
(* ===================================================================== *)

(** ** JavaScript values used by the canvas *)

(** A JS [number] as the canvas uses it: a coordinate or size, or [NaN]
    (the handlers test [isNaN] explicitly). [Num z] is the double whose
    value is the integer [z]; fractions and infinities are not represented.
    The sums and differences below are the code's wherever the operands and
    the result lie within 2^53 of zero, where doubles are exact on integers;
    a property that states a computed coordinate assumes as much. *)
Inductive number :=
| Num (z : Z)
| NaN.

#[global] Instance number_eq_dec : EqDecision number.
Proof. solve_decision. Defined.

Definition isNaN (n : number) : bool :=
  match n with NaN => true | Num _ => false end.

(** Truthiness of a number: [0] and [NaN] are falsy. *)
Definition num_truthy (n : number) : bool :=
  match n with Num z => negb (Z.eqb z 0) | NaN => false end.

Definition num_add (a b : number) : number :=
  match a, b with Num x, Num y => Num (x + y) | _, _ => NaN end.

Definition num_sub (a b : number) : number :=
  match a, b with Num x, Num y => Num (x - y) | _, _ => NaN end.

(** Truthiness of a string ([''] is falsy) and of optional values. *)
Definition str_truthy (s : string) : bool :=
  match s with EmptyString => false | String _ _ => true end.

Definition opt_truthy {A} (f : A -> bool) (o : option A) : bool :=
  match o with Some a => f a | None => false end.

(** [o ?? d] *)
Definition nullish {A} (o : option A) (d : A) : A := default d o.

(** [s.split(c)] for a one-character separator, and [arr.pop()]. *)
Fixpoint js_split (c : ascii) (s : string) : list string :=
  match s with
  | EmptyString => [EmptyString]
  | String a s' =>
      if Ascii.eqb a c then EmptyString :: js_split c s'
      else match js_split c s' with
           | h :: t => String a h :: t
           | [] => [String a EmptyString]
           end
  end.

Definition js_pop (l : list string) : option string := last l.

(** ** Domain model *)

Record DataType := { dt_id : string; dt_name : string }.

Record DBField := { f_id : string; f_type : DataType }.

Record DBTable := {
  t_id : string;
  t_schema : option string;
  t_x : number;
  t_y : number;
  t_width : option number;
  t_fields : list DBField;
  t_isView : bool;
  t_parentAreaId : option string
}.

Record Area := {
  a_id : string;
  a_x : number;
  a_y : number;
  a_width : number;
  a_height : number
}.

Record Note := {
  nt_id : string;
  nt_x : number;
  nt_y : number;
  nt_width : number;
  nt_height : number;
  nt_content : string
}.

Inductive Cardinality := One | Many.

Record DBRelationship := {
  r_id : string;
  r_sourceTableId : string;
  r_sourceFieldId : string;
  r_targetTableId : string;
  r_targetFieldId : string;
  r_sourceCardinality : Cardinality;
  r_targetCardinality : Cardinality
}.

Record DBDependency := {
  d_id : string;
  d_tableId : string;
  d_dependentTableId : string
}.

#[global] Instance DataType_eq_dec : EqDecision DataType.
Proof. solve_decision. Defined.
#[global] Instance DBField_eq_dec : EqDecision DBField.
Proof. solve_decision. Defined.
#[global] Instance DBTable_eq_dec : EqDecision DBTable.
Proof. solve_decision. Defined.
#[global] Instance Area_eq_dec : EqDecision Area.
Proof. solve_decision. Defined.
#[global] Instance Note_eq_dec : EqDecision Note.
Proof. solve_decision. Defined.
#[global] Instance Cardinality_eq_dec : EqDecision Cardinality.
Proof. solve_decision. Defined.
#[global] Instance DBRelationship_eq_dec : EqDecision DBRelationship.
Proof. solve_decision. Defined.
#[global] Instance DBDependency_eq_dec : EqDecision DBDependency.
Proof. solve_decision. Defined.

Record Position := { px : number; py : number }.

(** The argument [{ id, schema }] handed to the filter predicate. *)
Record TableRef := { tr_id : string; tr_schema : option string }.

(** ** Visual nodes *)

Inductive NodeKind :=
| KTable | KArea | KNote | KTempCursor | KCreateRelationship.

#[global] Instance NodeKind_eq_dec : EqDecision NodeKind.
Proof. solve_decision. Defined.

Record Measured := { m_width : option number; m_height : option number }.

Record TableNodeData := {
  td_table : DBTable;
  td_isOverlapping : bool;
  td_isRelationshipCreatingTarget : option bool;
  td_highlightOverlappingTables : option bool;
  td_hasHighlightedCustomType : option bool
}.

Inductive NodeData :=
| DTable (d : TableNodeData)
| DArea (a : Area)
| DNote (n : Note)
| DEmpty.

Record Node := {
  n_id : string;
  n_type : NodeKind;
  n_position : Position;
  n_data : NodeData;
  n_width : option number;
  n_height : option number;
  n_zIndex : option Z;
  n_hidden : option bool;
  n_selected : option bool;
  n_measured : option Measured
}.

(** The overlap graph held by the canvas context. *)
Record Graph := {
  graph : gmap string (list string);
  lastUpdated : number
}.

(** ** Imported collaborators

    The canvas imports these from modules outside the files at hand; they are
    the interface the component is written against. *)
Class Collaborators := {
  DiagramFilter : Type;
  DatabaseType : Type;
  (** [filterTable({ table, filter, options: { defaultSchema } })] *)
  filterTable : TableRef -> option DiagramFilter -> option string -> bool;
  (** [defaultSchemas[databaseType]] *)
  defaultSchemas : DatabaseType -> option string;
  (** [areFieldTypesCompatible(sourceType, targetType, databaseType)] *)
  areFieldTypesCompatible : DataType -> DataType -> DatabaseType -> bool;
  MIN_TABLE_SIZE : number;
  (** [calcTableHeight(table)] of the canvas utilities *)
  calcTableHeight : DBTable -> number;
  (** [screenToFlowPosition({ x, y })] of the view layer *)
  screenToFlowPosition : Position -> Position;
  (** [findOverlappingTables({ tables })] and
      [findTableOverlapping({ node }, { nodes }, graph)] of the canvas
      utilities *)
  findOverlappingTables : list DBTable -> Graph;
  findTableOverlapping : Node -> list Node -> Graph -> Graph;
  (** handle-id prefixes exported by the node components *)
  TOP_SOURCE_HANDLE_ID_PREFIX : string;
  BOTTOM_SOURCE_HANDLE_ID_PREFIX : string;
  TARGET_DEP_PREFIX : string;
  LEFT_HANDLE_ID_PREFIX : string;
  TARGET_ID_PREFIX : string
}.

(** Truthiness of an optional boolean property. *)
Definition flag (o : option bool) : bool := nullish o false.

(** *** View projection *)

Record TableNodeOptions `{Collaborators} := {
  o_filter : option DiagramFilter;
  o_databaseType : DatabaseType;
  o_filterLoading : bool;
  o_showDBViews : option bool;
  o_forceShow : option bool;
  o_isRelationshipCreatingTarget : bool
}.

Definition tableToTableNode `{Collaborators}
    (table : DBTable) (o : TableNodeOptions) : Node :=
  let position := {| px := t_x table; py := t_y table |} in
  let hidden :=
    if flag (o_forceShow o) then false
    else
      negb (filterTable {| tr_id := t_id table; tr_schema := t_schema table |}
                        (o_filter o)
                        (defaultSchemas (o_databaseType o)))
      || o_filterLoading o
      || (negb (flag (o_showDBViews o)) && t_isView table) in
  {| n_id := t_id table;
     n_type := KTable;
     n_position := position;
     n_data := DTable {| td_table := table;
                         td_isOverlapping := false;
                         td_isRelationshipCreatingTarget :=
                           Some (o_isRelationshipCreatingTarget o);
                         td_highlightOverlappingTables := None;
                         td_hasHighlightedCustomType := None |};
     n_width := Some (nullish (t_width table) MIN_TABLE_SIZE);
     n_height := None;
     n_zIndex := None;
     n_hidden := Some hidden;
     n_selected := None;
     n_measured := None |}.

Definition areaToAreaNode `{Collaborators}
    (area : Area) (tables : list DBTable)
    (filter : option DiagramFilter) (databaseType : DatabaseType)
    (filterLoading : bool) : Node :=
  let tablesInArea :=
    List.filter (fun t => bool_decide (t_parentAreaId t = Some (a_id area)))
                tables in
  let hasVisibleTable :=
    Nat.eqb (length tablesInArea) 0
    || existsb (fun table =>
                  filterTable {| tr_id := t_id table;
                                 tr_schema := t_schema table |}
                              filter (defaultSchemas databaseType))
               tablesInArea in
  {| n_id := a_id area;
     n_type := KArea;
     n_position := {| px := a_x area; py := a_y area |};
     n_data := DArea area;
     n_width := Some (a_width area);
     n_height := Some (a_height area);
     n_zIndex := Some (-10)%Z;
     n_hidden := Some (negb hasVisibleTable || filterLoading);
     n_selected := None;
     n_measured := None |}.

Definition noteToNoteNode (note : Note) : Node :=
  {| n_id := nt_id note;
     n_type := KNote;
     n_position := {| px := nt_x note; py := nt_y note |};
     n_data := DNote note;
     n_width := Some (nt_width note);
     n_height := Some (nt_height note);
     n_zIndex := Some 50%Z;
     n_hidden := None;
     n_selected := None;
     n_measured := None |}.

(** ** Visual edges *)

Inductive EdgeKind := ERelationship | EDependency | ETempFloating.

#[global] Instance EdgeKind_eq_dec : EqDecision EdgeKind.
Proof. solve_decision. Defined.

Record EdgeData := {
  ed_relationship : option DBRelationship;
  ed_dependency : option DBDependency;
  ed_highlighted : option bool
}.

Record Edge := {
  e_id : string;
  e_source : string;
  e_target : string;
  e_sourceHandle : option string;
  e_targetHandle : option string;
  e_type : EdgeKind;
  e_data : option EdgeData;
  e_hidden : option bool;
  e_selected : option bool;
  e_animated : option bool;
  e_zIndex : option Z
}.

#[global] Instance EdgeData_eq_dec : EqDecision EdgeData.
Proof. solve_decision. Defined.
#[global] Instance Edge_eq_dec : EqDecision Edge.
Proof. solve_decision. Defined.

Definition HIGHLIGHTED_EDGE_Z_INDEX : Z := 1.
Definition DEFAULT_EDGE_Z_INDEX : Z := 0.

(** What a state updater [setX(prev => ...)] hands back: either the very
    array it was given (the framework then sees no change), or a new one. *)
Inductive StateUpdate (A : Type) :=
| SamePrev
| NewValue (a : A).
Arguments SamePrev {A}.
Arguments NewValue {A} a.

Definition commit {A} (prev : A) (u : StateUpdate A) : A :=
  match u with SamePrev => prev | NewValue a => a end.

(** *** Edge regeneration *)

(** [String(n)] inside a template literal. *)
Definition number_to_string (n : number) : string :=
  match n with Num z => pretty z | NaN => "NaN" end.

(** The counters are plain objects ([{} as Record<string, number>]), whose
    own properties the [gmap] holds. On a plain object the key [__proto__]
    is the accessor inherited from [Object.prototype]: assigning a number to
    it stores nothing, and reading it yields the prototype object, whose
    numeric value is [NaN]. *)
Definition PROTO_KEY : string := "__proto__".

(** [rec[key] = v] *)
Definition obj_assign (key : string) (v : number) (rec : gmap string number)
    : gmap string number :=
  if bool_decide (key = PROTO_KEY) then rec else <[key := v]> rec.

(** [rec[key]++]: yields the old value as a number and stores its successor;
    a key that is not an own property reads as [undefined] or as an
    inherited member, whose numeric value is [NaN]. *)
Definition post_incr (key : string) (rec : gmap string number)
    : number * gmap string number :=
  let old :=
    if bool_decide (key = PROTO_KEY) then NaN
    else default NaN (rec !! key) in
  (old, obj_assign key (num_add old (Num 1)) rec).

(** [arr.map(f)] where [f] mutates a captured record. *)
Fixpoint map_st {S A B} (f : A -> S -> B * S) (l : list A) (s : S)
    : list B * S :=
  match l with
  | [] => ([], s)
  | a :: l' =>
      let '(b, s1) := f a s in
      let '(bs, s2) := map_st f l' s1 in
      (b :: bs, s2)
  end.

(** [new Map(prevEdges.map(e => [e.id, {selected, animated}]))]: a later
    entry with the same key replaces an earlier one. *)
Definition prevEdgeStates (prevEdges : list Edge)
    : gmap string (option bool * option bool) :=
  foldl (fun m edge => <[e_id edge := (e_selected edge, e_animated edge)]> m)
        ∅ prevEdges.

Definition initTargetIndexes (relationships : list DBRelationship)
    : gmap string number :=
  foldl (fun acc r =>
           obj_assign (r_targetTableId r +:+ r_targetFieldId r) (Num 0) acc)
        ∅ relationships.

Definition initTargetDepIndexes (dependencies : list DBDependency)
    : gmap string number :=
  foldl (fun acc dep => obj_assign (d_tableId dep) (Num 0) acc)
        ∅ dependencies.

Definition relationshipEdge `{Collaborators}
    (st : gmap string (option bool * option bool))
    (relationship : DBRelationship) (targetIndexes : gmap string number)
    : Edge * gmap string number :=
  let prevState := st !! r_id relationship in
  let '(idx, targetIndexes') :=
    post_incr (r_targetTableId relationship +:+ r_targetFieldId relationship)
              targetIndexes in
  ({| e_id := r_id relationship;
      e_source := r_sourceTableId relationship;
      e_target := r_targetTableId relationship;
      e_sourceHandle :=
        Some (LEFT_HANDLE_ID_PREFIX +:+ r_sourceFieldId relationship);
      e_targetHandle :=
        Some (TARGET_ID_PREFIX +:+ number_to_string idx +:+ "_"
              +:+ r_targetFieldId relationship);
      e_type := ERelationship;
      e_data := Some {| ed_relationship := Some relationship;
                        ed_dependency := None;
                        ed_highlighted := None |};
      e_hidden := None;
      e_selected := Some (nullish (prevState ≫= fst) false);
      e_animated := Some (nullish (prevState ≫= snd) false);
      e_zIndex := None |},
   targetIndexes').

Definition dependencyEdge `{Collaborators}
    (st : gmap string (option bool * option bool))
    (showDBViews : option bool)
    (dep : DBDependency) (targetDepIndexes : gmap string number)
    : Edge * gmap string number :=
  let prevState := st !! d_id dep in
  let '(idx, targetDepIndexes') :=
    post_incr (d_tableId dep) targetDepIndexes in
  ({| e_id := d_id dep;
      e_source := d_dependentTableId dep;
      e_target := d_tableId dep;
      e_sourceHandle :=
        Some (TOP_SOURCE_HANDLE_ID_PREFIX +:+ d_dependentTableId dep);
      e_targetHandle :=
        Some (TARGET_DEP_PREFIX +:+ number_to_string idx +:+ "_"
              +:+ d_tableId dep);
      e_type := EDependency;
      e_data := Some {| ed_relationship := None;
                        ed_dependency := Some dep;
                        ed_highlighted := None |};
      e_hidden := Some (negb (flag showDBViews));
      e_selected := Some (nullish (prevState ≫= fst) false);
      e_animated := Some (nullish (prevState ≫= snd) false);
      e_zIndex := None |},
   targetDepIndexes').

(** The updater passed to [setEdges] by the regeneration effect. It closes
    over the two counter objects the effect body has built and mutates
    them: [counters] is what they hold when the updater is applied, and the
    second component of the result what they hold afterwards. *)
Definition edgesUpdater `{Collaborators}
    (relationships : list DBRelationship) (dependencies : list DBDependency)
    (showDBViews : option bool)
    (counters : gmap string number * gmap string number)
    (prevEdges : list Edge)
    : list Edge * (gmap string number * gmap string number) :=
  let st := prevEdgeStates prevEdges in
  let rels := map_st (relationshipEdge st) relationships counters.1 in
  let deps := map_st (dependencyEdge st showDBViews) dependencies counters.2 in
  (rels.1 ++ deps.1, (rels.2, deps.2)).

(** One run of the effect: the body builds the counters, and the framework
    applies the updater to the previous edge list. *)
Definition regenerateEdges `{Collaborators}
    (relationships : list DBRelationship) (dependencies : list DBDependency)
    (showDBViews : option bool) (prevEdges : list Edge) : list Edge :=
  let targetIndexes := initTargetIndexes relationships in
  let targetDepIndexes := initTargetDepIndexes dependencies in
  (edgesUpdater relationships dependencies showDBViews
                (targetIndexes, targetDepIndexes) prevEdges).1.

(** *** Highlight propagation *)

Definition currentHighlighted (edge : Edge) : bool :=
  nullish (e_data edge ≫= ed_highlighted) false.

Definition shouldBeHighlighted
    (selectedRelationshipIdsSet selectedTableIdsSet : gset string)
    (edge : Edge) : bool :=
  bool_decide (e_id edge ∈ selectedRelationshipIdsSet)
  || bool_decide (e_source edge ∈ selectedTableIdsSet)
  || bool_decide (e_target edge ∈ selectedTableIdsSet).

Definition zIndexFor (highlighted : bool) : Z :=
  if highlighted then HIGHLIGHTED_EDGE_Z_INDEX else DEFAULT_EDGE_Z_INDEX.

(** [{ ...edge.data!, highlighted }] *)
Definition withHighlighted (d : option EdgeData) (h : bool) : EdgeData :=
  {| ed_relationship := d ≫= ed_relationship;
     ed_dependency := d ≫= ed_dependency;
     ed_highlighted := Some h |}.

Definition rebuildEdge (edge : Edge) (h : bool) : Edge :=
  {| e_id := e_id edge;
     e_source := e_source edge;
     e_target := e_target edge;
     e_sourceHandle := e_sourceHandle edge;
     e_targetHandle := e_targetHandle edge;
     e_type := e_type edge;
     e_data := Some (withHighlighted (e_data edge) h);
     e_hidden := e_hidden edge;
     e_selected := e_selected edge;
     e_animated := Some h;
     e_zIndex := Some (zIndexFor h) |}.

(** One step of the [.map] callback; the state is the [hasChanges] flag. *)
Definition highlightEdge (selRel selTab : gset string)
    (edge : Edge) (hasChanges : bool) : Edge * bool :=
  let should := shouldBeHighlighted selRel selTab edge in
  let currentAnimated := nullish (e_animated edge) false in
  let currentZIndex := nullish (e_zIndex edge) 0%Z in
  if bool_decide (currentHighlighted edge = should)
     && bool_decide (currentAnimated = should)
     && bool_decide (currentZIndex = zIndexFor should)
  then (edge, hasChanges)
  else
    match e_type edge with
    | EDependency => (rebuildEdge edge should, true)
    | _ => (rebuildEdge edge should, true)
    end.

(** The updater passed to [setEdges] by the highlight effect. *)
Definition highlightEdges
    (selectedRelationshipIds selectedTableIds : list string)
    (prevEdges : list Edge) : StateUpdate (list Edge) :=
  let selectedTableIdsSet : gset string := list_to_set selectedTableIds in
  let selectedRelationshipIdsSet : gset string :=
    list_to_set selectedRelationshipIds in
  let '(newEdges, hasChanges) :=
    map_st (highlightEdge selectedRelationshipIdsSet selectedTableIdsSet)
           (List.filter (fun e => negb (bool_decide (e_type e = ETempFloating)))
                        prevEdges)
           false in
  if hasChanges then NewValue newEdges else SamePrev.

(** ** Interaction events and collaborator calls *)

(** The connection handed to [onConnect]. *)
Record Connection := {
  c_source : string;
  c_target : string;
  c_sourceHandle : option string;
  c_targetHandle : option string
}.

Inductive NodeChange :=
| NCPosition (id : string) (position : option Position)
             (dragging : option bool)
| NCDimensions (id : string) (dimensions : option (number * number))
               (resizing : option bool)
| NCRemove (id : string)
| NCSelect (id : string) (selected : bool)
| NCAdd (item : Node)
| NCReplace (id : string) (item : Node).

Inductive EdgeChange :=
| ECRemove (id : string)
| ECSelect (id : string) (selected : bool)
| ECAdd (item : Edge)
| ECReplace (id : string) (item : Edge).

(** [change.type !== 'remove'] *)
Definition nodeChangeIsRemove (c : NodeChange) : bool :=
  match c with NCRemove _ => true | _ => false end.

Definition edgeChangeIsRemove (c : EdgeChange) : bool :=
  match c with ECRemove _ => true | _ => false end.

(** The object a [updateTablesState] updater returns for one table: the
    table itself (or a full copy of it), or a partial object keyed by id. *)
Record TablePatch := {
  tp_id : string;
  tp_x : option number;
  tp_y : option number;
  tp_width : option number;
  tp_parentAreaId : option (option string)
}.

Inductive TableUpdate :=
| UFull (t : DBTable)
| UPatch (p : TablePatch).

(** The three updater closures the canvas passes to [updateTablesState],
    as data; [runUpdater] below gives what each computes. *)
Inductive TablesUpdater :=
| UpdSyncFromView
| UpdRemove (areaRemoveIds removeIds : list string)
| UpdParentAreas (needsUpdate : list (string * option string)).

Record UpdateOptions := {
  uo_updateHistory : option bool;
  uo_skipPersist : option bool
}.

Record CustomType := { ct_id : string; ct_name : string }.

(** The body handed to [vertexApi.saveDiagram] by the save timer. *)
Record DiagramPayload `{Collaborators} := {
  pl_id : string;
  pl_name : string;
  pl_tables : list DBTable;
  pl_relationships : list DBRelationship;
  pl_dependencies : list DBDependency;
  pl_areas : list Area;
  pl_notes : list Note;
  pl_customTypes : list CustomType;
  pl_databaseType : DatabaseType;
  pl_databaseEdition : option string;
  pl_created_at : string;
  pl_updated_at : nat
}.

(** Calls the canvas makes on its collaborators (domain store, toast,
    React Flow state hooks, canvas context, API client). *)
Inductive Call `{Collaborators} :=
| CreateDependency (tableId dependentTableId : string)
| CreateRelationship
    (sourceTableId targetTableId sourceFieldId targetFieldId : string)
| Toast (title variant description : string)
| RemoveRelationships (ids : list (option string))
| RemoveDependencies (ids : list (option string))
| UpdateTablesState (u : TablesUpdater) (opts : UpdateOptions)
| SetSaveTrigger
| RemoveArea (id : string)
| RemoveNote (id : string)
| UpdateOverlappingGraphDebounced
    (positionChanges sizeChanges : list NodeChange)
| OnNodesChange (changes : list NodeChange)
| OnEdgesChange (changes : list EdgeChange)
| SaveDiagram (payload : DiagramPayload)
| SetOverlapGraph (g : Graph)
| FitView (duration : Z).

(** [getNode(id)]: the view layer's current node for an id. *)
Definition getNodeIn (view : list Node) (id : string) : option Node :=
  List.find (fun n => bool_decide (n_id n = id)) view.

Definition getEdgeIn (view : list Edge) (id : string) : option Edge :=
  List.find (fun e => bool_decide (e_id e = id)) view.

(** *** Connect gesture *)

Definition startsWith (o : option string) (pre : string) : bool :=
  match o with Some s => String.prefix pre s | None => false end.

(** [handle?.split('_')?.pop() ?? ''] *)
Definition fieldIdOfHandle (o : option string) : string :=
  nullish (o ≫= (fun s => js_pop (js_split "_"%char s))) "".

Definition onConnectHandler `{Collaborators}
    (getField : string -> string -> option DBField)
    (databaseType : DatabaseType) (params : Connection) : list Call :=
  if startsWith (c_sourceHandle params) TOP_SOURCE_HANDLE_ID_PREFIX
     || startsWith (c_sourceHandle params) BOTTOM_SOURCE_HANDLE_ID_PREFIX
  then
    let tableId := c_target params in
    let dependentTableId := c_source params in
    [CreateDependency tableId dependentTableId]
  else
    let sourceTableId := c_source params in
    let targetTableId := c_target params in
    let sourceFieldId := fieldIdOfHandle (c_sourceHandle params) in
    let targetFieldId := fieldIdOfHandle (c_targetHandle params) in
    match getField sourceTableId sourceFieldId,
          getField targetTableId targetFieldId with
    | Some sourceField, Some targetField =>
        if negb (areFieldTypesCompatible (f_type sourceField)
                                         (f_type targetField) databaseType)
        then [Toast "Field types are not compatible" "destructive"
                "Relationships can only be created between compatible field types"]
        else [CreateRelationship sourceTableId targetTableId
                                 sourceFieldId targetFieldId]
    | _, _ => []
    end.

(** *** Edge changes *)

Definition edgeRemoveId (c : EdgeChange) : option string :=
  match c with ECRemove id => Some id | _ => None end.

Definition onEdgesChangeHandler `{Collaborators}
    (readonly : bool) (getEdge : string -> option Edge)
    (changes : list EdgeChange) : list Call :=
  let changesToApply :=
    if readonly
    then List.filter (fun c => negb (edgeChangeIsRemove c)) changes
    else changes in
  let removeChanges := List.filter edgeChangeIsRemove changesToApply in
  let edgesToRemove :=
    omap (fun c => edgeRemoveId c ≫= getEdge) removeChanges in
  let relationshipsToRemove :=
    (fun edge => r_id <$> (e_data edge ≫= ed_relationship))
      <$> List.filter (fun e => bool_decide (e_type e = ERelationship))
                      edgesToRemove in
  let dependenciesToRemove :=
    (fun edge => d_id <$> (e_data edge ≫= ed_dependency))
      <$> List.filter (fun e => bool_decide (e_type e = EDependency))
                      edgesToRemove in
  (if (0 <? length relationshipsToRemove)%nat
   then [RemoveRelationships relationshipsToRemove] else [])
  ++ (if (0 <? length dependenciesToRemove)%nat
      then [RemoveDependencies dependenciesToRemove] else [])
  ++ [OnEdgesChange changesToApply].

(** *** Node changes *)

Definition isSettledPosition (c : NodeChange) : bool :=
  match c with
  | NCPosition _ (Some p) dragging =>
      negb (flag dragging) && negb (isNaN (px p)) && negb (isNaN (py p))
  | _ => false
  end.

Definition isResizing (c : NodeChange) : bool :=
  match c with NCDimensions _ _ resizing => flag resizing | _ => false end.

(** [change.id], for the change types that carry one. *)
Definition nodeChangeId (c : NodeChange) : option string :=
  match c with
  | NCPosition id _ _ | NCDimensions id _ _ | NCRemove id
  | NCSelect id _ | NCReplace id _ => Some id
  | NCAdd _ => None
  end.

Record RelevantChanges := {
  positionChanges : list NodeChange;
  removeChanges : list NodeChange;
  sizeChanges : list NodeChange
}.

Definition findRelevantNodesChanges
    (getNode : string -> option Node)
    (changes : list NodeChange) (type : NodeKind) : RelevantChanges :=
  let relevantChanges :=
    List.filter
      (fun change =>
         if isSettledPosition change || isResizing change
            || nodeChangeIsRemove change
         then match nodeChangeId change ≫= getNode with
              | None => false
              | Some node => bool_decide (n_type node = type)
              end
         else false)
      changes in
  {| positionChanges := List.filter isSettledPosition relevantChanges;
     removeChanges := List.filter nodeChangeIsRemove relevantChanges;
     sizeChanges := List.filter isResizing relevantChanges |}.

(** Modelled from the spec: [getTablesInArea] of [lib/utils/area-utils] is
    not among the files at hand. The design document expresses an area's
    members only through [Table.parentAreaId]. *)
Definition getTablesInArea (areaId : string) (tables : list DBTable)
    : list DBTable :=
  List.filter (fun t => bool_decide (t_parentAreaId t = Some areaId)) tables.

Definition findArea (areas : list Area) (id : string) : option Area :=
  List.find (fun a => bool_decide (a_id a = id)) areas.

(** The synthetic, visual-only position changes for the member tables of
    one area that is being dragged. *)
Definition areaDragChildChanges
    (areas : list Area) (tables : list DBTable) (areaChange : NodeChange)
    : list NodeChange :=
  match areaChange with
  | NCPosition id (Some position) _ =>
      match findArea areas id with
      | Some currentArea =>
          let deltaX := num_sub (px position) (a_x currentArea) in
          let deltaY := num_sub (py position) (a_y currentArea) in
          let childTables :=
            List.filter (fun t => bool_decide (t_parentAreaId t = Some id))
                        tables in
          (fun t => NCPosition (t_id t)
                      (Some {| px := num_add (t_x t) deltaX;
                               py := num_add (t_y t) deltaY |})
                      (Some true))
            <$> childTables
      | None => []
      end
  | _ => []
  end.

Definition isAreaDrag (getNode : string -> option Node) (c : NodeChange)
    : bool :=
  match c with
  | NCPosition id _ dragging =>
      match getNode id with
      | Some node => bool_decide (n_type node = KArea) && flag dragging
      | None => false
      end
  | _ => false
  end.

(** [childTableMovements]: table id to the delta of its area's move. *)
Definition childTableMovementsOf
    (areas : list Area) (tables : list DBTable)
    (areaPositionChanges areaSizeChanges : list NodeChange)
    : gmap string (number * number) :=
  if (0 <? length areaPositionChanges)%nat
     && Nat.eqb (length areaSizeChanges) 0
  then
    foldl
      (fun acc change =>
         match change with
         | NCPosition id (Some position) _ =>
             match findArea areas id with
             | Some currentArea =>
                 let deltaX := num_sub (px position) (a_x currentArea) in
                 let deltaY := num_sub (py position) (a_y currentArea) in
                 foldl (fun acc' t => <[t_id t := (deltaX, deltaY)]> acc')
                       acc (getTablesInArea id tables)
             | None => acc
             end
         | _ => acc
         end)
      ∅ areaPositionChanges
  else ∅.

Definition changeIds (l : list NodeChange) : list string :=
  omap nodeChangeId l.

Definition onNodesChangeHandler `{Collaborators}
    (readonly : bool) (getNode : string -> option Node)
    (tables : list DBTable) (areas : list Area)
    (changes : list NodeChange) : list Call :=
  let changesToApply :=
    if readonly
    then List.filter (fun c => negb (nodeChangeIsRemove c)) changes
    else changes in
  let areaDragChanges := List.filter (isAreaDrag getNode) changesToApply in
  let changesToApply :=
    if (0 <? length areaDragChanges)%nat
    then changesToApply
         ++ concat (areaDragChildChanges areas tables <$> areaDragChanges)
    else changesToApply in
  let areaCh := findRelevantNodesChanges getNode changesToApply KArea in
  let noteCh := findRelevantNodesChanges getNode changesToApply KNote in
  let tableCh := findRelevantNodesChanges getNode changesToApply KTable in
  let childTableMovements :=
    childTableMovementsOf areas tables
      (positionChanges areaCh) (sizeChanges areaCh) in
  (if (0 <? length (positionChanges tableCh))%nat
      || (0 <? length (sizeChanges tableCh))%nat
      || (0 <? size childTableMovements)%nat
   then [UpdateTablesState UpdSyncFromView
           {| uo_updateHistory := Some false; uo_skipPersist := Some true |};
         SetSaveTrigger]
   else [])
  ++ (if (0 <? length (positionChanges areaCh))%nat
         || (0 <? length (sizeChanges areaCh))%nat
         || (0 <? length (positionChanges noteCh))%nat
         || (0 <? length (sizeChanges noteCh))%nat
      then [SetSaveTrigger] else [])
  ++ (if (0 <? length (removeChanges tableCh))%nat
         || (0 <? length (removeChanges areaCh))%nat
      then [UpdateTablesState
              (UpdRemove (changeIds (removeChanges areaCh))
                         (changeIds (removeChanges tableCh)))
              {| uo_updateHistory :=
                   Some (0 <? length (removeChanges tableCh))%nat;
                 uo_skipPersist := None |}]
      else [])
  ++ (RemoveArea <$> changeIds (removeChanges areaCh))
  ++ (RemoveNote <$> changeIds (removeChanges noteCh))
  ++ [UpdateOverlappingGraphDebounced
        (positionChanges tableCh) (sizeChanges tableCh);
      OnNodesChange changesToApply].

(** *** What the updater closures compute *)

Definition fullPatch (id : string) : TablePatch :=
  {| tp_id := id; tp_x := None; tp_y := None; tp_width := None;
     tp_parentAreaId := None |}.

(** [node.measured?.width] when truthy. *)
Definition measuredWidth (node : Node) : option number :=
  match n_measured node ≫= m_width with
  | Some w => if num_truthy w then Some w else None
  | None => None
  end.

(** [node.measured?.width && node.measured?.height] when truthy. *)
Definition measuredSize (node : Node) : option (number * number) :=
  match n_measured node ≫= m_width, n_measured node ≫= m_height with
  | Some w, Some h =>
      if num_truthy w && num_truthy h then Some (w, h) else None
  | _, _ => None
  end.

Definition setParentAreaId (t : DBTable) (p : option string) : DBTable :=
  {| t_id := t_id t; t_schema := t_schema t; t_x := t_x t; t_y := t_y t;
     t_width := t_width t; t_fields := t_fields t; t_isView := t_isView t;
     t_parentAreaId := p |}.

Definition runUpdater (getNode : string -> option Node)
    (u : TablesUpdater) (currentTables : list DBTable) : list TableUpdate :=
  match u with
  | UpdSyncFromView =>
      (fun table =>
         match getNode (t_id table) with
         | Some node =>
             UPatch {| tp_id := t_id table;
                       tp_x := Some (px (n_position node));
                       tp_y := Some (py (n_position node));
                       tp_width := measuredWidth node;
                       tp_parentAreaId := None |}
         | None => UPatch (fullPatch (t_id table))
         end) <$> currentTables
  | UpdRemove areaRemoveIds removeIds =>
      UFull <$>
        List.filter
          (fun table =>
             negb (existsb (fun id => bool_decide (id = t_id table))
                           removeIds))
          ((fun currentTable =>
              match List.find
                      (fun id =>
                         bool_decide (Some id = t_parentAreaId currentTable))
                      areaRemoveIds with
              | Some _ => setParentAreaId currentTable None
              | None => currentTable
              end) <$> currentTables)
  | UpdParentAreas needsUpdate =>
      (fun table =>
         match List.find (fun u => bool_decide (u.1 = t_id table))
                         needsUpdate with
         | Some update =>
             UPatch {| tp_id := t_id table; tp_x := None; tp_y := None;
                       tp_width := None;
                       tp_parentAreaId := Some update.2 |}
         | None => UFull table
         end) <$> currentTables
  end.

(** *** Parent-area reassignment *)

Definition num_le (a b : number) : bool :=
  match a, b with Num x, Num y => (x <=? y)%Z | _, _ => false end.

(** Modelled from the spec: the containment test behind
    [updateTablesParentAreas] of [lib/utils/area-utils], which is not among
    the files at hand. The design document says: a table's [parentAreaId] is
    the id of the Area whose bounds fully contain the table's bounds, or null
    if none does. *)
Definition areaContainsTable `{Collaborators}
    (area : Area) (table : DBTable) : bool :=
  let width := nullish (t_width table) MIN_TABLE_SIZE in
  let height := calcTableHeight table in
  num_le (a_x area) (t_x table)
  && num_le (a_y area) (t_y table)
  && num_le (num_add (t_x table) width) (num_add (a_x area) (a_width area))
  && num_le (num_add (t_y table) height)
            (num_add (a_y area) (a_height area)).

(** Modelled from the spec: the parent resolved for one table by
    [updateTablesParentAreas], which is not among the files at hand: the id
    of an area whose bounds fully contain the table's bounds, or null. *)
Definition resolveParentArea `{Collaborators}
    (areas : list Area) (table : DBTable) : option string :=
  a_id <$> List.find (fun area => areaContainsTable area table) areas.

(** Modelled from the spec: [updateTablesParentAreas] itself, which is not
    among the files at hand; it hands back the tables, in order, each with
    its resolved [parentAreaId]. *)
Definition updateTablesParentAreas `{Collaborators}
    (tables : list DBTable) (areas : list Area) : list DBTable :=
  (fun table => setParentAreaId table (resolveParentArea areas table))
    <$> tables.

Definition nodeVisible (kind : NodeKind) (node : Node) : bool :=
  bool_decide (n_type node = kind) && negb (flag (n_hidden node)).

Definition visibleTablesOf (nodes : list Node) : list DBTable :=
  omap (fun node => match n_data node with
                    | DTable d => Some (td_table d)
                    | _ => None
                    end)
       (List.filter (nodeVisible KTable) nodes).

Definition visibleAreasOf (nodes : list Node) : list Area :=
  omap (fun node => match n_data node with
                    | DArea a => Some a
                    | _ => None
                    end)
       (List.filter (nodeVisible KArea) nodes).

(** The [forEach] that collects [needsUpdate]. *)
Definition needsUpdateOf (visibleTables updatedTables : list DBTable)
    : list (string * option string) :=
  concat
    (imap
       (fun index newTable =>
          match visibleTables !! index with
          | Some oldTable =>
              if (opt_truthy str_truthy (t_parentAreaId newTable)
                  || opt_truthy str_truthy (t_parentAreaId oldTable))
                 && negb (bool_decide (t_parentAreaId newTable
                                       = t_parentAreaId oldTable))
              then [(t_id newTable,
                     if opt_truthy str_truthy (t_parentAreaId newTable)
                     then t_parentAreaId newTable else None)]
              else []
          | None => []
          end)
       updatedTables).

(** The body of the debounced [checkParentAreas] closure; [nodes] is the
    node list captured by the effect run that scheduled it. *)
Definition checkParentAreas `{Collaborators} (nodes : list Node)
    : list Call :=
  let visibleTables := visibleTablesOf nodes in
  let visibleAreas := visibleAreasOf nodes in
  let updatedTables := updateTablesParentAreas visibleTables visibleAreas in
  let needsUpdate := needsUpdateOf visibleTables updatedTables in
  if (0 <? length needsUpdate)%nat
  then [UpdateTablesState (UpdParentAreas needsUpdate)
          {| uo_updateHistory := Some false; uo_skipPersist := None |}]
  else [].

(** *** Overlap query *)

Definition hasOverlappingTables (overlapGraph : Graph) : bool :=
  existsb (fun entry => (0 <? length entry.2)%nat)
          (map_to_list (graph overlapGraph)).

(** ** Scheduled work: timers, animation frames, effects *)

(** A [Date]: a point in time, given by its ISO string, or the invalid date
    ([new Date('garbage')]), for which [toISOString()] throws a
    [RangeError]. *)
Inductive JsDate :=
| ValidDate (iso : string)
| InvalidDate.

(** [date.toISOString()]; [None] where it throws. *)
Definition toISOString (date : JsDate) : option string :=
  match date with ValidDate iso => Some iso | InvalidDate => None end.

Record CurrentDiagram := {
  cd_databaseEdition : option string;
  cd_createdAt : JsDate
}.

(** The values the save effect closes over (its dependency list). *)
Record SaveDeps `{Collaborators} := {
  sd_tables : list DBTable;
  sd_areas : list Area;
  sd_notes : list Note;
  sd_relationships : list DBRelationship;
  sd_dependencies : list DBDependency;
  sd_customTypes : list CustomType;
  sd_diagramId : option string;
  sd_diagramName : string;
  sd_databaseType : DatabaseType;
  sd_currentDiagram : option CurrentDiagram
}.

(** Pulling rendered position and size back into the snapshot. *)
Definition syncTable (getNode : string -> option Node) (table : DBTable)
    : DBTable :=
  match getNode (t_id table) with
  | Some node =>
      {| t_id := t_id table; t_schema := t_schema table;
         t_x := px (n_position node); t_y := py (n_position node);
         t_width := match measuredWidth node with
                    | Some w => Some w
                    | None => t_width table
                    end;
         t_fields := t_fields table; t_isView := t_isView table;
         t_parentAreaId := t_parentAreaId table |}
  | None => table
  end.

Definition syncArea (getNode : string -> option Node) (area : Area) : Area :=
  match getNode (a_id area) with
  | Some node =>
      {| a_id := a_id area;
         a_x := px (n_position node); a_y := py (n_position node);
         a_width := match measuredSize node with
                    | Some wh => wh.1 | None => a_width area end;
         a_height := match measuredSize node with
                     | Some wh => wh.2 | None => a_height area end |}
  | None => area
  end.

Definition syncNote (getNode : string -> option Node) (note : Note) : Note :=
  match getNode (nt_id note) with
  | Some node =>
      {| nt_id := nt_id note;
         nt_x := px (n_position node); nt_y := py (n_position node);
         nt_width := match measuredSize node with
                     | Some wh => wh.1 | None => nt_width note end;
         nt_height := match measuredSize node with
                      | Some wh => wh.2 | None => nt_height note end;
         nt_content := nt_content note |}
  | None => note
  end.

(** [diagramToSave], assembled inside the [try] block of the timer callback
    when the save timer fires at time [now] against the view layer
    [getNode]. The effect arms the timer only when both the diagram id and
    the current diagram are present. The result is [None] when the
    assembling throws, which is when [createdAt.toISOString()] does: the
    [catch] block logs the error and the write is never reached. *)
Definition diagramToSave `{Collaborators}
    (deps : SaveDeps) (getNode : string -> option Node) (now : nat)
    : option DiagramPayload :=
  match sd_diagramId deps, sd_currentDiagram deps with
  | Some diagramId, Some currentDiagram =>
      let updatedTables := syncTable getNode <$> sd_tables deps in
      let updatedAreas := syncArea getNode <$> sd_areas deps in
      let updatedNotes := syncNote getNode <$> sd_notes deps in
      match toISOString (cd_createdAt currentDiagram) with
      | Some created_at =>
          Some {| pl_id := diagramId;
                  pl_name := sd_diagramName deps;
                  pl_tables := updatedTables;
                  pl_relationships := sd_relationships deps;
                  pl_dependencies := sd_dependencies deps;
                  pl_areas := updatedAreas;
                  pl_notes := updatedNotes;
                  pl_customTypes := sd_customTypes deps;
                  pl_databaseType := sd_databaseType deps;
                  pl_databaseEdition := cd_databaseEdition currentDiagram;
                  pl_created_at := created_at;
                  pl_updated_at := now |}
      | None => None
      end
  | _, _ => None
  end.

(** [updateOverlappingGraphOnChanges], with the [nodes] and [overlapGraph]
    of the render that created the callback. *)
Definition updateOverlappingGraphOnChanges `{Collaborators}
    (getNode : string -> option Node)
    (nodes : list Node) (overlapGraph : Graph)
    (positionChanges sizeChanges : list NodeChange) : list Call :=
  if (0 <? length positionChanges)%nat || (0 <? length sizeChanges)%nat
  then
    let step (g : Graph) (change : NodeChange) : Graph :=
      match nodeChangeId change ≫= getNode with
      | Some node =>
          if bool_decide (n_type node = KTable)
          then findTableOverlapping node
                 (List.filter (fun n => negb (flag (n_hidden n))
                                        && bool_decide (n_type n = KTable))
                              nodes)
                 g
          else g
      | None => g
      end in
    [SetOverlapGraph
       (foldl step (foldl step overlapGraph positionChanges) sizeChanges)]
  else [].

(** The closures handed to [setTimeout]. *)
Inductive Task `{Collaborators} :=
| TSaveDiagram (deps : SaveDeps)
| TCheckParentAreas (nodes : list Node)
| TFitView (duration : Z)
| TUpdateOverlap (nodes : list Node) (overlapGraph : Graph)
                 (positionChanges sizeChanges : list NodeChange)
| TClearHighlight.

Record Timer `{Collaborators} := {
  tm_id : positive;
  tm_due : nat;
  tm_task : Task
}.

(** The component instance together with the host's timer and frame queues.
    Time is a millisecond counter. *)
Record Engine `{Collaborators} := {
  clock : nat;
  nextHandle : positive;
  timers : list Timer;
  frames : list (positive * Position);
  saveDiagramTimeoutRef : option positive;
  saveCleanup : bool;
  overlapDebounce : option positive;
  rafIdRef : option positive;
  highlightOverlappingTables : bool;
  cursorPosition : option Position;
  view : list Node;
  calls : list Call
}.

Definition initialEngine `{Collaborators} : Engine :=
  {| clock := 0; nextHandle := 1%positive; timers := []; frames := [];
     saveDiagramTimeoutRef := None; saveCleanup := false;
     overlapDebounce := None; rafIdRef := None;
     highlightOverlappingTables := false; cursorPosition := None;
     view := []; calls := [] |}.

Definition setSched `{Collaborators}
    (st : Engine) (c : nat) (h : positive) (ts : list Timer) : Engine :=
  {| clock := c; nextHandle := h; timers := ts; frames := frames st;
     saveDiagramTimeoutRef := saveDiagramTimeoutRef st;
     saveCleanup := saveCleanup st; overlapDebounce := overlapDebounce st;
     rafIdRef := rafIdRef st;
     highlightOverlappingTables := highlightOverlappingTables st;
     cursorPosition := cursorPosition st; view := view st;
     calls := calls st |}.

Definition setSaveRef `{Collaborators}
    (st : Engine) (r : option positive) (cleanup : bool) : Engine :=
  {| clock := clock st; nextHandle := nextHandle st; timers := timers st;
     frames := frames st;
     saveDiagramTimeoutRef := r; saveCleanup := cleanup;
     overlapDebounce := overlapDebounce st; rafIdRef := rafIdRef st;
     highlightOverlappingTables := highlightOverlappingTables st;
     cursorPosition := cursorPosition st; view := view st;
     calls := calls st |}.

Definition setOverlapDebounce `{Collaborators}
    (st : Engine) (r : option positive) : Engine :=
  {| clock := clock st; nextHandle := nextHandle st; timers := timers st;
     frames := frames st;
     saveDiagramTimeoutRef := saveDiagramTimeoutRef st;
     saveCleanup := saveCleanup st;
     overlapDebounce := r; rafIdRef := rafIdRef st;
     highlightOverlappingTables := highlightOverlappingTables st;
     cursorPosition := cursorPosition st; view := view st;
     calls := calls st |}.

Definition setFrames `{Collaborators}
    (st : Engine) (h : positive) (fs : list (positive * Position))
    (r : option positive) : Engine :=
  {| clock := clock st; nextHandle := h; timers := timers st;
     frames := fs;
     saveDiagramTimeoutRef := saveDiagramTimeoutRef st;
     saveCleanup := saveCleanup st;
     overlapDebounce := overlapDebounce st; rafIdRef := r;
     highlightOverlappingTables := highlightOverlappingTables st;
     cursorPosition := cursorPosition st; view := view st;
     calls := calls st |}.

Definition setUi `{Collaborators}
    (st : Engine) (hl : bool) (cur : option Position) : Engine :=
  {| clock := clock st; nextHandle := nextHandle st; timers := timers st;
     frames := frames st;
     saveDiagramTimeoutRef := saveDiagramTimeoutRef st;
     saveCleanup := saveCleanup st;
     overlapDebounce := overlapDebounce st; rafIdRef := rafIdRef st;
     highlightOverlappingTables := hl;
     cursorPosition := cur; view := view st;
     calls := calls st |}.

Definition setView `{Collaborators} (st : Engine) (v : list Node) : Engine :=
  {| clock := clock st; nextHandle := nextHandle st; timers := timers st;
     frames := frames st;
     saveDiagramTimeoutRef := saveDiagramTimeoutRef st;
     saveCleanup := saveCleanup st;
     overlapDebounce := overlapDebounce st; rafIdRef := rafIdRef st;
     highlightOverlappingTables := highlightOverlappingTables st;
     cursorPosition := cursorPosition st; view := v;
     calls := calls st |}.

Definition emit `{Collaborators} (st : Engine) (cs : list Call) : Engine :=
  {| clock := clock st; nextHandle := nextHandle st; timers := timers st;
     frames := frames st;
     saveDiagramTimeoutRef := saveDiagramTimeoutRef st;
     saveCleanup := saveCleanup st;
     overlapDebounce := overlapDebounce st; rafIdRef := rafIdRef st;
     highlightOverlappingTables := highlightOverlappingTables st;
     cursorPosition := cursorPosition st; view := view st;
     calls := calls st ++ cs |}.

(** [setTimeout(task, delay)] and [clearTimeout(id)]. *)
Definition setTimeout `{Collaborators}
    (task : Task) (delay : nat) (st : Engine) : positive * Engine :=
  let id := nextHandle st in
  (id, setSched st (clock st) (Pos.succ id)
         (timers st ++ [{| tm_id := id; tm_due := clock st + delay;
                           tm_task := task |}])).

Definition clearTimeout `{Collaborators}
    (id : positive) (st : Engine) : Engine :=
  setSched st (clock st) (nextHandle st)
    (List.filter (fun tm => negb (bool_decide (tm_id tm = id))) (timers st)).

(** [if (ref.current) clearTimeout(ref.current)] *)
Definition clearIfSet `{Collaborators}
    (r : option positive) (st : Engine) : Engine :=
  match r with Some id => clearTimeout id st | None => st end.

(** Modelled from the spec: [debounce] of [lib/utils] is not among the files
    at hand. The design document describes debouncing as delaying an action
    until a quiet period has elapsed since the last triggering call: a
    debounced function keeps one private timer handle, and each call cancels
    the pending timer and arms a new one. [slot] is that handle. *)
Definition debounceCall `{Collaborators}
    (slot : option positive) (task : Task) (wait : nat) (st : Engine)
    : positive * Engine :=
  setTimeout task wait (clearIfSet slot st).

(** Running a timer callback. *)
Definition runTask `{Collaborators} (task : Task) (st : Engine) : Engine :=
  match task with
  | TSaveDiagram deps =>
      emit st (match diagramToSave deps (getNodeIn (view st)) (clock st) with
               | Some payload => [SaveDiagram payload]
               | None => []
               end)
  | TCheckParentAreas nodes => emit st (checkParentAreas nodes)
  | TFitView duration => emit st [FitView duration]
  | TUpdateOverlap nodes overlapGraph positionChanges sizeChanges =>
      emit st (updateOverlappingGraphOnChanges (getNodeIn (view st))
                 nodes overlapGraph positionChanges sizeChanges)
  | TClearHighlight => setUi st false (cursorPosition st)
  end.

Definition fire `{Collaborators} (tm : Timer) (st : Engine) : Engine :=
  runTask (tm_task tm)
          (setSched st (Nat.max (clock st) (tm_due tm))
                    (nextHandle st) (timers st)).

Definition timerBefore `{Collaborators} (a b : Timer) : bool :=
  (tm_due a <? tm_due b)%nat
  || ((tm_due a =? tm_due b)%nat && (tm_id a <=? tm_id b)%positive).

Fixpoint insertTimer `{Collaborators} (tm : Timer) (l : list Timer)
    : list Timer :=
  match l with
  | [] => [tm]
  | x :: l' =>
      if timerBefore tm x then tm :: x :: l' else x :: insertTimer tm l'
  end.

Definition sortTimers `{Collaborators} (l : list Timer) : list Timer :=
  foldr insertTimer [] l.

Definition isDue `{Collaborators} (t_end : nat) (tm : Timer) : bool :=
  (tm_due tm <=? t_end)%nat.

(** Letting [dt] milliseconds pass: every timer that has come due fires,
    earliest first. *)
Definition advance `{Collaborators} (dt : nat) (st : Engine) : Engine :=
  let t_end := clock st + dt in
  let due := sortTimers (List.filter (isDue t_end) (timers st)) in
  let rest := List.filter (fun tm => negb (isDue t_end tm)) (timers st) in
  let st1 :=
    foldl (fun s tm => fire tm s)
          (setSched st (clock st) (nextHandle st) rest) due in
  setSched st1 t_end (nextHandle st1) (timers st1).

(** *** The effects and callbacks that schedule work *)

(** Cleanup returned by the save effect. *)
Definition saveEffectCleanup `{Collaborators} (st : Engine) : Engine :=
  if saveCleanup st
  then setSaveRef (clearIfSet (saveDiagramTimeoutRef st) st)
                  (saveDiagramTimeoutRef st) false
  else st.

(** One run of the save effect after a change of its dependencies: the
    framework first runs the cleanup of the previous run, then the body. *)
Definition saveEffect `{Collaborators} (deps : SaveDeps) (st : Engine)
    : Engine :=
  let st := saveEffectCleanup st in
  if negb (opt_truthy str_truthy (sd_diagramId deps))
     || negb (bool_decide (is_Some (sd_currentDiagram deps)))
  then st
  else
    let st := clearIfSet (saveDiagramTimeoutRef st) st in
    let '(id, st) := setTimeout (TSaveDiagram deps) 500 st in
    setSaveRef st (Some id) true.

(** The [checkParentAreas] effect: a fresh debounced closure, called once. *)
Definition checkParentAreasEffect `{Collaborators}
    (nodes : list Node) (st : Engine) : Engine :=
  (debounceCall None (TCheckParentAreas nodes) 300 st).2.

(** The fit-view effect after the initial nodes have loaded. *)
Definition fitViewEffect `{Collaborators}
    (isInitialLoadingNodes : bool) (st : Engine) : Engine :=
  if negb isInitialLoadingNodes
  then (debounceCall None (TFitView 200) 500 st).2
  else st.

(** [updateOverlappingGraphOnChangesDebounced(...)]; the debounced function
    is re-created by every render. *)
Definition overlapDebounced `{Collaborators}
    (nodes : list Node) (overlapGraph : Graph)
    (positionChanges sizeChanges : list NodeChange) (st : Engine) : Engine :=
  let '(id, st) :=
    debounceCall (overlapDebounce st)
      (TUpdateOverlap nodes overlapGraph positionChanges sizeChanges)
      200 st in
  setOverlapDebounce st (Some id).

Definition render `{Collaborators} (st : Engine) : Engine :=
  setOverlapDebounce st None.

Definition pulseOverlappingTables `{Collaborators} (st : Engine) : Engine :=
  (setTimeout TClearHighlight 600 (setUi st true (cursorPosition st))).2.

Definition handleMouseMove `{Collaborators}
    (tempFloatingEdge : bool) (client : Position) (st : Engine) : Engine :=
  if tempFloatingEdge
  then match rafIdRef st with
       | Some _ => st
       | None =>
           let id := nextHandle st in
           setFrames st (Pos.succ id) (frames st ++ [(id, client)]) (Some id)
       end
  else st.

(** The host runs the pending animation-frame callbacks. *)
Definition frame `{Collaborators} (st : Engine) : Engine :=
  foldl (fun s cb =>
           setFrames (setUi s (highlightOverlappingTables s)
                            (Some (screenToFlowPosition cb.2)))
                     (nextHandle s) (frames s) None)
        (setFrames st (nextHandle st) [] (rafIdRef st))
        (frames st).

(** Unmount: the framework runs the cleanup of every effect that returned
    one, which are the save effect and the animation-frame effect. *)
Definition rafCleanup `{Collaborators} (st : Engine) : Engine :=
  match rafIdRef st with
  | Some id =>
      setFrames st (nextHandle st)
        (List.filter (fun cb => negb (bool_decide (cb.1 = id))) (frames st))
        (rafIdRef st)
  | None => st
  end.

Definition unmount `{Collaborators} (st : Engine) : Engine :=
  rafCleanup (saveEffectCleanup st).

Inductive Event `{Collaborators} :=
| EvSaveEffect (deps : SaveDeps)
| EvCheckParentAreasEffect (nodes : list Node)
| EvFitViewEffect (isInitialLoadingNodes : bool)
| EvOverlapDebounced (nodes : list Node) (overlapGraph : Graph)
                     (positionChanges sizeChanges : list NodeChange)
| EvRender
| EvPulse
| EvMouseMove (tempFloatingEdge : bool) (client : Position)
| EvFrame
| EvView (nodes : list Node)
| EvAdvance (dt : nat)
| EvUnmount.

Definition step `{Collaborators} (st : Engine) (ev : Event) : Engine :=
  match ev with
  | EvSaveEffect deps => saveEffect deps st
  | EvCheckParentAreasEffect nodes => checkParentAreasEffect nodes st
  | EvFitViewEffect b => fitViewEffect b st
  | EvOverlapDebounced nodes g pc sc => overlapDebounced nodes g pc sc st
  | EvRender => render st
  | EvPulse => pulseOverlappingTables st
  | EvMouseMove b client => handleMouseMove b client st
  | EvFrame => frame st
  | EvView nodes => setView st nodes
  | EvAdvance dt => advance dt st
  | EvUnmount => unmount st
  end.

Definition run `{Collaborators} (st : Engine) (evs : list Event) : Engine :=
  foldl step st evs.

(** ** Legacy-storage migration *)

(** Untyped values read from IndexedDB ([any] in the source). *)
#[local] Unset Elimination Schemes.
Inductive JsVal :=
| JUndefined
| JNull
| JBool (b : bool)
| JNum (n : number)
| JStr (s : string)
| JArr (items : list JsVal)
| JObj (props : list (string * JsVal)).
#[local] Set Elimination Schemes.

(** Stored rows are objects: property lists in insertion order. *)
Definition Obj := list (string * JsVal).

(** A computation that may throw; the payload of [inl] is the message the
    [catch] blocks extract from the thrown value. *)
Definition Res (A : Type) : Type := string + A.

#[global] Instance Res_ret : MRet Res := fun _ a => inr a.
#[global] Instance Res_bind : MBind Res :=
  fun _ _ f m => match m with inl e => inl e | inr a => f a end.

Definition throw {A} (msg : string) : Res A := inl msg.

Definition js_truthy (v : JsVal) : bool :=
  match v with
  | JUndefined | JNull => false
  | JBool b => b
  | JNum n => num_truthy n
  | JStr s => str_truthy s
  | JArr _ | JObj _ => true
  end.

(** [a || b] *)
Definition js_or (a b : JsVal) : JsVal := if js_truthy a then a else b.

Definition obj_get (o : Obj) (k : string) : JsVal :=
  match List.find (fun p => bool_decide (p.1 = k)) o with
  | Some p => p.2
  | None => JUndefined
  end.

(** [{ ...o, k: v }]: an existing key keeps its place. *)
Fixpoint obj_set (o : Obj) (k : string) (v : JsVal) : Obj :=
  match o with
  | [] => [(k, v)]
  | (k', v') :: o' =>
      if bool_decide (k' = k) then (k, v) :: o'
      else (k', v') :: obj_set o' k v
  end.

(** [v.k]: reading a property of [undefined] or [null] throws. *)
Definition js_get (v : JsVal) (k : string) : Res JsVal :=
  match v with
  | JUndefined | JNull => throw "Cannot read properties of undefined"
  | JObj o => mret (obj_get o k)
  | _ => mret JUndefined
  end.

Fixpoint chars (s : string) : list string :=
  match s with
  | EmptyString => []
  | String c s' => String c EmptyString :: chars s'
  end.

(** [{ ...v }]: own enumerable properties; none for primitives other than
    strings, whose characters are indexed. *)
Definition js_spread (v : JsVal) : Obj :=
  match v with
  | JObj o => o
  | JArr l => imap (fun i x => (pretty i, x)) l
  | JStr s => imap (fun i c => (pretty i, JStr c)) (chars s)
  | _ => []
  end.

(** String conversion inside template literals. *)
Fixpoint js_to_string (v : JsVal) : string :=
  match v with
  | JUndefined => "undefined"
  | JNull => "null"
  | JBool b => if b then "true" else "false"
  | JNum n => number_to_string n
  | JStr s => s
  | JArr l =>
      String.concat ","
        (List.map (fun x => match x with
                            | JUndefined | JNull => ""
                            | _ => js_to_string x
                            end) l)
  | JObj _ => "[object Object]"
  end.

Definition dquote : string := String "034"%char EmptyString.

Definition MIGRATION_FLAG : string := "migrated_to_api_v1".

Record MigrationResult := {
  success : bool;
  message : string;
  diagramsCount : nat;
  errors : list string
}.

(** The IndexedDB database as the routine reads it; each query may reject. *)
Record LegacyDB := {
  db_diagrams : Res (list Obj);
  db_tables : JsVal -> Res (list Obj);
  db_relationships : JsVal -> Res (list Obj);
  db_dependencies : JsVal -> Res (list Obj);
  db_areas : JsVal -> Res (list Obj);
  db_custom_types : JsVal -> Res (list Obj);
  db_notes : JsVal -> Res (list Obj);
  db_diagram_filters : JsVal -> Res (list Obj);
  db_config : Res (list Obj)
}.

(** The API client: [None] when the request succeeds, [Some msg] when it
    throws. *)
Record VertexApi := {
  api_saveDiagram : JsVal -> option string;
  api_updateConfig : JsVal -> option string
}.

Inductive ApiRequest :=
| ReqSaveDiagram (body : JsVal)
| ReqUpdateConfig (body : JsVal).

Definition normalizeField (field : JsVal) : Res JsVal :=
  ty ← js_get field "type";
  mret (JObj (obj_set (js_spread field) "type"
                (match ty with
                 | JStr s => JObj [("id", JStr s); ("name", JStr s)]
                 | _ => js_or ty (JObj [("id", JStr "string");
                                        ("name", JStr "string")])
                 end))).

Definition normalizeTable (table : Obj) : Res Obj :=
  match js_or (obj_get table "fields") (JArr []) with
  | JArr fields =>
      fields' ← mapM normalizeField fields;
      mret (obj_set table "fields" (JArr fields'))
  | _ => throw "(table.fields || []).map is not a function"
  end.

Definition normalizeRelationship (rel : Obj) : Obj :=
  obj_set
    (obj_set rel "sourceCardinality"
             (js_or (obj_get rel "sourceCardinality") (JStr "many")))
    "targetCardinality"
    (js_or (obj_get rel "targetCardinality") (JStr "one")).

(** [rows.map(r => ({ ...r, diagramId: undefined }))] *)
Definition stripDiagramId (rows : list Obj) : JsVal :=
  JArr ((fun r => JObj (obj_set r "diagramId" JUndefined)) <$> rows).

Definition buildApiDiagram (db : LegacyDB) (diagram : Obj) : Res JsVal :=
  rawTables ← db_tables db (obj_get diagram "id");
  tables ← mapM normalizeTable rawTables;
  rawRelationships ← db_relationships db (obj_get diagram "id");
  let relationships := normalizeRelationship <$> rawRelationships in
  dependencies ← db_dependencies db (obj_get diagram "id");
  areas ← db_areas db (obj_get diagram "id");
  customTypes ← db_custom_types db (obj_get diagram "id");
  notes ← db_notes db (obj_get diagram "id");
  diagramFilters ← db_diagram_filters db (obj_get diagram "id");
  let content :=
    obj_set (obj_set (obj_set (obj_set (obj_set (obj_set diagram
      "tables" (stripDiagramId tables))
      "relationships" (stripDiagramId relationships))
      "dependencies" (stripDiagramId dependencies))
      "areas" (stripDiagramId areas))
      "customTypes" (stripDiagramId customTypes))
      "notes" (stripDiagramId notes) in
  let content :=
    match diagramFilters with
    | diagramFilter :: _ =>
        obj_set content "diagramFilter"
                (JObj (obj_set diagramFilter "diagramId" JUndefined))
    | [] => content
    end in
  mret (JObj [("id", obj_get diagram "id");
              ("name", obj_get diagram "name");
              ("content", JObj content)]).

(** One iteration of the diagram loop: the requests issued and the error
    recorded, if any. *)
Definition migrateDiagram (db : LegacyDB) (api : VertexApi) (diagram : Obj)
    : list ApiRequest * list string :=
  let failed (errorMsg : string) :=
    "Failed to migrate diagram " +:+ dquote
      +:+ js_to_string (obj_get diagram "name") +:+ dquote +:+ ": "
      +:+ errorMsg in
  match buildApiDiagram db diagram with
  | inl errorMsg => ([], [failed errorMsg])
  | inr apiDiagram =>
      match api_saveDiagram api apiDiagram with
      | Some errorMsg => ([ReqSaveDiagram apiDiagram], [failed errorMsg])
      | None => ([ReqSaveDiagram apiDiagram], [])
      end
  end.

Definition migrateConfig (db : LegacyDB) (api : VertexApi)
    : list ApiRequest * list string :=
  match db_config db with
  | inl errorMsg => ([], ["Failed to migrate config: " +:+ errorMsg])
  | inr [] => ([], [])
  | inr (config :: _) =>
      let body := JObj [("default_diagram_id",
                         obj_get config "defaultDiagramId")] in
      match api_updateConfig api body with
      | Some errorMsg =>
          ([ReqUpdateConfig body], ["Failed to migrate config: " +:+ errorMsg])
      | None => ([ReqUpdateConfig body], [])
      end
  end.

(** The outcome of one call: the result it resolves to, the local storage
    afterwards, and the API requests it issued. *)
Record MigrationRun := {
  mr_result : MigrationResult;
  mr_storage : gmap string string;
  mr_requests : list ApiRequest
}.

Definition migrateIndexedDBToAPI
    (db : LegacyDB) (api : VertexApi) (localStorage : gmap string string)
    : MigrationRun :=
  if bool_decide (localStorage !! MIGRATION_FLAG = Some "true")
  then {| mr_result := {| success := true; message := "Already migrated";
                          diagramsCount := 0; errors := [] |};
          mr_storage := localStorage; mr_requests := [] |}
  else
    match db_diagrams db with
    | inl errorMsg =>
        {| mr_result := {| success := false;
                           message := "Migration failed: " +:+ errorMsg;
                           diagramsCount := 0; errors := [errorMsg] |};
           mr_storage := localStorage; mr_requests := [] |}
    | inr [] =>
        {| mr_result := {| success := true;
                           message := "No diagrams to migrate";
                           diagramsCount := 0; errors := [] |};
           mr_storage := <[MIGRATION_FLAG := "true"]> localStorage;
           mr_requests := [] |}
    | inr diagrams =>
        let perDiagram := migrateDiagram db api <$> diagrams in
        let config := migrateConfig db api in
        let errors := concat (snd <$> perDiagram) ++ config.2 in
        {| mr_result :=
             {| success := Nat.eqb (length errors) 0;
                message :=
                  if Nat.eqb (length errors) 0
                  then "Successfully migrated " +:+ pretty (length diagrams)
                       +:+ " diagrams"
                  else "Migrated " +:+ pretty (length diagrams)
                       +:+ " diagrams with " +:+ pretty (length errors)
                       +:+ " errors";
                diagramsCount := length diagrams;
                errors := errors |};
           mr_storage := <[MIGRATION_FLAG := "true"]> localStorage;
           mr_requests := concat (fst <$> perDiagram) ++ config.1 |}
    end.

Definition isMigrationComplete (localStorage : gmap string string) : bool :=
  bool_decide (localStorage !! MIGRATION_FLAG = Some "true").

Definition resetMigrationFlag (localStorage : gmap string string)
    : gmap string string :=
  delete MIGRATION_FLAG localStorage.

(** ** Vocabulary of the properties *)

(** *** Highlight propagation *)

(** Whether the [.map] callback leaves an edge as it is. *)
Definition upToDate (selRel selTab : gset string) (edge : Edge) : bool :=
  let should := shouldBeHighlighted selRel selTab edge in
  bool_decide (currentHighlighted edge = should)
  && bool_decide (nullish (e_animated edge) false = should)
  && bool_decide (nullish (e_zIndex edge) 0%Z = zIndexFor should).

Definition highlighted (selRel selTab : gset string) (edge : Edge)
    : Edge :=
  if upToDate selRel selTab edge then edge
  else rebuildEdge edge (shouldBeHighlighted selRel selTab edge).

(** *** Connect gesture *)

(** A release whose source handle carries a dependency prefix. *)
Definition isDependencyGesture `{Collaborators} (params : Connection)
    : bool :=
  startsWith (c_sourceHandle params) TOP_SOURCE_HANDLE_ID_PREFIX
  || startsWith (c_sourceHandle params) BOTTOM_SOURCE_HANDLE_ID_PREFIX.

(** The endpoint fields the handler resolves. *)
Definition resolvedSourceField
    (getField : string -> string -> option DBField) (params : Connection)
    : option DBField :=
  getField (c_source params) (fieldIdOfHandle (c_sourceHandle params)).

Definition resolvedTargetField
    (getField : string -> string -> option DBField) (params : Connection)
    : option DBField :=
  getField (c_target params) (fieldIdOfHandle (c_targetHandle params)).

(** An invalid connect release: an endpoint field is missing, or the
    compatibility predicate rejects the two field types. *)
Definition connectInvalid `{Collaborators}
    (getField : string -> string -> option DBField)
    (databaseType : DatabaseType) (params : Connection) : bool :=
  match resolvedSourceField getField params,
        resolvedTargetField getField params with
  | Some sourceField, Some targetField =>
      negb (areFieldTypesCompatible (f_type sourceField) (f_type targetField)
                                    databaseType)
  | _, _ => true
  end.

Definition isDomainMutation `{Collaborators} (c : Call) : bool :=
  match c with
  | CreateRelationship _ _ _ _ | CreateDependency _ _ => true
  | _ => false
  end.

Definition isWarning `{Collaborators} (c : Call) : bool :=
  match c with Toast _ _ _ => true | _ => false end.

(** What the design document asks of a rejected gesture: no domain mutation
    and a user-facing warning. *)
Definition rejectedWithWarning `{Collaborators} (calls : list Call) : bool :=
  forallb (fun c => negb (isDomainMutation c)) calls
  && existsb isWarning calls.

Definition incompatibleToast `{Collaborators} : Call :=
  Toast "Field types are not compatible" "destructive"
        "Relationships can only be created between compatible field types".

(** *** Read-only mode *)

(** Calls that remove a domain entity. *)
Definition isRemovalCall `{Collaborators} (c : Call) : bool :=
  match c with
  | RemoveRelationships _ | RemoveDependencies _
  | RemoveArea _ | RemoveNote _
  | UpdateTablesState (UpdRemove _ _) _ => true
  | _ => false
  end.

Definition updateId (u : TableUpdate) : string :=
  match u with UFull t => t_id t | UPatch p => tp_id p end.

Definition notRemove (c : NodeChange) : bool := negb (nodeChangeIsRemove c).

(** *** Migration *)

Definition alreadyMigrated : MigrationResult :=
  {| success := true; message := "Already migrated";
     diagramsCount := 0; errors := [] |}.

(** *** Scheduled work *)

Definition isSaveTimer `{Collaborators} (tm : Timer) : bool :=
  match tm_task tm with TSaveDiagram _ => true | _ => false end.

Definition clearsHighlight `{Collaborators} (tm : Timer) : bool :=
  match tm_task tm with TClearHighlight => true | _ => false end.

(** The payloads of the writes issued to the backing store. *)
Definition saveCallsOf `{Collaborators} (cs : list Call)
    : list DiagramPayload :=
  omap (fun c => match c with SaveDiagram p => Some p | _ => None end) cs.

(** The calls a timer callback makes when it runs at time [now]. *)
Definition taskCalls `{Collaborators}
    (task : Task) (v : list Node) (now : nat) : list Call :=
  match task with
  | TSaveDiagram deps =>
      match diagramToSave deps (getNodeIn v) now with
      | Some payload => [SaveDiagram payload]
      | None => []
      end
  | TCheckParentAreas nodes => checkParentAreas nodes
  | TFitView duration => [FitView duration]
  | TUpdateOverlap nodes g pc sc =>
      updateOverlappingGraphOnChanges (getNodeIn v) nodes g pc sc
  | TClearHighlight => []
  end.

(** The calls made when the timers [l] fire in this order, the clock
    standing at [c] before the first. *)
Fixpoint firedCalls `{Collaborators}
    (v : list Node) (c : nat) (l : list Timer) : list Call :=
  match l with
  | [] => []
  | tm :: l' =>
      taskCalls (tm_task tm) v (Nat.max c (tm_due tm))
      ++ firedCalls v (Nat.max c (tm_due tm)) l'
  end.



(** What firing leaves alone. *)
Record sameRefs `{Collaborators} (s s' : Engine) : Prop := {
  sr_timers : timers s' = timers s;
  sr_handle : nextHandle s' = nextHandle s;
  sr_frames : frames s' = frames s;
  sr_saveRef : saveDiagramTimeoutRef s' = saveDiagramTimeoutRef s;
  sr_saveCleanup : saveCleanup s' = saveCleanup s;
  sr_overlap : overlapDebounce s' = overlapDebounce s;
  sr_raf : rafIdRef s' = rafIdRef s;
  sr_cursor : cursorPosition s' = cursorPosition s;
  sr_view : view s' = view s
}.

(** Invariant of the component's handles: a pending save timer is the one
    the ref points to and its effect has a cleanup registered; the ref never
    points to another task's timer; a pending frame callback is the one
    [rafIdRef] points to; handles are fresh and distinct. *)
Record wellFormed `{Collaborators} (st : Engine) : Prop := {
  wf_save : forall tm, tm ∈ timers st -> isSaveTimer tm = true ->
            saveDiagramTimeoutRef st = Some (tm_id tm)
            /\ saveCleanup st = true;
  wf_ref : forall tm, tm ∈ timers st ->
           saveDiagramTimeoutRef st = Some (tm_id tm) ->
           isSaveTimer tm = true;
  wf_ref_fresh : forall r, saveDiagramTimeoutRef st = Some r ->
                 (r < nextHandle st)%positive;
  wf_raf : forall cb, cb ∈ frames st -> rafIdRef st = Some cb.1;
  wf_fresh : forall tm, tm ∈ timers st ->
             (tm_id tm < nextHandle st)%positive;
  wf_nodup : NoDup (tm_id <$> timers st)
}.

(** The save effect arms its timer only for a loaded diagram. *)
Definition isLoaded `{Collaborators} (deps : SaveDeps) : bool :=
  opt_truthy str_truthy (sd_diagramId deps)
  && bool_decide (is_Some (sd_currentDiagram deps)).

Definition saveTimer `{Collaborators}
    (id : positive) (due : nat) (deps : SaveDeps) : Timer :=
  {| tm_id := id; tm_due := due; tm_task := TSaveDiagram deps |}.

(** A later mutation of a burst: [mu_gap] milliseconds after the previous
    one, with the view layer then showing [mu_view] and the save effect's
    dependencies then being [mu_deps]. *)
Record Mutation `{Collaborators} := {
  mu_gap : nat;
  mu_view : list Node;
  mu_deps : SaveDeps
}.









(** *** Parent-area reassignment *)

(** Whether the area resolved for a table differs from its current parent. *)
Definition parentChanged `{Collaborators}
    (areas : list Area) (t : DBTable) : bool :=
  negb (bool_decide (resolveParentArea areas t = t_parentAreaId t)).

(** The update one table of the domain model receives, given the visible
    tables whose parent changed. *)
Definition parentAreaUpdate `{Collaborators}
    (areas : list Area) (changed : list DBTable) (table : DBTable)
    : TableUpdate :=
  match List.find (fun t => bool_decide (t_id t = t_id table)) changed with
  | Some t =>
      UPatch {| tp_id := t_id table; tp_x := None; tp_y := None;
                tp_width := None;
                tp_parentAreaId := Some (resolveParentArea areas t) |}
  | None => UFull table
  end.

(** ** A concrete set of collaborators

    Used to evaluate the embedding on examples: a filter is the list of table
    ids it lets through, two field types are compatible when their ids agree,
    a table is 32 units high per row plus a header, and screen and flow
    coordinates coincide. *)
Definition sampleCollaborators : Collaborators :=
  {| DiagramFilter := list string;
     DatabaseType := string;
     filterTable := fun ref filter _ =>
       match filter with
       | Some ids => bool_decide (tr_id ref ∈ ids)
       | None => true
       end;
     defaultSchemas := fun _ => Some "public";
     areFieldTypesCompatible := fun a b _ => bool_decide (dt_id a = dt_id b);
     MIN_TABLE_SIZE := Num 224;
     calcTableHeight := fun t =>
       Num (32 + 32 * Z.of_nat (length (t_fields t)));
     screenToFlowPosition := fun p => p;
     findOverlappingTables := fun _ =>
       {| graph := ∅; lastUpdated := Num 0 |};
     findTableOverlapping := fun _ _ g => g;
     TOP_SOURCE_HANDLE_ID_PREFIX := "top_dep_";
     BOTTOM_SOURCE_HANDLE_ID_PREFIX := "bottom_dep_";
     TARGET_DEP_PREFIX := "target_dep_";
     LEFT_HANDLE_ID_PREFIX := "left_rel_";
     TARGET_ID_PREFIX := "target_rel_" |}.

Definition sampleTable (id : string) (x y : Z) (parent : option string)
    : DBTable :=
  {| t_id := id; t_schema := Some "public"; t_x := Num x; t_y := Num y;
     t_width := None;
     t_fields := [{| f_id := "f1";
                     f_type := {| dt_id := "int"; dt_name := "int" |} |}];
     t_isView := false; t_parentAreaId := parent |}.

Definition sampleArea (id : string) (x y w h : Z) : Area :=
  {| a_id := id; a_x := Num x; a_y := Num y;
     a_width := Num w; a_height := Num h |}.

Definition sampleEdge (id source target : string) (kind : EdgeKind)
    (selected animated : option bool) : Edge :=
  {| e_id := id; e_source := source; e_target := target;
     e_sourceHandle := None; e_targetHandle := None; e_type := kind;
     e_data := None; e_hidden := None;
     e_selected := selected; e_animated := animated; e_zIndex := None |}.

Definition sampleRelationship (id s sf t tf : string) : DBRelationship :=
  {| r_id := id; r_sourceTableId := s; r_sourceFieldId := sf;
     r_targetTableId := t; r_targetFieldId := tf;
     r_sourceCardinality := Many; r_targetCardinality := One |}.

(** *** A small diagram *)

Definition sampleField (id ty : string) : DBField :=
  {| f_id := id; f_type := {| dt_id := ty; dt_name := ty |} |}.

(** Fields of a diagram with tables [t1] (integer [f1], text [f2]) and [t2]
    (integer [f1]). *)
Definition sampleGetField (tableId fieldId : string) : option DBField :=
  if bool_decide (tableId = "t1" /\ fieldId = "f1")
  then Some (sampleField "f1" "int")
  else if bool_decide (tableId = "t1" /\ fieldId = "f2")
  then Some (sampleField "f2" "text")
  else if bool_decide (tableId = "t2" /\ fieldId = "f1")
  then Some (sampleField "f1" "int")
  else None.

Definition sampleConnection (sourceField targetField : string) : Connection :=
  {| c_source := "t1"; c_target := "t2";
     c_sourceHandle := Some ("left_rel_" +:+ sourceField);
     c_targetHandle := Some ("target_rel_0_" +:+ targetField) |}.

Definition sampleOptions (filter : option (list string))
    : @TableNodeOptions sampleCollaborators :=
  @Build_TableNodeOptions sampleCollaborators
    filter "postgresql" false (Some true) None false.

(** Table [t1] lies inside area [a1]; table [t2] lies outside of it. Neither
    has a parent area yet. *)
Definition sampleTables : list DBTable :=
  [sampleTable "t1" 10 10 None; sampleTable "t2" 600 600 None].

Definition sampleAreas : list Area := [sampleArea "a1" 0 0 500 500].

(** The table and area nodes the canvas projects from a diagram under a
    given filter. *)
Definition projectNodes (filter : option (list string))
    (tables : list DBTable) (areas : list Area) : list Node :=
  ((fun t => @tableToTableNode sampleCollaborators t (sampleOptions filter))
     <$> tables)
  ++ ((fun a => @areaToAreaNode sampleCollaborators a tables filter
                  "postgresql" false) <$> areas).

Definition sampleNodes (filter : option (list string)) : list Node :=
  projectNodes filter sampleTables sampleAreas.

(** A filtered diagram: [t1], a member of area [b1], has been dragged into
    area [a1]; [t3], a member of [a1], lies inside [b1]. The filter lets only
    [t1] through, which hides [t3] and, with it, area [a1]. *)
Definition filteredTables : list DBTable :=
  [sampleTable "t1" 10 10 (Some "b1");
   sampleTable "t3" 1010 1010 (Some "a1")].

Definition filteredAreas : list Area :=
  [sampleArea "a1" 0 0 500 500; sampleArea "b1" 1000 1000 1000 1000].

Definition filteredNodes : list Node :=
  projectNodes (Some ["t1"]) filteredTables filteredAreas.

Definition noHistory : UpdateOptions :=
  {| uo_updateHistory := Some false; uo_skipPersist := None |}.

Definition sampleDeps (tables : list DBTable)
    : @SaveDeps sampleCollaborators :=
  @Build_SaveDeps sampleCollaborators
    tables sampleAreas [] [] [] [] (Some "d1") "Shop" "postgresql"
    (Some {| cd_databaseEdition := None;
             cd_createdAt := ValidDate "2024-01-01T00:00:00.000Z" |}).

(** A node as the view layer holds it once it has measured it. *)
Definition measuredAs (node : Node) (w h : Z) : Node :=
  {| n_id := n_id node; n_type := n_type node;
     n_position := n_position node; n_data := n_data node;
     n_width := n_width node; n_height := n_height node;
     n_zIndex := n_zIndex node; n_hidden := n_hidden node;
     n_selected := n_selected node;
     n_measured := Some {| m_width := Some (Num w);
                           m_height := Some (Num h) |} |}.

(** A second mutation 100 ms after the first: [t2] has been removed, and the
    view layer shows [t1] dragged to (50, 60) and measured 300 by 120, and
    area [a1] moved to (5, 5) and resized to 640 by 480. *)
Definition sampleMutation : @Mutation sampleCollaborators :=
  @Build_Mutation sampleCollaborators
    100
    [measuredAs
       (@tableToTableNode sampleCollaborators
          (sampleTable "t1" 50 60 None) (sampleOptions None))
       300 120;
     measuredAs
       (@areaToAreaNode sampleCollaborators
          (sampleArea "a1" 5 5 500 500) [] None "postgresql" false)
       640 480]
    (sampleDeps [sampleTable "t1" 10 10 None]).


(** A legacy database with one diagram (one table, whose field type is still
    a bare string) and an API that rejects every upload. *)
Definition sampleLegacyDB : LegacyDB :=
  {| db_diagrams := inr [[("id", JStr "d1"); ("name", JStr "Shop")]];
     db_tables := fun _ =>
       inr [[("id", JStr "t1"); ("diagramId", JStr "d1");
             ("fields", JArr [JObj [("id", JStr "f1");
                                    ("type", JStr "int")]])]];
     db_relationships := fun _ => inr [];
     db_dependencies := fun _ => inr [];
     db_areas := fun _ => inr [];
     db_custom_types := fun _ => inr [];
     db_notes := fun _ => inr [];
     db_diagram_filters := fun _ => inr [];
     db_config := inr [[("id", JNum (Num 1));
                        ("defaultDiagramId", JStr "d1")]] |}.

Definition failingApi : VertexApi :=
  {| api_saveDiagram := fun _ => Some "Failed to save diagram: 500 - ";
     api_updateConfig := fun _ => Some "Failed to update config" |}.

(** Closing a decidable statement about concrete data by evaluation. *)
Ltac by_evaluation := apply (bool_decide_unpack _); vm_compute; exact I.

(** ** Further parts of the canvas *)

#[global] Instance Position_eq_dec : EqDecision Position.
Proof. solve_decision. Defined.
#[global] Instance Measured_eq_dec : EqDecision Measured.
Proof. solve_decision. Defined.
#[global] Instance TableNodeData_eq_dec : EqDecision TableNodeData.
Proof. solve_decision. Defined.
#[global] Instance NodeData_eq_dec : EqDecision NodeData.
Proof. solve_decision. Defined.
#[global] Instance Node_eq_dec : EqDecision Node.
Proof. solve_decision. Defined.

(** *** Node projection effect *)

(** [{ ...node, data: { ...node.data, isOverlapping, highlightOverlappingTables,
    hasHighlightedCustomType } }] *)
Definition withTableFlags (node : Node)
    (isOverlapping highlightOverlappingTables hasHighlightedCustomType : bool)
    : Node :=
  {| n_id := n_id node; n_type := n_type node;
     n_position := n_position node;
     n_data :=
       match n_data node with
       | DTable d =>
           DTable {| td_table := td_table d;
                     td_isOverlapping := isOverlapping;
                     td_isRelationshipCreatingTarget :=
                       td_isRelationshipCreatingTarget d;
                     td_highlightOverlappingTables :=
                       Some highlightOverlappingTables;
                     td_hasHighlightedCustomType :=
                       Some hasHighlightedCustomType |}
       | other => other
       end;
     n_width := n_width node; n_height := n_height node;
     n_zIndex := n_zIndex node; n_hidden := n_hidden node;
     n_selected := n_selected node; n_measured := n_measured node |}.

(** The inputs of the effect that projects the domain into nodes. *)
Record ProjectionInputs `{Collaborators} := {
  pi_tables : list DBTable;
  pi_areas : list Area;
  pi_notes : list Note;
  pi_overlapGraph : Graph;
  pi_filter : option DiagramFilter;
  pi_databaseType : DatabaseType;
  pi_filterLoading : bool;
  pi_showDBViews : option bool;
  pi_shouldForceShowTable : string -> bool;
  pi_highlightOverlappingTables : bool;
  pi_highlightedCustomType : option CustomType
}.

Definition projectTable `{Collaborators} (i : ProjectionInputs)
    (table : DBTable) : Node :=
  let isOverlapping :=
    (0 <? length (nullish (graph (pi_overlapGraph i) !! t_id table) []))%nat in
  let node :=
    tableToTableNode table
      {| o_filter := pi_filter i;
         o_databaseType := pi_databaseType i;
         o_filterLoading := pi_filterLoading i;
         o_showDBViews := pi_showDBViews i;
         o_forceShow := Some (pi_shouldForceShowTable i (t_id table));
         o_isRelationshipCreatingTarget := false |} in
  let hasHighlightedCustomType :=
    match pi_highlightedCustomType i with
    | Some highlightedCustomType =>
        existsb (fun field =>
                   bool_decide (dt_name (f_type field)
                                = ct_name highlightedCustomType))
                (t_fields table)
    | None => false
    end in
  withTableFlags node isOverlapping (pi_highlightOverlappingTables i)
                 hasHighlightedCustomType.

(** [n.type === 'temp-cursor' || n.type === 'create-relationship'] *)
Definition isEphemeralNode (n : Node) : bool :=
  bool_decide (n_type n = KTempCursor)
  || bool_decide (n_type n = KCreateRelationship).

Definition projectedNodes `{Collaborators} (i : ProjectionInputs)
    (prevNodes : list Node) : list Node :=
  (projectTable i <$> pi_tables i)
  ++ ((fun area => areaToAreaNode area (pi_tables i) (pi_filter i)
                     (pi_databaseType i) (pi_filterLoading i))
        <$> pi_areas i)
  ++ (noteToNoteNode <$> pi_notes i)
  ++ List.filter isEphemeralNode prevNodes.

(** The updater passed to [setNodes] by the projection effect; [equal] is
    deep equality. *)
Definition nodesUpdater `{Collaborators} (i : ProjectionInputs)
    (prevNodes : list Node) : StateUpdate (list Node) :=
  let newNodes := projectedNodes i prevNodes in
  if bool_decide (prevNodes = newNodes) then SamePrev else NewValue newNodes.

(** *** Relationship-creation target marking *)

Definition isCreatingTarget (node : Node) : bool :=
  match n_data node with
  | DTable d => nullish (td_isRelationshipCreatingTarget d) false
  | _ => false
  end.

Definition setCreatingTarget (node : Node) (b : bool) : Node :=
  {| n_id := n_id node; n_type := n_type node;
     n_position := n_position node;
     n_data :=
       match n_data node with
       | DTable d =>
           DTable {| td_table := td_table d;
                     td_isOverlapping := td_isOverlapping d;
                     td_isRelationshipCreatingTarget := Some b;
                     td_highlightOverlappingTables :=
                       td_highlightOverlappingTables d;
                     td_hasHighlightedCustomType :=
                       td_hasHighlightedCustomType d |}
       | other => other
       end;
     n_width := n_width node; n_height := n_height node;
     n_zIndex := n_zIndex node; n_hidden := n_hidden node;
     n_selected := n_selected node; n_measured := n_measured node |}.

(** One step of the [.map] callback of the surgical update;
    [sourceNodeId] is [tempFloatingEdge?.sourceNodeId]. *)
Definition markCreationTarget (sourceNodeId : option string)
    (node : Node) (hasChanges : bool) : Node * bool :=
  if negb (bool_decide (n_type node = KTable)) then (node, hasChanges)
  else
    let shouldBeTarget :=
      opt_truthy str_truthy sourceNodeId
      && negb (bool_decide (Some (n_id node) = sourceNodeId)) in
    if negb (bool_decide (shouldBeTarget = isCreatingTarget node))
    then (setCreatingTarget node shouldBeTarget, true)
    else (node, hasChanges).

Definition markCreationTargets (sourceNodeId : option string)
    (nds : list Node) : StateUpdate (list Node) :=
  let '(updatedNodes, hasChanges) :=
    map_st (markCreationTarget sourceNodeId) nds false in
  if hasChanges then NewValue updatedNodes else SamePrev.

(** *** Empty state under a filter *)

Definition allTablesHiddenByFilter `{Collaborators}
    (hasActiveFilter : bool) (tables : list DBTable)
    (filter : option DiagramFilter) (databaseType : DatabaseType)
    (filterLoading : bool) : bool :=
  if negb hasActiveFilter || Nat.eqb (length tables) 0 || filterLoading
  then false
  else
    let visibleTableCount :=
      length (List.filter
                (fun table =>
                   filterTable {| tr_id := t_id table;
                                  tr_schema := t_schema table |}
                               filter (defaultSchemas databaseType))
                tables) in
    Nat.eqb visibleTableCount 0.

(** *** Domain events *)

(** The events of the domain store the canvas reacts to; every other action
    is [OnOtherAction]. [width] is [event.data.table.width]. *)
Inductive ChartDBEvent :=
| OnAddTables (tables : list DBTable)
| OnRemoveTables (tableIds : list string)
| OnUpdateTable (id : string) (width : option number)
| OnAddField (tableId : string) (fields : list DBField)
| OnRemoveField (tableId : string) (fields : list DBField)
| OnLoadDiagram (tables : option (list DBTable))
| OnOtherAction.

(** What one event makes the consumer do: its calls, and the node whose
    [measured] the updater deferred with [setTimeout(..., 0)] replaces. *)
Record ConsumerEffect `{Collaborators} := {
  ce_calls : list Call;
  ce_deferred : option (string * Measured)
}.

Definition setMeasured (node : Node) (measured : Measured) : Node :=
  {| n_id := n_id node; n_type := n_type node;
     n_position := n_position node; n_data := n_data node;
     n_width := n_width node; n_height := n_height node;
     n_zIndex := n_zIndex node; n_hidden := n_hidden node;
     n_selected := n_selected node; n_measured := Some measured |}.

Definition withFields (t : DBTable) (fields : list DBField) : DBTable :=
  {| t_id := t_id t; t_schema := t_schema t; t_x := t_x t; t_y := t_y t;
     t_width := t_width t; t_fields := fields; t_isView := t_isView t;
     t_parentAreaId := t_parentAreaId t |}.

(** [nodes.filter((node) => !node.hidden && node.type === 'table')] *)
Definition visibleTableNodes (nodes : list Node) : list Node :=
  List.filter (fun node => negb (flag (n_hidden node))
                           && bool_decide (n_type node = KTable))
              nodes.

(** [eventConsumer]. [removeVertex] is the graph utility it imports. The
    source casts [getNode(id)] to a table node; the result is [None] where
    the code would go on with a node that is not there (it throws, or hands
    a collaborator [undefined]), or with the table data of a node that has
    none.

    [findTableOverlapping] is handed the graph object itself, and the
    [add_tables] loop hands the same object to every call. What a call
    returns is the collaborator's [findTableOverlapping]; what it leaves in
    the object it was handed is [graphAfterCall] (the graph unchanged, for a
    utility that does not mutate its argument). The loop threads both: the
    last value returned, and what the object holds. *)
Definition eventConsumer `{Collaborators}
    (removeVertex : Graph -> string -> Graph)
    (graphAfterCall : Node -> list Node -> Graph -> Graph)
    (getNode : string -> option Node) (nodes : list Node)
    (overlapGraph : Graph) (filter : option DiagramFilter)
    (databaseType : DatabaseType) (showDBViews : option bool)
    (event : ChartDBEvent) : option ConsumerEffect :=
  let fieldsChanged (tableId : string) (fields : list DBField) :=
    node ← getNode tableId;
    match n_data node with
    | DTable d =>
        let measured :=
          {| m_width := n_measured node ≫= m_width;
             m_height :=
               Some (calcTableHeight (withFields (td_table d) fields)) |} in
        Some {| ce_calls :=
                  [SetOverlapGraph
                     (findTableOverlapping (setMeasured node measured)
                        (visibleTableNodes nodes) overlapGraph)];
                ce_deferred := None |}
    | _ => None
    end in
  match event with
  | OnAddTables tables =>
      looped ←
        foldl (fun (acc : option (Graph * Graph)) table =>
                 state ← acc;
                 node ← getNode (t_id table);
                 Some (findTableOverlapping node (visibleTableNodes nodes)
                                            state.2,
                       graphAfterCall node (visibleTableNodes nodes)
                                      state.2))
              (Some (overlapGraph, overlapGraph)) tables;
      Some {| ce_calls := [SetOverlapGraph looped.1];
              ce_deferred := None |}
  | OnRemoveTables tableIds =>
      Some {| ce_calls :=
                [SetOverlapGraph (foldl removeVertex overlapGraph tableIds)];
              ce_deferred := None |}
  | OnUpdateTable id width =>
      if opt_truthy num_truthy width
      then
        node ← getNode id;
        let measured :=
          {| m_width := width; m_height := n_measured node ≫= m_height |} in
        Some {| ce_calls :=
                  [SetOverlapGraph
                     (findTableOverlapping (setMeasured node measured)
                        (visibleTableNodes nodes) overlapGraph)];
                ce_deferred := Some (id, measured) |}
      else Some {| ce_calls := []; ce_deferred := None |}
  | OnAddField tableId fields => fieldsChanged tableId fields
  | OnRemoveField tableId fields => fieldsChanged tableId fields
  | OnLoadDiagram tables =>
      let diagramTables := nullish tables [] in
      Some {| ce_calls :=
                [SetOverlapGraph
                   (findOverlappingTables
                      (List.filter
                         (fun table =>
                            filterTable {| tr_id := t_id table;
                                           tr_schema := t_schema table |}
                                        filter (defaultSchemas databaseType)
                            && (if flag showDBViews then true
                                else negb (t_isView table)))
                         diagramTables))];
              ce_deferred := None |}
  | OnOtherAction => Some {| ce_calls := []; ce_deferred := None |}
  end.

(** The updater the [update_table] branch defers:
    [prevNodes.map((n) => n.id === id ? { ...n, measured } : n)]. *)
Definition applyDeferred (deferred : string * Measured)
    (prevNodes : list Node) : list Node :=
  (fun n => if bool_decide (n_id n = deferred.1)
            then setMeasured n deferred.2 else n) <$> prevNodes.

(** ** The API client *)

(** What [fetch] resolves to; reading the body as text or as JSON may itself
    reject. *)
Record Response := {
  rs_ok : bool;
  rs_status : nat;
  rs_text : Res string;
  rs_json : Res JsVal
}.

(** [vertexApi.saveDiagram], given what the POST resolves or rejects to. *)
Definition vertexApi_saveDiagram (fetched : Res Response) : Res JsVal :=
  response ← fetched;
  if negb (rs_ok response)
  then errorData ← rs_text response;
       throw ("Failed to save diagram: " +:+ pretty (rs_status response)
              +:+ " - " +:+ errorData)
  else rs_json response.

(** [vertexApi.updateConfig] *)
Definition vertexApi_updateConfig (fetched : Res Response) : Res JsVal :=
  response ← fetched;
  if negb (rs_ok response) then throw "Failed to update config"
  else rs_json response.

(** [vertexApi.getDiagram] and [vertexApi.listDiagrams] *)
Definition vertexApi_getDiagram (fetched : Res Response) : Res JsVal :=
  response ← fetched;
  if negb (rs_ok response) then throw "Failed to fetch diagram"
  else rs_json response.

Definition vertexApi_listDiagrams (fetched : Res Response) : Res JsVal :=
  response ← fetched;
  if negb (rs_ok response) then throw "Failed to fetch diagrams"
  else rs_json response.

(** [vertexApi.deleteDiagram] *)
Definition vertexApi_deleteDiagram (fetched : Res Response) : Res unit :=
  response ← fetched;
  if negb (rs_ok response) then throw "Failed to delete diagram"
  else mret tt.

(** [vertexApi.getConfig]: the [try] catches a rejected fetch and the error
    thrown for a non-OK status; the body promise is returned without being
    awaited, so its rejection is the caller's. *)
Definition vertexApi_getConfig (fetched : Res Response) : Res JsVal :=
  match fetched with
  | inl _ => mret JNull
  | inr response =>
      if negb (rs_ok response)
      then (if Nat.eqb (rs_status response) 404 then mret JNull
            else mret JNull)
      else rs_json response
  end.

(** The client the migration talks to, over a server that maps each request
    body to what the POST resolves to. *)
Definition apiOver (diagrams config : JsVal -> Res Response) : VertexApi :=
  {| api_saveDiagram := fun body =>
       match vertexApi_saveDiagram (diagrams body) with
       | inl msg => Some msg
       | inr _ => None
       end;
     api_updateConfig := fun body =>
       match vertexApi_updateConfig (config body) with
       | inl msg => Some msg
       | inr _ => None
       end |}.

(** ** Migration wrapper *)

(** What the wrapper's [await Promise.race([migration, timeout])] yields:
    the migration's result, the 15 s timeout, or a rejection (with the
    message of the thrown [Error], or none for another value). *)
Inductive RaceOutcome :=
| RaceResolved (r : MigrationRun)
| RaceTimedOut
| RaceRejected (message : option string).

Record WrapperOutcome := {
  w_migrationComplete : bool;
  w_migrationError : option string;
  w_storage : gmap string string
}.

(** [haystack.includes(needle)] *)
Definition includes (haystack needle : string) : bool :=
  bool_decide (is_Some (String.index 0 needle haystack)).

(** [runMigration] of the wrapper's mount effect. [race] is consulted only
    when the flag is not yet set. *)
Definition runMigration (race : RaceOutcome)
    (localStorage : gmap string string) : WrapperOutcome :=
  if isMigrationComplete localStorage
  then {| w_migrationComplete := true; w_migrationError := None;
          w_storage := localStorage |}
  else
    match race with
    | RaceTimedOut =>
        {| w_migrationComplete := true;
           w_migrationError :=
             Some "Migration timeout: API may be unavailable. The app will continue with local storage only.";
           w_storage := <[MIGRATION_FLAG := "true"]> localStorage |}
    | RaceResolved r =>
        {| w_migrationComplete := true;
           w_migrationError :=
             if success (mr_result r) then None
             else if (0 <? length (errors (mr_result r)))%nat
             then Some ("Migration completed with errors: "
                        +:+ String.concat ", " (errors (mr_result r)))
             else None;
           w_storage := mr_storage r |}
    | RaceRejected message =>
        let isConnectionError :=
          match message with
          | Some m => includes m "Failed to fetch" || includes m "Network"
                      || includes m "CORS"
          | None => false
          end in
        {| w_migrationComplete := true;
           w_migrationError :=
             Some (if isConnectionError
                   then "Cannot connect to API. The app will continue with local storage only."
                   else nullish message "Unknown migration error");
           w_storage := localStorage |}
    end.

(** Mounting the wrapper over the migration routine. *)
Definition mountMigrationWrapper (db : LegacyDB) (api : VertexApi)
    (timedOut : bool) (localStorage : gmap string string) : WrapperOutcome :=
  runMigration
    (if timedOut then RaceTimedOut
     else RaceResolved (migrateIndexedDBToAPI db api localStorage))
    localStorage.

(** ** Vocabulary of the further properties *)

(** Whether a character occurs in a string. *)
Fixpoint containsChar (c : ascii) (s : string) : bool :=
  match s with
  | EmptyString => false
  | String a s' => Ascii.eqb a c || containsChar c s'
  end.

(** The counter keys of the regeneration effect. *)
Definition relationshipKey (r : DBRelationship) : string :=
  r_targetTableId r +:+ r_targetFieldId r.

(** How many of the first [i] elements of [l] have counter key [k]. *)
Definition earlierWithKey {A} (key : A -> string) (l : list A) (i : nat)
    (k : string) : nat :=
  length (List.filter (fun x => bool_decide (key x = k)) (take i l)).

Definition countWithKey {A} (key : A -> string) (l : list A) (k : string)
    : nat :=
  length (List.filter (fun x => bool_decide (key x = k)) l).

(** What reading the counter of key [k] yields once it has been incremented
    [n] times since it was set to 0. *)
Definition handleIndex (k : string) (n : nat) : number :=
  if bool_decide (k = PROTO_KEY) then NaN else Num (Z.of_nat n).

(** Nodes of type [table] carry table data. *)
Definition tableNodesTyped (nodes : list Node) : Prop :=
  forall n, n ∈ nodes -> n_type n = KTable -> exists d, n_data n = DTable d.

(** What the graph object holds after [findTableOverlapping] has been
    called on it for each of [calledFor], in order. *)
Definition graphAfterCalls
    (graphAfterCall : Node -> list Node -> Graph -> Graph)
    (visible : list Node) (overlapGraph : Graph) (calledFor : list Node)
    : Graph :=
  foldl (fun g node => graphAfterCall node visible g) overlapGraph calledFor.

(** A stand-in for [findTableOverlapping] that records the node it is
    called for as a vertex of the graph it returns, and leaves the graph it
    was handed alone. *)
Definition recordingCollaborators : Collaborators :=
  {| DiagramFilter := list string;
     DatabaseType := string;
     filterTable := @filterTable sampleCollaborators;
     defaultSchemas := @defaultSchemas sampleCollaborators;
     areFieldTypesCompatible := @areFieldTypesCompatible sampleCollaborators;
     MIN_TABLE_SIZE := @MIN_TABLE_SIZE sampleCollaborators;
     calcTableHeight := @calcTableHeight sampleCollaborators;
     screenToFlowPosition := fun p => p;
     findOverlappingTables := @findOverlappingTables sampleCollaborators;
     findTableOverlapping := fun node _ g =>
       {| graph := <[n_id node := []]> (graph g);
          lastUpdated := lastUpdated g |};
     TOP_SOURCE_HANDLE_ID_PREFIX := "top_dep_";
     BOTTOM_SOURCE_HANDLE_ID_PREFIX := "bottom_dep_";
     TARGET_DEP_PREFIX := "target_dep_";
     LEFT_HANDLE_ID_PREFIX := "left_rel_";
     TARGET_ID_PREFIX := "target_rel_" |}.

(** Numbers on which the model's arithmetic is the code's: [NaN], and the
    integers doubles represent exactly. *)
Definition safeNumber (n : number) : bool :=
  match n with Num z => (Z.abs z <=? 2 ^ 53)%Z | NaN => true end.

(** Shifting [start] by the displacement from [from] to [to] stays within
    those numbers at every step. *)
Definition exactShift (start from to : number) : bool :=
  safeNumber start && safeNumber from && safeNumber to
  && safeNumber (num_sub to from)
  && safeNumber (num_add start (num_sub to from)).

(** A batch in which every change is the position of a node still being
    dragged. *)
Definition isDraggingPosition (c : NodeChange) : bool :=
  match c with
  | NCPosition _ _ dragging => flag dragging
  | _ => false
  end.

(** Calls that commit something to the domain model or schedule a save. *)
Definition isDomainCommit `{Collaborators} (c : Call) : bool :=
  match c with
  | UpdateOverlappingGraphDebounced _ _ | OnNodesChange _ | OnEdgesChange _
  | FitView _ | SetOverlapGraph _ | Toast _ _ _ => false
  | _ => true
  end.

(** A diagram in which table [t1] is a member of area [a1], and the drag of
    that area to (100, 50). *)
Definition memberTables : list DBTable :=
  [sampleTable "t1" 10 10 (Some "a1"); sampleTable "t2" 600 600 None].

Definition memberNodes : list Node :=
  projectNodes None memberTables sampleAreas.

Definition areaDrag : NodeChange :=
  NCPosition "a1" (Some {| px := Num 100; py := Num 50 |}) (Some true).

(** The frame throttle: what a run of mouse moves does to the engine. *)
Definition mouseMoves `{Collaborators}
    (st : Engine) (clients : list Position) : Engine :=
  foldl (fun s client => handleMouseMove true client s) st clients.

(** The geometry-free part of an entity. *)
Definition sameTableContent (t t' : DBTable) : Prop :=
  t_id t' = t_id t /\ t_schema t' = t_schema t /\ t_fields t' = t_fields t
  /\ t_isView t' = t_isView t /\ t_parentAreaId t' = t_parentAreaId t.

(** The save effect's dependencies after the diagram has been unloaded. *)
Definition unloadedDeps : @SaveDeps sampleCollaborators :=
  @Build_SaveDeps sampleCollaborators
    [] [] [] [] [] [] None "" "postgresql" None.

(** A server that answers every POST with status 500 and the body [boom]. *)
Definition rejectingServer (body : JsVal) : Res Response :=
  inr {| rs_ok := false; rs_status := 500; rs_text := inr "boom";
         rs_json := inl "Unexpected end of JSON input" |}.

(** The message recorded for a diagram that could not be migrated. *)
Definition diagramFailure (diagram : Obj) (errorMsg : string) : string :=
  "Failed to migrate diagram " +:+ dquote
    +:+ js_to_string (obj_get diagram "name") +:+ dquote +:+ ": "
    +:+ errorMsg.

(** How a field of the legacy store and its migrated form relate: the
    type is an object, and every other property is as it was. *)
Definition fieldMigrated (field field' : JsVal) : Prop :=
  exists o o',
    field = JObj o /\ field' = JObj o'
    /\ (forall k, k <> "type" -> obj_get o' k = obj_get o k)
    /\ (forall s, obj_get o "type" = JStr s ->
          obj_get o' "type" = JObj [("id", JStr s); ("name", JStr s)])
    /\ (js_truthy (obj_get o "type") = false ->
        (forall s, obj_get o "type" <> JStr s) ->
        obj_get o' "type"
        = JObj [("id", JStr "string"); ("name", JStr "string")])
    /\ (forall ty, obj_get o "type" = JObj ty ->
          obj_get o' "type" = JObj ty).

Definition isJObj (v : JsVal) : bool :=
  match v with JObj _ => true | _ => false end.

(* ===================================================================== *)
(** * Part II: properties *)
(* ===================================================================== *)

(** ** View projection *)

Section ViewProjection.
Context `{Collaborators}.

(** C1. The node projected from a table is hidden exactly when the table is
    not forced visible and it fails the filter predicate, or the filter is
    still loading, or it is a view while views are not shown; a table whose
    force-show flag is set is never hidden. *)
Theorem tableToTableNode_hidden_iff (table : DBTable) (o : TableNodeOptions) :
  let passes :=
    filterTable {| tr_id := t_id table; tr_schema := t_schema table |}
                (o_filter o) (defaultSchemas (o_databaseType o)) in
  let hidden := flag (n_hidden (tableToTableNode table o)) in
  (hidden = true <->
     flag (o_forceShow o) = false
     /\ (passes = false \/ o_filterLoading o = true
         \/ (t_isView table = true /\ flag (o_showDBViews o) = false)))
  /\ (flag (o_forceShow o) = true -> hidden = false)
  /\ n_hidden (tableToTableNode table o)
     = Some (negb (flag (o_forceShow o))
             && (negb passes || o_filterLoading o
                 || (negb (flag (o_showDBViews o)) && t_isView table))).
Proof.
  cbn zeta.
  set (passes := filterTable _ _ _).
  assert (Heq : n_hidden (tableToTableNode table o)
                = Some (negb (flag (o_forceShow o))
                        && (negb passes || o_filterLoading o
                            || (negb (flag (o_showDBViews o))
                                && t_isView table)))).
  { unfold tableToTableNode; cbn [n_hidden]. fold passes.
    by destruct (flag (o_forceShow o)). }
  rewrite Heq. change (flag (Some ?b)) with b.
  destruct (flag (o_forceShow o)) eqn:Hforce; cbn [negb andb].
  - split; [|split]; [|reflexivity..].
    split; [discriminate | intros [Hf _]; discriminate].
  - split; [|split]; [|discriminate|reflexivity].
    rewrite !orb_true_iff, andb_true_iff, !negb_true_iff.
    split.
    + intros [[Hp | Hl] | [Hv Hi]]; (split; [reflexivity|]); auto.
    + intros [_ [Hp | [Hl | [Hi Hv]]]]; auto.
Qed.

End ViewProjection.

(** ** Edge reconciliation *)

Section EdgeRegeneration.
Context `{Collaborators}.

Lemma map_st_elem {S A B} (f : A -> S -> B * S) (l : list A) (s : S) (b : B) :
  b ∈ (map_st f l s).1 -> exists a s', a ∈ l /\ b = (f a s').1.
Proof.
  revert s. induction l as [|a l IH]; intros s; cbn.
  - intros Hb. inversion Hb.
  - destruct (f a s) as [b0 s1] eqn:Hf.
    destruct (map_st f l s1) as [bs s2] eqn:Hm. cbn.
    intros Hb. apply elem_of_cons in Hb as [-> | Hb].
    + exists a, s. split; [left | by rewrite Hf].
    + specialize (IH s1). rewrite Hm in IH. cbn in IH.
      destruct (IH Hb) as (a' & s' & Ha' & ->).
      exists a', s'. split; [by right | done].
Qed.

Lemma prevEdgeStates_snoc (l : list Edge) (x : Edge) :
  prevEdgeStates (l ++ [x])
  = <[e_id x := (e_selected x, e_animated x)]> (prevEdgeStates l).
Proof. unfold prevEdgeStates. by rewrite foldl_app. Qed.

Lemma prevEdgeStates_None (l : list Edge) (id : string) :
  (forall p, p ∈ l -> e_id p <> id) -> prevEdgeStates l !! id = None.
Proof.
  induction l as [|x l IH] using rev_ind; intros Hno.
  - apply lookup_empty.
  - rewrite prevEdgeStates_snoc, lookup_insert_ne.
    + apply IH. intros p Hp. apply Hno, elem_of_app. by left.
    + apply Hno, elem_of_app. right. by apply list_elem_of_singleton.
Qed.

Lemma prevEdgeStates_Some (l : list Edge) (p : Edge) :
  NoDup (e_id <$> l) -> p ∈ l ->
  prevEdgeStates l !! e_id p = Some (e_selected p, e_animated p).
Proof.
  induction l as [|x l IH] using rev_ind; intros Hnd Hp.
  - inversion Hp.
  - rewrite prevEdgeStates_snoc.
    rewrite fmap_app in Hnd. apply NoDup_app in Hnd as (Hl & Hx & _).
    apply elem_of_app in Hp as [Hp | Hp].
    + rewrite lookup_insert_ne; [by apply IH|].
      intros Heq. apply (Hx (e_id p)).
      * apply list_elem_of_fmap. by exists p.
      * cbn. rewrite Heq. by left.
    + apply list_elem_of_singleton in Hp as ->. by rewrite lookup_insert_eq.
Qed.

Lemma regenerateEdges_unfold rels deps show prev :
  regenerateEdges rels deps show prev
  = (map_st (relationshipEdge (prevEdgeStates prev)) rels
            (initTargetIndexes rels)).1
    ++ (map_st (dependencyEdge (prevEdgeStates prev) show) deps
               (initTargetDepIndexes deps)).1.
Proof. reflexivity. Qed.

Lemma regenerateEdges_elem rels deps show prev (e : Edge) :
  e ∈ regenerateEdges rels deps show prev ->
  e_selected e
    = Some (nullish (prevEdgeStates prev !! e_id e ≫= fst) false)
  /\ e_animated e
    = Some (nullish (prevEdgeStates prev !! e_id e ≫= snd) false).
Proof.
  rewrite regenerateEdges_unfold. intros He.
  apply elem_of_app in He as [He | He];
    apply map_st_elem in He as (a & s' & _ & ->).
  - unfold relationshipEdge. destruct (post_incr _ s'). cbn. done.
  - unfold dependencyEdge. destruct (post_incr _ s'). cbn. done.
Qed.

Lemma map_st_fmap {S A B C} (f : A -> S -> B * S) (g : B -> C) (h : A -> C)
    (l : list A) (s : S) :
  (forall a s', g (f a s').1 = h a) ->
  g <$> (map_st f l s).1 = h <$> l.
Proof.
  intros Hgh. revert s. induction l as [|a l IH]; intros s; cbn; [done|].
  specialize (Hgh a s). destruct (f a s) as [b s1].
  specialize (IH s1). destruct (map_st f l s1) as [bs s2]. cbn in *.
  by rewrite Hgh, IH.
Qed.

(** The regenerated list has one edge per relationship, then one per
    dependency, under the ids of the domain entities; none of them is a
    temp-floating edge. *)
Lemma regenerateEdges_ids rels deps show prev :
  e_id <$> regenerateEdges rels deps show prev
  = (r_id <$> rels) ++ (d_id <$> deps).
Proof.
  rewrite regenerateEdges_unfold, fmap_app. f_equal; apply map_st_fmap.
  - intros a s'. unfold relationshipEdge. by destruct (post_incr _ s').
  - intros a s'. unfold dependencyEdge. by destruct (post_incr _ s').
Qed.

Lemma regenerateEdges_no_temp rels deps show prev :
  Forall (fun e => e_type e <> ETempFloating)
         (regenerateEdges rels deps show prev).
Proof.
  apply Forall_forall. intros e He. rewrite regenerateEdges_unfold in He.
  apply elem_of_app in He as [He | He];
    apply map_st_elem in He as (a & s' & _ & ->).
  - unfold relationshipEdge. by destruct (post_incr _ s').
  - unfold dependencyEdge. by destruct (post_incr _ s').
Qed.

(** C2. When the edge list is regenerated, an edge whose id matches an edge
    of the previous list keeps that edge's selected and animated flags, and
    an edge whose id has no previous entry gets selected = false and
    animated = false. Edge ids are unique within the previous list. *)
Theorem regenerateEdges_preserves_flags
    (relationships : list DBRelationship) (dependencies : list DBDependency)
    (showDBViews : option bool) (prevEdges : list Edge) (e : Edge) :
  NoDup (e_id <$> prevEdges) ->
  e ∈ regenerateEdges relationships dependencies showDBViews prevEdges ->
  (forall p, p ∈ prevEdges -> e_id p = e_id e ->
     e_selected e = Some (flag (e_selected p))
     /\ e_animated e = Some (flag (e_animated p)))
  /\ ((forall p, p ∈ prevEdges -> e_id p <> e_id e) ->
      e_selected e = Some false /\ e_animated e = Some false).
Proof.
  intros Hnd He. apply regenerateEdges_elem in He as [Hs Ha].
  split.
  - intros p Hp Hid. rewrite Hs, Ha, <- Hid.
    by rewrite (prevEdgeStates_Some _ _ Hnd Hp).
  - intros Hno. rewrite Hs, Ha.
    by rewrite (prevEdgeStates_None _ _ Hno).
Qed.

End EdgeRegeneration.

Lemma regenerateEdges_preserves_flags_witness :
  let prevEdges :=
    [sampleEdge "r1" "t1" "t2" ERelationship (Some true) (Some true)] in
  let relationships :=
    [sampleRelationship "r1" "t1" "f1" "t2" "f1";
     sampleRelationship "r2" "t1" "f1" "t2" "f1"] in
  let e :=
    default (sampleEdge "" "" "" ETempFloating None None)
      (head (@regenerateEdges sampleCollaborators relationships []
                              (Some true) prevEdges)) in
  (forall p, p ∈ prevEdges -> e_id p = e_id e ->
     e_selected e = Some (flag (e_selected p))
     /\ e_animated e = Some (flag (e_animated p)))
  /\ ((forall p, p ∈ prevEdges -> e_id p <> e_id e) ->
      e_selected e = Some false /\ e_animated e = Some false).
Proof.
  cbn zeta.
  apply (@regenerateEdges_preserves_flags sampleCollaborators
           [sampleRelationship "r1" "t1" "f1" "t2" "f1";
            sampleRelationship "r2" "t1" "f1" "t2" "f1"] [] (Some true)).
  - by_evaluation.
  - by_evaluation.
Defined.

Section HighlightPropagation.

Implicit Types (selRel selTab : gset string) (e edge : Edge).

Lemma highlightEdge_unfold selRel selTab edge b :
  highlightEdge selRel selTab edge b
  = (highlighted selRel selTab edge,
     if upToDate selRel selTab edge then b else true).
Proof.
  unfold highlightEdge, highlighted, upToDate. cbn zeta.
  destruct (_ && _ && _); [done|]. by destruct (e_type edge).
Qed.

Lemma map_st_highlightEdge selRel selTab (l : list Edge) b :
  map_st (highlightEdge selRel selTab) l b
  = (highlighted selRel selTab <$> l,
     b || negb (forallb (upToDate selRel selTab) l)).
Proof.
  revert b. induction l as [|x l IH]; intros b; cbn.
  - by rewrite orb_false_r.
  - rewrite highlightEdge_unfold, IH. f_equal.
    destruct (upToDate selRel selTab x), b; cbn; done.
Qed.

Lemma highlighted_shape selRel selTab edge :
  let e' := highlighted selRel selTab edge in
  let should := shouldBeHighlighted selRel selTab edge in
  e_id e' = e_id edge /\ e_source e' = e_source edge
  /\ e_target e' = e_target edge /\ e_type e' = e_type edge
  /\ e_selected e' = e_selected edge
  /\ currentHighlighted e' = should
  /\ nullish (e_animated e') false = should
  /\ nullish (e_zIndex e') 0%Z = zIndexFor should.
Proof.
  cbn zeta. unfold highlighted.
  destruct (upToDate selRel selTab edge) eqn:Hup.
  - unfold upToDate in Hup. cbn zeta in Hup.
    apply andb_true_iff in Hup as [Hup Hz].
    apply andb_true_iff in Hup as [Hh Ha].
    apply bool_decide_eq_true in Hh, Ha, Hz. done.
  - done.
Qed.

Lemma shouldBeHighlighted_iff (ids tableIds : list string) edge :
  shouldBeHighlighted (list_to_set ids) (list_to_set tableIds) edge = true
  <-> e_id edge ∈ ids \/ e_source edge ∈ tableIds \/ e_target edge ∈ tableIds.
Proof.
  unfold shouldBeHighlighted.
  rewrite !orb_true_iff, !bool_decide_eq_true, !elem_of_list_to_set.
  tauto.
Qed.

(** The recomputation on an arbitrary edge array: what it does to the
    relationship and dependency edges. A temp-floating edge is skipped. *)
Lemma highlightEdges_domain_edges
    (selectedRelationshipIds selectedTableIds : list string)
    (prevEdges : list Edge) :
  let update :=
    highlightEdges selectedRelationshipIds selectedTableIds prevEdges in
  let selectedBy e :=
    e_id e ∈ selectedRelationshipIds \/ e_source e ∈ selectedTableIds
    \/ e_target e ∈ selectedTableIds in
  let settled e (h : bool) :=
    currentHighlighted e = h /\ nullish (e_animated e) false = h
    /\ nullish (e_zIndex e) 0%Z
       = (if h then HIGHLIGHTED_EDGE_Z_INDEX else DEFAULT_EDGE_Z_INDEX) in
  (forall e, e ∈ prevEdges -> e_type e <> ETempFloating ->
     exists e' h, e' ∈ commit prevEdges update
       /\ e_id e' = e_id e /\ e_source e' = e_source e
       /\ e_target e' = e_target e
       /\ (h = true <-> selectedBy e) /\ settled e' h)
  /\ ((forall e h, e ∈ prevEdges -> e_type e <> ETempFloating ->
         (h = true <-> selectedBy e) -> settled e h) ->
      update = SamePrev).
Proof.
  cbn zeta. unfold highlightEdges. cbn zeta.
  set (selTab := list_to_set selectedTableIds : gset string).
  set (selRel := list_to_set selectedRelationshipIds : gset string).
  set (kept := List.filter _ prevEdges).
  rewrite map_st_highlightEdge. cbn [orb].
  assert (Hkept : forall e, e ∈ prevEdges -> e_type e <> ETempFloating ->
                            e ∈ kept).
  { intros e He Hty. apply list_elem_of_In, filter_In.
    split; [by apply list_elem_of_In|].
    apply negb_true_iff, bool_decide_eq_false. done. }
  split.
  - intros e He Hty. specialize (Hkept e He Hty).
    exists (highlighted selRel selTab e), (shouldBeHighlighted selRel selTab e).
    pose proof (highlighted_shape selRel selTab e) as Hsh. cbn zeta in Hsh.
    destruct Hsh as (Hid & Hsrc & Htgt & _ & _ & Hh & Ha & Hz).
    split; [|split; [|split; [|split; [|split]]]]; try done.
    + destruct (forallb (upToDate selRel selTab) kept) eqn:Hall;
        cbn [negb commit].
      * rewrite forallb_forall in Hall.
        unfold highlighted.
        rewrite (Hall e); [done|]. by apply list_elem_of_In.
      * apply list_elem_of_fmap. by exists e.
    + apply shouldBeHighlighted_iff.
  - intros Hsettled.
    assert (Hall : forallb (upToDate selRel selTab) kept = true).
    { apply forallb_forall. intros e He.
      apply filter_In in He as [He Hty].
      apply negb_true_iff, bool_decide_eq_false in Hty.
      apply list_elem_of_In in He.
      destruct (Hsettled e (shouldBeHighlighted selRel selTab e) He Hty)
        as (Hh & Ha & Hz); [apply shouldBeHighlighted_iff|].
      unfold upToDate. cbn zeta.
      rewrite !andb_true_iff, !bool_decide_eq_true. done. }
    by rewrite Hall.
Qed.

Lemma filter_keeps_all {A} (P : A -> bool) (l : list A) :
  (forall x, x ∈ l -> P x = true) -> List.filter P l = l.
Proof.
  induction l as [|x l IH]; intros Hall; cbn; [done|].
  rewrite (Hall x) by left. f_equal. apply IH. intros y Hy. apply Hall.
  by right.
Qed.

(** The edge state never holds a temp-floating edge: regeneration produces
    relationship and dependency edges only, and the highlight recomputation
    keeps it that way. *)
Lemma highlightEdges_no_temp
    (selectedRelationshipIds selectedTableIds : list string)
    (prevEdges : list Edge) :
  Forall (fun e => e_type e <> ETempFloating) prevEdges ->
  Forall (fun e => e_type e <> ETempFloating)
         (commit prevEdges
            (highlightEdges selectedRelationshipIds selectedTableIds
                            prevEdges)).
Proof.
  intros Hprev. unfold highlightEdges. cbn zeta.
  rewrite map_st_highlightEdge. cbn [orb].
  destruct (negb _); cbn [commit]; [|done].
  apply Forall_fmap, Forall_forall. intros e He.
  apply list_elem_of_In, filter_In in He as [He _].
  apply list_elem_of_In in He. rewrite Forall_forall in Hprev.
  pose proof (highlighted_shape (list_to_set selectedRelationshipIds)
                (list_to_set selectedTableIds) e) as Hsh.
  cbn zeta in Hsh. destruct Hsh as (_ & _ & _ & Hty & _). cbn.
  rewrite Hty. by apply Hprev.
Qed.

(** C3. For every edge of the edge state, the highlight recomputation
    leaves the edge highlighted exactly when its id is among the selected
    edge ids or its source or target table is among the selected node ids;
    highlighted edges are animated and carry the raised z-order, all others
    are not animated and carry the base z-order; the edges keep their
    identity and order; and when no edge's highlight, animation or z-order
    differs from the computed one, the updater returns the previous array
    itself. The edge state holds relationship and dependency edges only. *)
Theorem highlightEdges_spec
    (selectedRelationshipIds selectedTableIds : list string)
    (prevEdges : list Edge) :
  Forall (fun e => e_type e <> ETempFloating) prevEdges ->
  let update :=
    highlightEdges selectedRelationshipIds selectedTableIds prevEdges in
  let selectedBy e :=
    e_id e ∈ selectedRelationshipIds \/ e_source e ∈ selectedTableIds
    \/ e_target e ∈ selectedTableIds in
  let settled e (h : bool) :=
    currentHighlighted e = h /\ nullish (e_animated e) false = h
    /\ nullish (e_zIndex e) 0%Z
       = (if h then HIGHLIGHTED_EDGE_Z_INDEX else DEFAULT_EDGE_Z_INDEX) in
  (forall e, e ∈ prevEdges ->
     exists e' h, e' ∈ commit prevEdges update
       /\ e_id e' = e_id e /\ e_source e' = e_source e
       /\ e_target e' = e_target e
       /\ (h = true <-> selectedBy e) /\ settled e' h)
  /\ (forall e', e' ∈ commit prevEdges update ->
        forall h, (h = true <-> selectedBy e') -> settled e' h)
  /\ e_id <$> commit prevEdges update = e_id <$> prevEdges
  /\ ((forall e h, e ∈ prevEdges ->
         (h = true <-> selectedBy e) -> settled e h) ->
      update = SamePrev).
Proof.
  intros Hprev. cbn zeta. rewrite Forall_forall in Hprev.
  destruct (highlightEdges_domain_edges selectedRelationshipIds
              selectedTableIds prevEdges) as [Hmark Hsame].
  cbn zeta in Hmark, Hsame.
  assert (Hshape : commit prevEdges
                     (highlightEdges selectedRelationshipIds selectedTableIds
                                     prevEdges)
                   = highlighted (list_to_set selectedRelationshipIds)
                                 (list_to_set selectedTableIds)
                       <$> prevEdges).
  { unfold highlightEdges. cbn zeta. rewrite map_st_highlightEdge.
    rewrite filter_keeps_all.
    2:{ intros e He. apply negb_true_iff, bool_decide_eq_false.
        by apply Hprev. }
    cbn [orb]. destruct (forallb _ prevEdges) eqn:Hall; cbn [negb commit].
    - rewrite forallb_forall in Hall. symmetry.
      rewrite <- (list_fmap_id prevEdges) at 2.
      apply list_fmap_ext. intros i e He. unfold highlighted.
      rewrite Hall; [done|]. apply list_elem_of_In.
      by eapply list_elem_of_lookup_2.
    - done. }
  split; [|split; [|split]].
  - intros e He. by apply Hmark, Hprev.
  - intros e' He' h Hh. rewrite Hshape in He'.
    apply list_elem_of_fmap in He' as (e & -> & He).
    pose proof (highlighted_shape (list_to_set selectedRelationshipIds)
                  (list_to_set selectedTableIds) e) as Hsh.
    cbn zeta in Hsh.
    destruct Hsh as (Hid & Hsrc & Htgt & _ & _ & Hhl & Ha & Hz).
    rewrite Hid, Hsrc, Htgt in Hh.
    assert (h = shouldBeHighlighted (list_to_set selectedRelationshipIds)
                  (list_to_set selectedTableIds) e) as ->.
    { apply eq_true_iff_eq. rewrite Hh. symmetry.
      apply shouldBeHighlighted_iff. }
    done.
  - rewrite Hshape, <- list_fmap_compose. apply list_fmap_ext.
    intros i e _. cbn.
    by destruct (highlighted_shape (list_to_set selectedRelationshipIds)
                   (list_to_set selectedTableIds) e) as (Hid & _).
  - intros Hsettled. apply Hsame. intros e h He _. by apply Hsettled.
Qed.

End HighlightPropagation.

Lemma highlightEdges_spec_witness :
  let prev := [sampleEdge "r1" "t1" "t2" ERelationship None None;
               sampleEdge "r2" "t3" "t4" EDependency None None] in
  let result := commit prev (highlightEdges [] ["t1"] prev) in
  (forall e', e' ∈ result ->
     forall h, (h = true <-> e_id e' ∈ @nil string \/ e_source e' ∈ ["t1"]
                             \/ e_target e' ∈ ["t1"]) ->
     currentHighlighted e' = h /\ nullish (e_animated e') false = h
     /\ nullish (e_zIndex e') 0%Z
        = (if h then HIGHLIGHTED_EDGE_Z_INDEX else DEFAULT_EDGE_Z_INDEX))
  /\ e_id <$> result = ["r1"; "r2"].
Proof.
  cbn zeta.
  refine (let H := highlightEdges_spec [] ["t1"]
                     [sampleEdge "r1" "t1" "t2" ERelationship None None;
                      sampleEdge "r2" "t3" "t4" EDependency None None] _ in
          conj (proj1 (proj2 H)) (proj1 (proj2 (proj2 H)))).
  repeat constructor; done.
Defined.

(** ** Change reconciliation *)

Section ConnectGesture.
Context `{Collaborators}.

(** C4, as amended. For a connect release that is not a dependency gesture:
    when an endpoint field is missing the handler does nothing at all (no
    mutation and no warning); when both fields resolve but their types are
    incompatible it commits no mutation and shows one warning; otherwise it
    creates exactly one relationship with the source and target table ids
    and the field ids the endpoints resolved from. *)
Theorem onConnectHandler_relationship_cases
    (getField : string -> string -> option DBField)
    (databaseType : DatabaseType) (params : Connection) :
  isDependencyGesture params = false ->
  let calls := onConnectHandler getField databaseType params in
  ((resolvedSourceField getField params = None
    \/ resolvedTargetField getField params = None) -> calls = [])
  /\ (forall sourceField targetField,
        resolvedSourceField getField params = Some sourceField ->
        resolvedTargetField getField params = Some targetField ->
        areFieldTypesCompatible (f_type sourceField) (f_type targetField)
                                databaseType = false ->
        calls = [incompatibleToast])
  /\ (forall sourceField targetField,
        resolvedSourceField getField params = Some sourceField ->
        resolvedTargetField getField params = Some targetField ->
        areFieldTypesCompatible (f_type sourceField) (f_type targetField)
                                databaseType = true ->
        calls = [CreateRelationship (c_source params) (c_target params)
                   (fieldIdOfHandle (c_sourceHandle params))
                   (fieldIdOfHandle (c_targetHandle params))]).
Proof.
  unfold isDependencyGesture, resolvedSourceField, resolvedTargetField.
  intros Hdep. cbn zeta. unfold onConnectHandler. rewrite Hdep.
  split; [|split].
  - intros [-> | Ht]; [done|]. rewrite Ht.
    by destruct (getField (c_source params) _).
  - intros sf tf -> -> ->. done.
  - intros sf tf -> -> ->. done.
Qed.

End ConnectGesture.

(** Releasing a connection on a field that does not exist is an invalid
    connect, yet the handler returns without any call: nothing is created
    and no warning is shown. *)
Lemma onConnectHandler_missing_field_is_silent :
  let params := sampleConnection "f1" "f9" in
  @isDependencyGesture sampleCollaborators params = false
  /\ @connectInvalid sampleCollaborators sampleGetField "postgresql" params
     = true
  /\ @onConnectHandler sampleCollaborators sampleGetField "postgresql" params
     = []
  /\ @rejectedWithWarning sampleCollaborators
       (@onConnectHandler sampleCollaborators sampleGetField "postgresql"
                          params) = false.
Proof. vm_compute. done. Qed.

Lemma onConnectHandler_relationship_cases_witness :
  @onConnectHandler sampleCollaborators sampleGetField "postgresql"
                    (sampleConnection "f2" "f1")
  = [@incompatibleToast sampleCollaborators]
  /\ @onConnectHandler sampleCollaborators sampleGetField "postgresql"
                       (sampleConnection "f1" "f1")
     = [@CreateRelationship sampleCollaborators "t1" "t2" "f1" "f1"].
Proof.
  split.
  - refine (proj1 (proj2 (@onConnectHandler_relationship_cases
                            sampleCollaborators sampleGetField "postgresql"
                            (sampleConnection "f2" "f1") _))
                  (sampleField "f2" "text") (sampleField "f1" "int") _ _ _);
      vm_compute; reflexivity.
  - refine (proj2 (proj2 (@onConnectHandler_relationship_cases
                            sampleCollaborators sampleGetField "postgresql"
                            (sampleConnection "f1" "f1") _))
                  (sampleField "f1" "int") (sampleField "f1" "int") _ _ _);
      vm_compute; reflexivity.
Defined.

Section ReadOnlyMode.
Context `{Collaborators}.

Lemma filter_none {A} (P : A -> bool) (l : list A) :
  (forall x, x ∈ l -> P x = false) -> List.filter P l = [].
Proof.
  induction l as [|x l IH]; intros Hall; cbn; [done|].
  rewrite (Hall x) by left. apply IH. intros y Hy. apply Hall. by right.
Qed.

Lemma elem_of_filter_list {A} (P : A -> bool) (l : list A) (x : A) :
  x ∈ List.filter P l <-> x ∈ l /\ P x = true.
Proof. rewrite !list_elem_of_In. apply filter_In. Qed.

Lemma findRelevant_no_remove getNode (changes : list NodeChange) kind :
  (forall c, c ∈ changes -> nodeChangeIsRemove c = false) ->
  removeChanges (findRelevantNodesChanges getNode changes kind) = [].
Proof.
  intros Hno. unfold findRelevantNodesChanges; cbn [removeChanges].
  apply filter_none. intros c Hc.
  apply elem_of_filter_list in Hc as [Hc _]. by apply Hno.
Qed.

Lemma areaDragChildChanges_no_remove areas tables areaChange c :
  c ∈ areaDragChildChanges areas tables areaChange ->
  nodeChangeIsRemove c = false.
Proof.
  unfold areaDragChildChanges.
  destruct areaChange as [id [position|] dragging| | | | |];
    try (intros Hc; by inversion Hc).
  destruct (findArea areas id); [|intros Hc; by inversion Hc].
  intros Hc. apply list_elem_of_fmap in Hc as (t & -> & _). done.
Qed.

(** What the read-only handler forwards and inspects holds no removal. *)
Lemma readonly_changesToApply_no_remove getNode tables areas
    (changes : list NodeChange) c :
  let kept := List.filter notRemove changes in
  let drags := List.filter (isAreaDrag getNode) kept in
  c ∈ (if (0 <? length drags)%nat
       then kept ++ concat (areaDragChildChanges areas tables <$> drags)
       else kept) ->
  nodeChangeIsRemove c = false.
Proof.
  cbn zeta. intros Hc.
  assert (Hkept : forall c, c ∈ List.filter notRemove changes ->
                            nodeChangeIsRemove c = false).
  { intros c' Hc'. apply elem_of_filter_list in Hc' as [_ Hc'].
    by apply negb_true_iff in Hc'. }
  destruct (0 <? _)%nat; [|by apply Hkept].
  apply elem_of_app in Hc as [Hc | Hc]; [by apply Hkept|].
  apply list_elem_of_In, in_concat in Hc as (l & Hl & Hc).
  apply list_elem_of_In in Hl, Hc.
  apply list_elem_of_fmap in Hl as (ac & -> & _).
  by eapply areaDragChildChanges_no_remove.
Qed.

Lemma runUpdater_keeps_ids getNode (u : TablesUpdater)
    (currentTables : list DBTable) :
  (forall a r, u <> UpdRemove a r) ->
  updateId <$> runUpdater getNode u currentTables = t_id <$> currentTables.
Proof.
  intros Hu. destruct u as [|a r|needs]; [| by destruct (Hu a r) |];
    cbn [runUpdater]; rewrite <- list_fmap_compose;
    apply list_fmap_ext; intros i t _; cbn.
  - by destruct (getNode (t_id t)).
  - by destruct (List.find _ needs).
Qed.

(** C5. Under read-only mode every change of type [remove] is dropped before
    anything else is derived from the batch: the edge and node handlers then
    behave exactly as the unrestricted handlers do on the remaining changes,
    in their original order; no call removes a relationship, dependency,
    table, area or note; every table-state update they issue keeps all
    tables; and no removal is forwarded to the view layer. *)
Theorem readonly_drops_remove_changes
    (getEdge : string -> option Edge) (getNode : string -> option Node)
    (tables : list DBTable) (areas : list Area)
    (edgeChanges : list EdgeChange) (nodeChanges : list NodeChange) :
  let edgeCalls := onEdgesChangeHandler true getEdge edgeChanges in
  let nodeCalls :=
    onNodesChangeHandler true getNode tables areas nodeChanges in
  edgeCalls
    = onEdgesChangeHandler false getEdge
        (List.filter (fun c => negb (edgeChangeIsRemove c)) edgeChanges)
  /\ edgeCalls
     = [OnEdgesChange
          (List.filter (fun c => negb (edgeChangeIsRemove c)) edgeChanges)]
  /\ nodeCalls
     = onNodesChangeHandler false getNode tables areas
         (List.filter (fun c => negb (nodeChangeIsRemove c)) nodeChanges)
  /\ (forall c, c ∈ nodeCalls ->
        isRemovalCall c = false
        /\ (forall u opts currentTables view,
              c = UpdateTablesState u opts ->
              updateId <$> runUpdater view u currentTables
              = t_id <$> currentTables)
        /\ (forall forwarded ch,
              c = OnNodesChange forwarded -> ch ∈ forwarded ->
              nodeChangeIsRemove ch = false)).
Proof.
  cbn zeta.
  assert (Hedge : onEdgesChangeHandler true getEdge edgeChanges
                  = [OnEdgesChange
                       (List.filter (fun c => negb (edgeChangeIsRemove c))
                                    edgeChanges)]).
  { unfold onEdgesChangeHandler. cbn zeta.
    rewrite (filter_none edgeChangeIsRemove); [done|].
    intros c Hc. apply elem_of_filter_list in Hc as [_ Hc].
    by apply negb_true_iff in Hc. }
  split; [|split; [exact Hedge|split; [reflexivity|]]].
  { rewrite Hedge. unfold onEdgesChangeHandler. cbn zeta.
    rewrite (filter_none edgeChangeIsRemove); [done|].
    intros c Hc. apply elem_of_filter_list in Hc as [_ Hc].
    by apply negb_true_iff in Hc. }
  unfold onNodesChangeHandler. cbn zeta.
  fold notRemove.
  set (kept := List.filter notRemove nodeChanges).
  set (drags := List.filter (isAreaDrag getNode) kept).
  set (toApply := if (0 <? length drags)%nat then _ else kept).
  assert (Hno : forall c, c ∈ toApply -> nodeChangeIsRemove c = false).
  { intros c Hc.
    by apply (readonly_changesToApply_no_remove getNode tables areas
                nodeChanges c). }
  rewrite !(findRelevant_no_remove getNode toApply _ Hno).
  cbn [length Nat.ltb Nat.leb orb changeIds omap fmap list_fmap app].
  intros c Hc.
  repeat (apply elem_of_app in Hc as [Hc | Hc]).
  - destruct (_ || _ || _); [|by inversion Hc].
    apply elem_of_cons in Hc as [-> | Hc].
    + split; [done|]. split; [|done].
      intros u opts cur view [= <- _]. by apply runUpdater_keeps_ids.
    + apply list_elem_of_singleton in Hc as ->. done.
  - destruct (_ || _ || _ || _); [|by inversion Hc].
    apply list_elem_of_singleton in Hc as ->. done.
  - inversion Hc.
  - inversion Hc.
  - apply elem_of_cons in Hc as [-> | Hc]; [done|].
    apply list_elem_of_singleton in Hc as ->.
    split; [done|]. split; [done|].
    intros forwarded ch [= <-]. apply Hno.
Qed.

End ReadOnlyMode.

(** ** Legacy migration *)

Section Migration.

Lemma migrate_when_flag_set db api (localStorage : gmap string string) :
  localStorage !! MIGRATION_FLAG = Some "true" ->
  migrateIndexedDBToAPI db api localStorage
  = {| mr_result := alreadyMigrated; mr_storage := localStorage;
       mr_requests := [] |}.
Proof.
  intros Hflag. unfold migrateIndexedDBToAPI.
  by rewrite bool_decide_eq_true_2.
Qed.

(** C10. A run whose read of the diagram table does not throw leaves the
    migration flag set to 'true', whether or not diagram or config uploads
    failed; every later call, whatever the database and the API then hold,
    returns success with message 'Already migrated', issues no request and
    leaves the flag as it is, so failed diagrams are never retried. *)
Theorem migration_marks_complete_despite_errors
    (db : LegacyDB) (api : VertexApi) (localStorage : gmap string string)
    (diagrams : list Obj) :
  db_diagrams db = inr diagrams ->
  let first := migrateIndexedDBToAPI db api localStorage in
  mr_storage first !! MIGRATION_FLAG = Some "true"
  /\ isMigrationComplete (mr_storage first) = true
  /\ (forall db' api',
        let again := migrateIndexedDBToAPI db' api' (mr_storage first) in
        mr_result again = alreadyMigrated
        /\ mr_requests again = []
        /\ mr_storage again = mr_storage first).
Proof.
  intros Hread. cbn zeta.
  assert (Hflag : mr_storage (migrateIndexedDBToAPI db api localStorage)
                  !! MIGRATION_FLAG = Some "true").
  { unfold migrateIndexedDBToAPI. case_bool_decide as Hset; [done|].
    rewrite Hread. destruct diagrams; cbn; by rewrite lookup_insert_eq. }
  split; [done|]. split.
  - unfold isMigrationComplete. by rewrite bool_decide_eq_true_2.
  - intros db' api'. cbn zeta. by rewrite (migrate_when_flag_set _ _ _ Hflag).
Qed.

End Migration.

Example migrateIndexedDBToAPI_failing_run :
  let first := migrateIndexedDBToAPI sampleLegacyDB failingApi ∅ in
  success (mr_result first) = false
  /\ message (mr_result first) = "Migrated 1 diagrams with 2 errors"
  /\ length (mr_requests first) = 2
  /\ mr_storage first = {[ MIGRATION_FLAG := "true" ]}.
Proof. vm_compute. done. Qed.

Lemma migration_marks_complete_despite_errors_witness :
  let first := migrateIndexedDBToAPI sampleLegacyDB failingApi ∅ in
  mr_storage first !! MIGRATION_FLAG = Some "true"
  /\ isMigrationComplete (mr_storage first) = true
  /\ (forall db' api',
        let again := migrateIndexedDBToAPI db' api' (mr_storage first) in
        mr_result again = alreadyMigrated
        /\ mr_requests again = []
        /\ mr_storage again = mr_storage first).
Proof.
  apply (migration_marks_complete_despite_errors sampleLegacyDB failingApi ∅
           [[("id", JStr "d1"); ("name", JStr "Shop")]]).
  reflexivity.
Defined.

(** ** Overlap query and highlight pulse *)

Section OverlapQuery.

Lemma hasOverlappingTables_iff (overlapGraph : Graph) :
  hasOverlappingTables overlapGraph = true
  <-> exists id adjacent,
        graph overlapGraph !! id = Some adjacent /\ adjacent <> [].
Proof.
  unfold hasOverlappingTables. rewrite existsb_exists. split.
  - intros ([id adj] & Hin & Hlen). cbn in Hlen.
    exists id, adj. split.
    + by apply elem_of_map_to_list, list_elem_of_In.
    + intros ->. done.
  - intros (id & adj & Hlook & Hne). exists (id, adj). split.
    + by apply list_elem_of_In, elem_of_map_to_list.
    + cbn. destruct adj; done.
Qed.

End OverlapQuery.

(** ** Scheduled work *)

Section Scheduling.
Context `{Collaborators}.

Lemma sameRefs_refl s : sameRefs s s.
Proof. by constructor. Qed.

Lemma sameRefs_trans s1 s2 s3 :
  sameRefs s1 s2 -> sameRefs s2 s3 -> sameRefs s1 s3.
Proof.
  intros [] []. constructor; congruence.
Qed.

Lemma fire_spec (tm : Timer) (s : Engine) :
  sameRefs s (fire tm s)
  /\ clock (fire tm s) = Nat.max (clock s) (tm_due tm)
  /\ calls (fire tm s)
     = calls s ++ taskCalls (tm_task tm) (view s)
                            (Nat.max (clock s) (tm_due tm))
  /\ highlightOverlappingTables (fire tm s)
     = (if clearsHighlight tm then false else highlightOverlappingTables s).
Proof.
  unfold fire, clearsHighlight, taskCalls.
  destruct (tm_task tm); cbn; (split; [by constructor|]);
    rewrite ?app_nil_r; done.
Qed.

Lemma foldl_fire_spec (l : list Timer) (s : Engine) :
  let s' := foldl (fun s tm => fire tm s) s l in
  sameRefs s s'
  /\ calls s' = calls s ++ firedCalls (view s) (clock s) l
  /\ highlightOverlappingTables s'
     = (if existsb clearsHighlight l then false
        else highlightOverlappingTables s).
Proof.
  cbn zeta. revert s. induction l as [|tm l IH]; intros s.
  - cbn. rewrite app_nil_r. split; [apply sameRefs_refl | done].
  - cbn [foldl firedCalls existsb].
    destruct (fire_spec tm s) as (Hrefs & Hclock & Hcalls & Hhl).
    destruct (IH (fire tm s)) as (Hrefs' & Hcalls' & Hhl').
    split; [by eapply sameRefs_trans|]. split.
    + rewrite Hcalls', Hcalls, Hclock, (sr_view _ _ Hrefs).
      by rewrite app_assoc.
    + rewrite Hhl', Hhl.
      by destruct (clearsHighlight tm), (existsb clearsHighlight l).
Qed.

Lemma advance_spec (dt : nat) (st : Engine) :
  let due := sortTimers (List.filter (isDue (clock st + dt)) (timers st)) in
  timers (advance dt st)
  = List.filter (fun tm => negb (isDue (clock st + dt) tm)) (timers st)
  /\ clock (advance dt st) = clock st + dt
  /\ nextHandle (advance dt st) = nextHandle st
  /\ frames (advance dt st) = frames st
  /\ saveDiagramTimeoutRef (advance dt st) = saveDiagramTimeoutRef st
  /\ saveCleanup (advance dt st) = saveCleanup st
  /\ rafIdRef (advance dt st) = rafIdRef st
  /\ view (advance dt st) = view st
  /\ calls (advance dt st)
     = calls st ++ firedCalls (view st) (clock st) due
  /\ highlightOverlappingTables (advance dt st)
     = (if existsb clearsHighlight due then false
        else highlightOverlappingTables st).
Proof.
  cbn zeta. unfold advance. cbn zeta.
  set (due := sortTimers _). set (rest := List.filter _ (timers st)).
  destruct (foldl_fire_spec due
              (setSched st (clock st) (nextHandle st) rest))
    as ([] & Hcalls & Hhl).
  cbn in *. repeat split; done.
Qed.

(** *** Insertion sort of the due timers *)

Lemma insertTimer_elem (t x : Timer) (l : list Timer) :
  x ∈ insertTimer t l <-> x = t \/ x ∈ l.
Proof.
  induction l as [|y l IH]; cbn.
  - rewrite list_elem_of_singleton. split; [by left|].
    intros [-> | Hx]; [done | by inversion Hx].
  - destruct (timerBefore t y).
    + by rewrite elem_of_cons.
    + rewrite !elem_of_cons, IH. tauto.
Qed.

Lemma sortTimers_elem (x : Timer) (l : list Timer) :
  x ∈ sortTimers l <-> x ∈ l.
Proof.
  induction l as [|y l IH]; cbn; [done|].
  rewrite insertTimer_elem, elem_of_cons, IH. done.
Qed.








(** *** Invariant of the component's handles *)

Lemma NoDup_fmap_filter {A B} (f : A -> B) (P : A -> bool) (l : list A) :
  NoDup (f <$> l) -> NoDup (f <$> List.filter P l).
Proof.
  induction l as [|x l IH]; cbn; [done|].
  intros Hnd. apply NoDup_cons in Hnd as [Hx Hnd].
  destruct (P x); [|by apply IH]. cbn. apply NoDup_cons. split; [|by apply IH].
  intros Hin. apply Hx. apply list_elem_of_fmap in Hin as (y & -> & Hy).
  apply list_elem_of_fmap. exists y. split; [done|].
  by apply elem_of_filter_list in Hy as [Hy _].
Qed.

(** Dropping timers, with every handle left as it is, keeps the invariant. *)
Lemma wellFormed_shrink (P : Timer -> bool) (st st' : Engine) :
  wellFormed st ->
  timers st' = List.filter P (timers st) ->
  nextHandle st' = nextHandle st ->
  frames st' = frames st ->
  saveDiagramTimeoutRef st' = saveDiagramTimeoutRef st ->
  saveCleanup st' = saveCleanup st ->
  rafIdRef st' = rafIdRef st ->
  wellFormed st'.
Proof.
  intros [] Ht Hh Hf Hr Hc Hraf.
  constructor; rewrite ?Ht, ?Hh, ?Hf, ?Hr, ?Hc, ?Hraf; try done.
  - intros tm Htm. apply elem_of_filter_list in Htm as [Htm _]. auto.
  - intros tm Htm. apply elem_of_filter_list in Htm as [Htm _]. auto.
  - intros tm Htm. apply elem_of_filter_list in Htm as [Htm _]. auto.
  - by apply NoDup_fmap_filter.
Qed.

Lemma filter_all {A} (l : list A) : List.filter (fun _ => true) l = l.
Proof. induction l; cbn; congruence. Qed.

Lemma wellFormed_same (st st' : Engine) :
  wellFormed st ->
  timers st' = timers st ->
  nextHandle st' = nextHandle st ->
  frames st' = frames st ->
  saveDiagramTimeoutRef st' = saveDiagramTimeoutRef st ->
  saveCleanup st' = saveCleanup st ->
  rafIdRef st' = rafIdRef st ->
  wellFormed st'.
Proof.
  intros Hwf Ht. apply (wellFormed_shrink (fun _ => true)); [done|].
  by rewrite filter_all.
Qed.

Lemma wellFormed_clearIfSet (r : option positive) (st : Engine) :
  wellFormed st -> wellFormed (clearIfSet r st).
Proof.
  intros Hwf. destruct r as [id|]; [|done].
  by eapply (wellFormed_shrink _ st); [done|reflexivity|..].
Qed.

(** Arming a timer for anything but the save task. *)
Lemma wellFormed_setTimeout (task : Task) (delay : nat) (st : Engine) :
  wellFormed st ->
  (forall deps, task <> TSaveDiagram deps) ->
  wellFormed (setTimeout task delay st).2.
Proof.
  intros [] Htask. constructor; cbn.
  - intros tm Htm Hs. apply elem_of_app in Htm as [Htm | Htm]; [auto|].
    apply list_elem_of_singleton in Htm as ->.
    unfold isSaveTimer in Hs. cbn in Hs. destruct task; try done.
    by destruct (Htask deps).
  - intros tm Htm Hr. apply elem_of_app in Htm as [Htm | Htm]; [auto|].
    apply list_elem_of_singleton in Htm as ->. cbn in Hr.
    apply wf_ref_fresh0 in Hr. lia.
  - intros r Hr. apply wf_ref_fresh0 in Hr. lia.
  - done.
  - intros tm Htm. apply elem_of_app in Htm as [Htm | Htm].
    + apply wf_fresh0 in Htm. lia.
    + apply list_elem_of_singleton in Htm as ->. cbn. lia.
  - rewrite fmap_app. apply NoDup_app. split; [done|]. split.
    + intros x Hx Hx'. cbn in Hx'. apply list_elem_of_singleton in Hx' as ->.
      apply list_elem_of_fmap in Hx as (tm & Hid & Htm).
      apply wf_fresh0 in Htm. lia.
    + cbn. apply NoDup_singleton.
Qed.

Lemma noSave_after_clear (st : Engine) (tm : Timer) :
  wellFormed st ->
  tm ∈ timers (clearIfSet (saveDiagramTimeoutRef st) st) ->
  isSaveTimer tm = false.
Proof.
  intros Hwf Htm. destruct (isSaveTimer tm) eqn:Hs; [|done].
  destruct (saveDiagramTimeoutRef st) as [r|] eqn:Hr; cbn in Htm.
  - apply elem_of_filter_list in Htm as [Htm Hne].
    destruct (wf_save _ Hwf tm Htm Hs) as [Hr' _].
    rewrite Hr in Hr'. injection Hr' as ->.
    by rewrite bool_decide_eq_true_2 in Hne.
  - destruct (wf_save _ Hwf tm Htm Hs) as [Hr' _]. congruence.
Qed.

Lemma saveEffectCleanup_spec (st : Engine) :
  wellFormed st ->
  let st' := saveEffectCleanup st in
  wellFormed st'
  /\ (forall tm, tm ∈ timers st' -> isSaveTimer tm = false)
  /\ timers st' = List.filter (fun tm => negb (isSaveTimer tm)) (timers st)
  /\ nextHandle st' = nextHandle st /\ clock st' = clock st
  /\ view st' = view st /\ calls st' = calls st
  /\ frames st' = frames st /\ rafIdRef st' = rafIdRef st
  /\ saveDiagramTimeoutRef st' = saveDiagramTimeoutRef st.
Proof.
  intros Hwf. cbn zeta. unfold saveEffectCleanup.
  assert (Hnone : saveCleanup st = false ->
                  forall tm, tm ∈ timers st -> isSaveTimer tm = false).
  { intros Hc tm Htm. destruct (isSaveTimer tm) eqn:Hs; [|done].
    destruct (wf_save _ Hwf tm Htm Hs). congruence. }
  destruct (saveCleanup st) eqn:Hc.
  - assert (Hno : forall tm,
              tm ∈ timers (clearIfSet (saveDiagramTimeoutRef st) st) ->
              isSaveTimer tm = false)
      by (intros tm; by apply noSave_after_clear).
    assert (Ht : timers (clearIfSet (saveDiagramTimeoutRef st) st)
                 = List.filter (fun tm => negb (isSaveTimer tm)) (timers st)).
    { destruct (saveDiagramTimeoutRef st) as [r|] eqn:Hr; cbn in *.
      - apply filter_ext_in. intros tm Htm. apply list_elem_of_In in Htm.
        destruct (isSaveTimer tm) eqn:Hs.
        + destruct (wf_save _ Hwf tm Htm Hs) as [Hr' _].
          rewrite Hr in Hr'. injection Hr' as ->.
          by rewrite bool_decide_eq_true_2.
        + case_bool_decide as Hid; [|done]. subst r.
          pose proof (wf_ref _ Hwf tm Htm Hr). congruence.
      - symmetry. rewrite <- (filter_all (timers st)) at 2.
        apply filter_ext_in. intros tm Htm. apply list_elem_of_In in Htm.
        destruct (isSaveTimer tm) eqn:Hs; [|done].
        destruct (wf_save _ Hwf tm Htm Hs). congruence. }
    split; [|split; [|split]].
    + pose proof (wellFormed_clearIfSet (saveDiagramTimeoutRef st) st Hwf)
        as Hwf'.
      destruct Hwf'. constructor; cbn; try done.
      * intros tm Htm Hs. apply Hno in Htm. congruence.
      * intros tm Htm Hr. rewrite Hr in Htm. cbn in Htm.
        apply elem_of_filter_list in Htm as [_ Hne].
        by rewrite bool_decide_eq_true_2 in Hne.
      * intros r Hr. rewrite Hr. cbn. by apply (wf_ref_fresh _ Hwf).
    + intros tm Htm. apply Hno. by destruct (saveDiagramTimeoutRef st).
    + rewrite <- Ht. by destruct (saveDiagramTimeoutRef st).
    + by destruct (saveDiagramTimeoutRef st).
  - split; [done|]. split; [by apply Hnone|]. split; [|done].
    symmetry. rewrite <- (filter_all (timers st)) at 2.
    apply filter_ext_in. intros tm Htm. apply list_elem_of_In in Htm.
    by rewrite (Hnone eq_refl tm Htm).
Qed.

Lemma saveEffect_armed (deps : SaveDeps) (st : Engine) :
  wellFormed st -> isLoaded deps = true ->
  let st' := saveEffect deps st in
  wellFormed st'
  /\ List.filter isSaveTimer (timers st')
     = [saveTimer (nextHandle st) (clock st + 500) deps]
  /\ clock st' = clock st /\ view st' = view st /\ calls st' = calls st.
Proof.
  intros Hwf Hld. cbn zeta. unfold saveEffect.
  destruct (saveEffectCleanup_spec st Hwf)
    as (Hwf1 & Hno1 & _ & Hh1 & Hc1 & Hv1 & Hcalls1 & Hf1 & Hraf1 & Hr1).
  set (st1 := saveEffectCleanup st) in *.
  unfold isLoaded in Hld. apply andb_true_iff in Hld as [Hid Hcur].
  rewrite Hid, Hcur. cbn [negb orb].
  pose proof (wellFormed_clearIfSet (saveDiagramTimeoutRef st1) st1 Hwf1)
    as Hwf2.
  set (st2 := clearIfSet (saveDiagramTimeoutRef st1) st1) in *.
  assert (Hno2 : forall tm, tm ∈ timers st2 -> isSaveTimer tm = false).
  { intros tm Htm. apply Hno1. subst st2.
    destruct (saveDiagramTimeoutRef st1); [|done].
    cbn in Htm. by apply elem_of_filter_list in Htm as [Htm _]. }
  assert (Hh2 : nextHandle st2 = nextHandle st).
  { subst st2. by destruct (saveDiagramTimeoutRef st1). }
  assert (Hc2 : clock st2 = clock st).
  { subst st2. by destruct (saveDiagramTimeoutRef st1). }
  assert (Hrest : view st2 = view st /\ calls st2 = calls st
                  /\ frames st2 = frames st /\ rafIdRef st2 = rafIdRef st).
  { subst st2. by destruct (saveDiagramTimeoutRef st1). }
  destruct Hrest as (Hv2 & Hcalls2 & Hf2 & Hraf2).
  cbn. rewrite Hh2, Hc2.
  split; [|split; [|done]].
  - destruct Hwf2. constructor; cbn; rewrite ?Hh2, ?Hc2.
    + intros tm Htm Hs. apply elem_of_app in Htm as [Htm | Htm].
      * apply Hno2 in Htm. congruence.
      * by apply list_elem_of_singleton in Htm as ->.
    + intros tm Htm [= Hid']. apply elem_of_app in Htm as [Htm | Htm].
      * apply wf_fresh0 in Htm. rewrite Hh2 in Htm. lia.
      * by apply list_elem_of_singleton in Htm as ->.
    + intros r [= <-]. lia.
    + done.
    + intros tm Htm. apply elem_of_app in Htm as [Htm | Htm].
      * apply wf_fresh0 in Htm. rewrite Hh2 in Htm. lia.
      * apply list_elem_of_singleton in Htm as ->. cbn. lia.
    + rewrite fmap_app. apply NoDup_app. split; [done|]. split.
      * intros x Hx Hx'. cbn in Hx'.
        apply list_elem_of_singleton in Hx' as ->.
        apply list_elem_of_fmap in Hx as (tm & Hid' & Htm).
        apply wf_fresh0 in Htm. rewrite Hh2 in Htm. lia.
      * cbn. apply NoDup_singleton.
  - rewrite List.filter_app. rewrite (filter_none isSaveTimer); [done|].
    exact Hno2.
Qed.

Lemma saveEffect_wellFormed (deps : SaveDeps) (st : Engine) :
  wellFormed st -> wellFormed (saveEffect deps st).
Proof.
  intros Hwf. destruct (isLoaded deps) eqn:Hld.
  - by apply saveEffect_armed.
  - unfold saveEffect. unfold isLoaded in Hld.
    replace (negb _ || negb _) with true; [by apply saveEffectCleanup_spec|].
    by destruct (opt_truthy _ _), (bool_decide _).
Qed.

Lemma frame_spec (st : Engine) :
  timers (frame st) = timers st /\ nextHandle (frame st) = nextHandle st
  /\ frames (frame st) = []
  /\ saveDiagramTimeoutRef (frame st) = saveDiagramTimeoutRef st
  /\ saveCleanup (frame st) = saveCleanup st
  /\ calls (frame st) = calls st /\ clock (frame st) = clock st
  /\ view (frame st) = view st.
Proof.
  unfold frame.
  set (s0 := setFrames st (nextHandle st) [] (rafIdRef st)).
  assert (H0 : timers s0 = timers st /\ nextHandle s0 = nextHandle st
               /\ frames s0 = []
               /\ saveDiagramTimeoutRef s0 = saveDiagramTimeoutRef st
               /\ saveCleanup s0 = saveCleanup st
               /\ calls s0 = calls st /\ clock s0 = clock st
               /\ view s0 = view st) by done.
  clearbody s0. revert s0 H0.
  induction (frames st) as [|cb l IH]; intros s0 H0; [done|].
  cbn [foldl]. apply IH. cbn. tauto.
Qed.

Lemma wellFormed_step (st : Engine) (ev : Event) :
  wellFormed st -> wellFormed (step st ev).
Proof.
  intros Hwf. destruct ev; cbn [step].
  - by apply saveEffect_wellFormed.
  - by apply wellFormed_setTimeout.
  - unfold fitViewEffect. destruct (negb _); [|done].
    by apply wellFormed_setTimeout.
  - unfold overlapDebounced, debounceCall.
    pose proof (wellFormed_setTimeout
                  (TUpdateOverlap nodes overlapGraph positionChanges0
                                  sizeChanges0)
                  200 _ (wellFormed_clearIfSet (overlapDebounce st) st Hwf))
      as Hwf'.
    destruct (setTimeout _ _ _) as [id st'] eqn:Hset. cbn in Hwf'.
    by eapply wellFormed_same; [apply Hwf'|..].
  - by eapply wellFormed_same.
  - unfold pulseOverlappingTables. apply wellFormed_setTimeout; [|done].
    by eapply wellFormed_same.
  - unfold handleMouseMove. destruct tempFloatingEdge; [|done].
    destruct (rafIdRef st) eqn:Hraf; [done|].
    destruct Hwf. constructor; cbn; try done.
    + intros r Hr. apply wf_ref_fresh0 in Hr. lia.
    + intros cb Hcb. apply elem_of_app in Hcb as [Hcb | Hcb].
      * apply wf_raf0 in Hcb. congruence.
      * by apply list_elem_of_singleton in Hcb as ->.
    + intros tm Htm. apply wf_fresh0 in Htm. lia.
  - destruct (frame_spec st) as (Ht & Hh & Hf & Hr & Hc & _).
    destruct Hwf. constructor; rewrite ?Ht, ?Hh, ?Hf, ?Hr, ?Hc; try done.
    intros cb Hcb. inversion Hcb.
  - by eapply wellFormed_same.
  - destruct (advance_spec dt st)
      as (Ht & _ & Hh & Hf & Hr & Hc & Hraf & _).
    by eapply wellFormed_shrink.
  - unfold unmount.
    destruct (saveEffectCleanup_spec st Hwf) as (Hwf1 & _).
    set (st1 := saveEffectCleanup st) in *. unfold rafCleanup.
    destruct (rafIdRef st1) eqn:Hraf; [|done].
    destruct Hwf1. constructor; cbn; try done.
    intros cb Hcb. apply elem_of_filter_list in Hcb as [Hcb _].
    rewrite <- Hraf. auto.
Qed.

Lemma initialEngine_wellFormed : wellFormed initialEngine.
Proof.
  constructor; cbn;
    first [done | by constructor | (intros x Hx; by inversion Hx)].
Qed.

Lemma run_wellFormed (evs : list Event) (st : Engine) :
  wellFormed st -> wellFormed (run st evs).
Proof.
  revert st. induction evs as [|ev evs IH]; intros st Hwf; [done|].
  cbn. apply IH. by apply wellFormed_step.
Qed.

(** *** Writes issued by the save timer *)

Lemma saveCallsOf_app (a b : list Call) :
  saveCallsOf (a ++ b) = saveCallsOf a ++ saveCallsOf b.
Proof. apply omap_app. Qed.

Lemma taskCalls_nonsave (task : Task) (v : list Node) (now : nat) :
  (forall deps, task <> TSaveDiagram deps) ->
  saveCallsOf (taskCalls task v now) = [].
Proof.
  intros Htask. destruct task; cbn; try done.
  - by destruct (Htask deps).
  - unfold checkParentAreas. cbn zeta. by destruct (0 <? _)%nat.
  - unfold updateOverlappingGraphOnChanges.
    by destruct (_ || _).
Qed.

Lemma firedCalls_nosave (v : list Node) (c : nat) (l : list Timer) :
  (forall tm, tm ∈ l -> isSaveTimer tm = false) ->
  saveCallsOf (firedCalls v c l) = [].
Proof.
  revert c. induction l as [|tm l IH]; intros c Hno; [done|].
  cbn [firedCalls]. rewrite saveCallsOf_app, IH.
  - rewrite taskCalls_nonsave; [done|].
    intros deps Heq. specialize (Hno tm (list_elem_of_here _ _)).
    unfold isSaveTimer in Hno. by rewrite Heq in Hno.
  - intros tm' Htm'. apply Hno. by right.
Qed.


Lemma filter_filter_comm {A} (P Q : A -> bool) (l : list A) :
  List.filter P (List.filter Q l) = List.filter Q (List.filter P l).
Proof.
  induction l as [|x l IH]; [done|]. cbn.
  destruct (Q x) eqn:HQ, (P x) eqn:HP; cbn; rewrite ?HQ, ?HP, IH; done.
Qed.

(** While the pending save timer is not yet due, time passing issues no
    write and leaves the timer pending. *)
Lemma advance_quiet (dt : nat) (st : Engine) :
  (forall tm, tm ∈ timers st -> isSaveTimer tm = true ->
              clock st + dt < tm_due tm) ->
  saveCallsOf (calls (advance dt st)) = saveCallsOf (calls st)
  /\ List.filter isSaveTimer (timers (advance dt st))
     = List.filter isSaveTimer (timers st).
Proof.
  intros Hlate.
  destruct (advance_spec dt st) as (Ht & _ & _ & _ & _ & _ & _ & _ & Hc & _).
  split.
  - rewrite Hc, saveCallsOf_app, firedCalls_nosave; [by rewrite app_nil_r|].
    intros tm Htm. apply (proj1 (sortTimers_elem _ _)) in Htm.
    apply elem_of_filter_list in Htm as [Htm Hdue].
    destruct (isSaveTimer tm) eqn:Hs; [|done].
    specialize (Hlate tm Htm Hs). unfold isDue in Hdue.
    apply Nat.leb_le in Hdue. lia.
  - rewrite Ht, filter_filter_comm.
    rewrite <- (filter_all (List.filter isSaveTimer (timers st))) at 2.
    apply filter_ext_in. intros tm Htm.
    apply filter_In in Htm as [Htm Hs]. apply list_elem_of_In in Htm.
    specialize (Hlate tm Htm Hs). unfold isDue.
    apply negb_true_iff, Nat.leb_gt. lia.
Qed.


(** *** Bursts of mutations *)





(** C7. The overlap indicator is on exactly when some vertex of the overlap
    graph has a non-empty adjacency list. The pulse sets the highlight flag
    and arms one 600 ms timer whose only action is to clear the flag; 600 ms
    later the flag is off. Neither the pulse nor its timer calls any
    collaborator, so nothing is persisted and the graph is not touched. *)
Theorem overlap_indicator_and_pulse
    (overlapGraph : Graph) (st : Engine) (dt : nat) :
  (hasOverlappingTables overlapGraph = true
   <-> exists id adjacent,
         graph overlapGraph !! id = Some adjacent /\ adjacent <> [])
  /\ let pulsed := pulseOverlappingTables st in
     highlightOverlappingTables pulsed = true
     /\ timers pulsed
        = timers st ++ [{| tm_id := nextHandle st; tm_due := clock st + 600;
                           tm_task := TClearHighlight |}]
     /\ calls pulsed = calls st
     /\ (600 <= dt -> highlightOverlappingTables (advance dt pulsed) = false)
     /\ (forall s, highlightOverlappingTables (runTask TClearHighlight s)
                   = false
                   /\ calls (runTask TClearHighlight s) = calls s
                   /\ sameRefs s (runTask TClearHighlight s)).
Proof.
  split; [apply hasOverlappingTables_iff|]. cbn zeta.
  split; [done|]. split; [done|]. split; [done|]. split.
  - intros Hdt.
    destruct (advance_spec dt (pulseOverlappingTables st))
      as (_ & _ & _ & _ & _ & _ & _ & _ & _ & Hhl).
    rewrite Hhl.
    replace (existsb _ _) with true; [done|].
    symmetry. apply existsb_exists.
    exists {| tm_id := nextHandle st; tm_due := clock st + 600;
              tm_task := TClearHighlight |}.
    split; [|done].
    apply list_elem_of_In, sortTimers_elem, elem_of_filter_list. split.
    + cbn. apply elem_of_app. right. by left.
    + unfold isDue. cbn. apply Nat.leb_le. lia.
  - intros s. cbn. split; [done|]. split; [done|]. by constructor.
Qed.

Lemma unmount_cursor (st : Engine) :
  cursorPosition (unmount st) = cursorPosition st
  /\ calls (unmount st) = calls st.
Proof.
  unfold unmount, rafCleanup, saveEffectCleanup.
  destruct (saveCleanup st), (saveDiagramTimeoutRef st), (rafIdRef st) eqn:Hr;
    cbn; rewrite ?Hr; done.
Qed.

(** C9, as amended. On unmount the pending save timer and the pending
    animation-frame callback of the pointer tracker are cancelled: afterwards
    no write is ever issued by a timer and no frame callback moves the
    cursor. Every other pending timer (the debounced parent-area check,
    overlap update and fit-view, and the pulse timer) stays pending. *)
Theorem unmount_cancels_save_timer_and_frame
    (history : list Event) (dt : nat) :
  let st := run initialEngine history in
  let gone := unmount st in
  timers gone = List.filter (fun tm => negb (isSaveTimer tm)) (timers st)
  /\ frames gone = []
  /\ saveCallsOf (calls (advance dt gone)) = saveCallsOf (calls st)
  /\ cursorPosition (frame gone) = cursorPosition st.
Proof.
  cbn zeta.
  pose proof (run_wellFormed history _ initialEngine_wellFormed) as Hwf.
  set (st := run initialEngine history) in *.
  destruct (saveEffectCleanup_spec st Hwf)
    as (Hwf1 & Hno1 & Ht1 & _ & _ & _ & _ & Hf1 & Hraf1 & _).
  assert (Htimers : timers (unmount st)
                    = List.filter (fun tm => negb (isSaveTimer tm))
                                  (timers st)).
  { unfold unmount, rafCleanup.
    by destruct (rafIdRef (saveEffectCleanup st)). }
  assert (Hframes : frames (unmount st) = []).
  { unfold unmount, rafCleanup.
    destruct (rafIdRef (saveEffectCleanup st)) as [id|] eqn:Hr; cbn.
    - apply filter_none. intros cb Hcb.
      apply (wf_raf _ Hwf1) in Hcb. rewrite Hr in Hcb.
      injection Hcb as ->. by rewrite bool_decide_eq_true_2.
    - destruct (frames (saveEffectCleanup st)) as [|cb l] eqn:Hfr; [done|].
      assert (Hcb : cb ∈ frames (saveEffectCleanup st))
        by (rewrite Hfr; left).
      apply (wf_raf _ Hwf1) in Hcb. congruence. }
  destruct (unmount_cursor st) as [Hcur Hcalls].
  split; [done|]. split; [done|]. split.
  - destruct (advance_quiet dt (unmount st)) as [Hq _].
    + intros tm Htm Hs. rewrite Htimers in Htm.
      apply elem_of_filter_list in Htm as [_ Htm]. by rewrite Hs in Htm.
    + by rewrite Hq, Hcalls.
  - unfold frame. rewrite Hframes. cbn. done.
Qed.

End Scheduling.

(** ** Parent-area reassignment *)

Section ParentAreas.
Context `{Collaborators}.

Lemma resolveParentArea_spec (areas : list Area) (t : DBTable) :
  match resolveParentArea areas t with
  | Some id => exists a, a ∈ areas /\ a_id a = id
                         /\ areaContainsTable a t = true
  | None => forall a, a ∈ areas -> areaContainsTable a t = false
  end.
Proof.
  unfold resolveParentArea.
  destruct (List.find _ areas) as [a|] eqn:Hfind; cbn.
  - apply find_some in Hfind as [Hin Hc]. exists a.
    by rewrite list_elem_of_In.
  - intros a Ha. apply list_elem_of_In in Ha.
    by apply (find_none _ _ Hfind) in Ha.
Qed.

Lemma needsUpdateOf_changed (tables : list DBTable) (areas : list Area) :
  (forall a, a ∈ areas -> a_id a <> "") ->
  (forall t, t ∈ tables -> t_parentAreaId t <> Some "") ->
  needsUpdateOf tables (updateTablesParentAreas tables areas)
  = (fun t => (t_id t, resolveParentArea areas t))
      <$> List.filter (parentChanged areas) tables.
Proof.
  intros Hareas Htables. unfold needsUpdateOf, updateTablesParentAreas.
  rewrite imap_fmap.
  set (g := fun t : DBTable =>
              if parentChanged areas t
              then [(t_id t, resolveParentArea areas t)] else []).
  rewrite (imap_ext _ (const g)).
  - rewrite imap_const. clear Htables.
    induction tables as [|t l IH]; [done|].
    cbn [fmap list_fmap concat List.filter]. rewrite IH. unfold g at 1.
    by destruct (parentChanged areas t).
  - intros i t Hi. cbn. rewrite Hi. unfold g, parentChanged.
    assert (Ht : t_parentAreaId t <> Some "").
    { apply Htables. by eapply list_elem_of_lookup_2. }
    assert (Hr : resolveParentArea areas t <> Some "").
    { pose proof (resolveParentArea_spec areas t) as Hspec.
      destruct (resolveParentArea areas t) as [id|]; [|done].
      destruct Hspec as (a & Ha & <- & _). intros [= Heq].
      by apply (Hareas a Ha). }
    destruct (resolveParentArea areas t) as [[|c r]|],
             (t_parentAreaId t) as [[|c' p]|]; cbn; try done;
      case_bool_decide; done.
Qed.

Lemma find_fmap_pair {A B} (f : A -> B) (P : B -> bool) (l : list A) :
  List.find P (f <$> l) = f <$> List.find (fun a => P (f a)) l.
Proof.
  induction l as [|x l IH]; [done|]. cbn. by destruct (P (f x)).
Qed.

(** C8, as amended. When the debounced parent-area check runs, it resolves,
    for every visible table node, the visible area whose bounds fully
    contain the table's bounds (null when there is none). If no visible
    table's parent differs from the resolved one it makes no call;
    otherwise it makes a single [updateTablesState] call that is excluded
    from undo history, in which a table whose id is that of a changed
    visible table receives the resolved parent and every other table is
    handed back as it is. *)
Theorem checkParentAreas_reassigns_changed_visible_tables
    (nodes : list Node) :
  (forall a, a ∈ visibleAreasOf nodes -> a_id a <> "") ->
  (forall t, t ∈ visibleTablesOf nodes -> t_parentAreaId t <> Some "") ->
  NoDup (t_id <$> visibleTablesOf nodes) ->
  let tables := visibleTablesOf nodes in
  let areas := visibleAreasOf nodes in
  let changed := List.filter (parentChanged areas) tables in
  let needs := (fun t => (t_id t, resolveParentArea areas t)) <$> changed in
  (forall t, t ∈ tables ->
     match resolveParentArea areas t with
     | Some id => exists a, a ∈ areas /\ a_id a = id
                            /\ areaContainsTable a t = true
     | None => forall a, a ∈ areas -> areaContainsTable a t = false
     end)
  /\ checkParentAreas nodes
     = match changed with
       | [] => []
       | _ :: _ =>
           [UpdateTablesState (UpdParentAreas needs)
              {| uo_updateHistory := Some false; uo_skipPersist := None |}]
       end
  /\ (forall view currentTables,
        runUpdater view (UpdParentAreas needs) currentTables
        = parentAreaUpdate areas changed <$> currentTables)
  /\ (forall table t,
        t ∈ tables -> t_id t = t_id table ->
        resolveParentArea areas t <> t_parentAreaId t ->
        parentAreaUpdate areas changed table
        = UPatch {| tp_id := t_id table; tp_x := None; tp_y := None;
                    tp_width := None;
                    tp_parentAreaId := Some (resolveParentArea areas t) |})
  /\ (forall table,
        (forall t, t ∈ tables -> t_id t = t_id table ->
                   resolveParentArea areas t = t_parentAreaId t) ->
        parentAreaUpdate areas changed table = UFull table).
Proof.
  intros Hareas Htables Hnd. cbn zeta.
  set (tables := visibleTablesOf nodes) in *.
  set (areas := visibleAreasOf nodes) in *.
  set (changed := List.filter (parentChanged areas) tables).
  split; [intros t _; apply resolveParentArea_spec|].
  split; [|split; [|split]].
  - unfold checkParentAreas. cbn zeta. fold tables areas.
    rewrite (needsUpdateOf_changed tables areas Hareas Htables).
    fold changed. rewrite length_fmap. by destruct changed.
  - intros view currentTables. cbn [runUpdater].
    apply list_fmap_ext. intros i table _. unfold parentAreaUpdate.
    rewrite find_fmap_pair. cbn.
    by destruct (List.find _ changed).
  - intros table t Ht Hid Hne. unfold parentAreaUpdate.
    destruct (List.find _ changed) as [t'|] eqn:Hfind.
    + apply find_some in Hfind as [Hin Hid'].
      apply bool_decide_eq_true in Hid'.
      apply filter_In in Hin as [Hin _]. apply list_elem_of_In in Hin.
      assert (t' = t) as ->; [|done].
      apply list_elem_of_lookup in Hin as [i Hi], Ht as [j Hj].
      assert (i = j) as ->.
      { eapply NoDup_lookup; [exact Hnd|..];
          rewrite list_lookup_fmap; [by rewrite Hi | rewrite Hj; cbn].
        congruence. }
      congruence.
    + exfalso.
      assert (Hin : In t changed).
      { apply filter_In. split; [by apply list_elem_of_In|].
        unfold parentChanged. by rewrite bool_decide_eq_false_2. }
      apply (find_none _ _ Hfind) in Hin.
      by rewrite bool_decide_eq_true_2 in Hin.
  - intros table Hsame. unfold parentAreaUpdate.
    destruct (List.find _ changed) as [t'|] eqn:Hfind; [|done].
    apply find_some in Hfind as [Hin Hid'].
    apply bool_decide_eq_true in Hid'.
    apply filter_In in Hin as [Hin Hch]. apply list_elem_of_In in Hin.
    unfold parentChanged in Hch.
    by rewrite (bool_decide_eq_true_2 _ (Hsame t' Hin Hid')) in Hch.
Qed.

End ParentAreas.

(** ** Evaluating the embedding on a small diagram *)

(** In the filtered diagram the visible table [t1] lies fully inside area
    [a1], whose node is hidden: the check sets its parent to null, not to
    [a1]. The hidden table [t3] lies fully inside [b1] and no longer inside
    its parent [a1]: the check issues no update for it. *)
Lemma checkParentAreas_ignores_hidden_nodes :
  let t1 := sampleTable "t1" 10 10 (Some "b1") in
  let t3 := sampleTable "t3" 1010 1010 (Some "a1") in
  let a1 := sampleArea "a1" 0 0 500 500 in
  let b1 := sampleArea "b1" 1000 1000 1000 1000 in
  (n_id <$> filteredNodes) = ["t1"; "t3"; "a1"; "b1"]
  /\ (n_hidden <$> filteredNodes)
     = [Some false; Some true; Some true; Some false]
  /\ @areaContainsTable sampleCollaborators a1 t1 = true
  /\ @areaContainsTable sampleCollaborators b1 t1 = false
  /\ @areaContainsTable sampleCollaborators b1 t3 = true
  /\ @areaContainsTable sampleCollaborators a1 t3 = false
  /\ @checkParentAreas sampleCollaborators filteredNodes
     = [@UpdateTablesState sampleCollaborators
          (UpdParentAreas [("t1", None)]) noHistory].
Proof. vm_compute. done. Qed.

Lemma checkParentAreas_reassigns_changed_visible_tables_witness :
  @checkParentAreas sampleCollaborators (sampleNodes None)
  = [@UpdateTablesState sampleCollaborators
       (UpdParentAreas [("t1", Some "a1")]) noHistory].
Proof.
  refine (proj1 (proj2 (@checkParentAreas_reassigns_changed_visible_tables
                          sampleCollaborators (sampleNodes None) _ _ _))).
  - apply Forall_forall. by_evaluation.
  - apply Forall_forall. by_evaluation.
  - by_evaluation.
Defined.



(** A pulse timer and a parent-area check armed before unmount are both
    still pending after it; 300 ms later the check fires and updates the
    tables of the domain model. *)
Lemma unmount_leaves_timers_pending :
  let nodes := sampleNodes None in
  let gone :=
    @run sampleCollaborators initialEngine
         [EvPulse; EvCheckParentAreasEffect nodes; EvUnmount] in
  timers gone
  = [{| tm_id := 1%positive; tm_due := 600; tm_task := TClearHighlight |};
     {| tm_id := 2%positive; tm_due := 300;
        tm_task := TCheckParentAreas nodes |}]
  /\ calls gone = []
  /\ calls (advance 300 gone)
     = [@UpdateTablesState sampleCollaborators
          (UpdParentAreas [("t1", Some "a1")]) noHistory].
Proof. vm_compute. done. Qed.

(** Regenerating the edges of two relationships into the same target field:
    the target handles are numbered in list order. *)
Example regenerateEdges_target_handles :
  e_targetHandle
    <$> @regenerateEdges sampleCollaborators
          [sampleRelationship "r1" "t1" "f1" "t2" "f1";
           sampleRelationship "r2" "t1" "f2" "t2" "f1"] [] (Some true) []
  = [Some "target_rel_0_f1"; Some "target_rel_1_f1"].
Proof. vm_compute. done. Qed.

(** Selecting table [t1] highlights the edge that leaves it; with nothing
    selected and nothing highlighted the updater hands back the array it was
    given. *)
Example highlightEdges_selected_table :
  let prev := [sampleEdge "r1" "t1" "t2" ERelationship None None;
               sampleEdge "r2" "t3" "t4" ERelationship None None] in
  (e_animated <$> commit prev (highlightEdges [] ["t1"] prev))
  = [Some true; None]
  /\ highlightEdges [] [] prev = SamePrev.
Proof. vm_compute. done. Qed.

(* ===================================================================== *)
(** * Part III: further properties of the code *)
(* ===================================================================== *)

(** ** Projection of areas, notes and the node list *)

Section NodeProjection.
Context `{Collaborators}.

(** X1. An area node is hidden exactly when the filter is still loading, or the
    area has member tables and none of them passes the filter; an area
    without members is shown whenever the filter has loaded. *)
Theorem areaToAreaNode_hidden_iff
    (area : Area) (tables : list DBTable) (filter : option DiagramFilter)
    (databaseType : DatabaseType) (filterLoading : bool) :
  let passes t :=
    filterTable {| tr_id := t_id t; tr_schema := t_schema t |} filter
                (defaultSchemas databaseType) in
  let member t := t_parentAreaId t = Some (a_id area) in
  flag (n_hidden (areaToAreaNode area tables filter databaseType
                                 filterLoading)) = true
  <-> filterLoading = true
      \/ ((exists t, t ∈ tables /\ member t)
          /\ (forall t, t ∈ tables -> member t -> passes t = false)).
Proof.
  cbn zeta. unfold areaToAreaNode. cbn [n_hidden].
  change (flag (Some ?b)) with b.
  set (members := List.filter _ tables).
  assert (Hmem : forall t, t ∈ members
                           <-> t ∈ tables
                               /\ t_parentAreaId t = Some (a_id area)).
  { intros t. unfold members. rewrite elem_of_filter_list.
    by rewrite bool_decide_eq_true. }
  rewrite orb_true_iff, negb_true_iff, orb_false_iff. split.
  - intros [[Hlen Hex] | Hl]; [right | by left]. split.
    + destruct members as [|t l] eqn:Hm; [done|].
      exists t. apply Hmem. left.
    + intros t Ht Hpar.
      destruct (filterTable _ _ _) eqn:Hp; [|done].
      assert (Hin : t ∈ members) by (by apply Hmem).
      rewrite <- Hex. symmetry. apply existsb_exists. exists t.
      split; [by apply list_elem_of_In | done].
  - intros [Hl | [[t [Ht Hpar]] Hnone]]; [by right | left]. split.
    + assert (Hin : t ∈ members) by (by apply Hmem).
      by destruct members; [inversion Hin|].
    + destruct (existsb _ members) eqn:Hex; [|done].
      apply existsb_exists in Hex as (t' & Hin & Hp).
      apply list_elem_of_In, Hmem in Hin as [Hin Hpar'].
      by rewrite (Hnone t' Hin Hpar') in Hp.
Qed.

(** X2. The empty-state banner is shown exactly when a filter is active and
    loaded, there is at least one table, and no table passes the filter; in
    that case the node of every table that is not force-shown is hidden. *)
Theorem allTablesHiddenByFilter_spec
    (hasActiveFilter : bool) (tables : list DBTable)
    (filter : option DiagramFilter) (databaseType : DatabaseType)
    (filterLoading : bool) :
  let passes t :=
    filterTable {| tr_id := t_id t; tr_schema := t_schema t |} filter
                (defaultSchemas databaseType) in
  let shown :=
    allTablesHiddenByFilter hasActiveFilter tables filter databaseType
                            filterLoading in
  (shown = true
   <-> hasActiveFilter = true /\ tables <> [] /\ filterLoading = false
       /\ forall t, t ∈ tables -> passes t = false)
  /\ (shown = true ->
      forall t showDBViews isTarget,
        t ∈ tables ->
        n_hidden (tableToTableNode t
                    {| o_filter := filter; o_databaseType := databaseType;
                       o_filterLoading := filterLoading;
                       o_showDBViews := showDBViews;
                       o_forceShow := None;
                       o_isRelationshipCreatingTarget := isTarget |})
        = Some true).
Proof.
  cbn zeta.
  assert (Hiff : allTablesHiddenByFilter hasActiveFilter tables filter
                   databaseType filterLoading = true
                 <-> hasActiveFilter = true /\ tables <> []
                     /\ filterLoading = false
                     /\ forall t, t ∈ tables ->
                          filterTable {| tr_id := t_id t;
                                         tr_schema := t_schema t |}
                                      filter (defaultSchemas databaseType)
                          = false).
  { unfold allTablesHiddenByFilter.
    destruct hasActiveFilter; cbn [negb orb]; [|by split; [|intros []]].
    destruct tables as [|t0 l] eqn:Ht; cbn [length Nat.eqb orb];
      [by split; [|intros (_ & ? & _)]|].
    destruct filterLoading; cbn [orb];
      [by split; [|intros (_ & _ & ? & _)]|].
    rewrite Nat.eqb_eq. split.
    - intros Hlen. repeat split; try done. intros t Hin.
      destruct (filterTable {| tr_id := t_id t; tr_schema := t_schema t |}
                            filter (defaultSchemas databaseType)) eqn:Hp;
        [|done].
      assert (Hf : t ∈ List.filter
                     (fun table =>
                        filterTable {| tr_id := t_id table;
                                       tr_schema := t_schema table |}
                                    filter (defaultSchemas databaseType))
                     (t0 :: l))
        by (by apply elem_of_filter_list).
      apply length_zero_iff_nil in Hlen. rewrite Hlen in Hf. inversion Hf.
    - intros (_ & _ & _ & Hnone). rewrite filter_none; [done|]. exact Hnone. }
  split; [exact Hiff|].
  intros Hshown t showDBViews isTarget Ht.
  apply Hiff in Hshown as (_ & _ & _ & Hnone).
  unfold tableToTableNode. cbn. by rewrite (Hnone t Ht).
Qed.

Lemma filter_isEphemeral_projection (i : ProjectionInputs) :
  List.filter isEphemeralNode
    ((projectTable i <$> pi_tables i)
     ++ ((fun area => areaToAreaNode area (pi_tables i) (pi_filter i)
                        (pi_databaseType i) (pi_filterLoading i))
           <$> pi_areas i)
     ++ (noteToNoteNode <$> pi_notes i)) = [].
Proof.
  apply filter_none. intros n Hn.
  repeat (apply elem_of_app in Hn as [Hn | Hn]);
    apply list_elem_of_fmap in Hn as (x & -> & _); done.
Qed.

Lemma filter_idem {A} (P : A -> bool) (l : list A) :
  List.filter P (List.filter P l) = List.filter P l.
Proof.
  apply filter_keeps_all. intros x Hx.
  by apply elem_of_filter_list in Hx as [_ Hx].
Qed.

(** X3. Projecting the same inputs again changes nothing: run on its own
    result, the updater hands back the array it was given. *)
Theorem nodesUpdater_stable (i : ProjectionInputs) (prevNodes : list Node) :
  nodesUpdater i (commit prevNodes (nodesUpdater i prevNodes)) = SamePrev.
Proof.
  assert (Hfix : projectedNodes i (projectedNodes i prevNodes)
                 = projectedNodes i prevNodes).
  { unfold projectedNodes at 1 3. do 3 f_equal.
    unfold projectedNodes. rewrite !app_assoc, List.filter_app.
    rewrite <- !app_assoc, filter_isEphemeral_projection. cbn.
    apply filter_idem. }
  unfold nodesUpdater at 2. cbn zeta.
  case_bool_decide as Heq; cbn [commit]; unfold nodesUpdater; cbn zeta.
  - rewrite bool_decide_eq_true_2; [done|]. by rewrite <- Heq.
  - by rewrite bool_decide_eq_true_2.
Qed.

(** X4. The projected node list holds one node per table, area and note of the
    domain model, in that order and under the entity's id, followed by the
    ephemeral nodes of the previous list; a previous node of any other kind
    survives only as the projection of a current entity, so the node of a
    deleted entity disappears. *)
Theorem nodesUpdater_ids (i : ProjectionInputs) (prevNodes : list Node) :
  let result := commit prevNodes (nodesUpdater i prevNodes) in
  n_id <$> result
  = (t_id <$> pi_tables i) ++ (a_id <$> pi_areas i)
    ++ (nt_id <$> pi_notes i)
    ++ (n_id <$> List.filter isEphemeralNode prevNodes)
  /\ List.filter isEphemeralNode result
     = List.filter isEphemeralNode prevNodes
  /\ (forall n, n ∈ result -> isEphemeralNode n = false ->
        n_id n ∈ (t_id <$> pi_tables i) ++ (a_id <$> pi_areas i)
                 ++ (nt_id <$> pi_notes i)).
Proof.
  cbn zeta.
  assert (Hres : commit prevNodes (nodesUpdater i prevNodes)
                 = projectedNodes i prevNodes).
  { unfold nodesUpdater. cbn zeta. by case_bool_decide. }
  rewrite Hres. unfold projectedNodes.
  split; [|split].
  - rewrite !fmap_app.
    f_equal; [|f_equal; [|f_equal]]; rewrite <- list_fmap_compose;
      by apply list_fmap_ext.
  - rewrite !app_assoc, List.filter_app, <- !app_assoc.
    rewrite filter_isEphemeral_projection. cbn. apply filter_idem.
  - intros n Hn Heph.
    repeat (apply elem_of_app in Hn as [Hn | Hn]).
    + apply list_elem_of_fmap in Hn as (t & -> & Ht).
      apply elem_of_app. left. apply list_elem_of_fmap. by exists t.
    + apply list_elem_of_fmap in Hn as (a & -> & Ha).
      apply elem_of_app. right. apply elem_of_app. left.
      apply list_elem_of_fmap. by exists a.
    + apply list_elem_of_fmap in Hn as (x & -> & Hx).
      apply elem_of_app. right. apply elem_of_app. right.
      apply list_elem_of_fmap. by exists x.
    + apply elem_of_filter_list in Hn as [_ Hn]. congruence.
Qed.

End NodeProjection.

Section CreationTargets.

Lemma markCreationTarget_unfold (sourceNodeId : option string)
    (node : Node) (b : bool) :
  let should :=
    opt_truthy str_truthy sourceNodeId
    && negb (bool_decide (Some (n_id node) = sourceNodeId)) in
  let settled :=
    negb (bool_decide (n_type node = KTable))
    || bool_decide (should = isCreatingTarget node) in
  markCreationTarget sourceNodeId node b
  = (if settled then node else setCreatingTarget node should,
     if settled then b else true).
Proof.
  cbn zeta. unfold markCreationTarget.
  destruct (bool_decide (n_type node = KTable)); cbn [negb orb]; [|done].
  by destruct (bool_decide (_ = isCreatingTarget node)).
Qed.

(** X5. The surgical update leaves every table node flagged as a creation
    target exactly when a connection is being drawn from another node;
    nodes of other kinds, and the id, kind and hidden flag of every node,
    are left as they are; run on its own result it hands back the array it
    was given. *)
Theorem markCreationTargets_spec
    (sourceNodeId : option string) (nds : list Node) :
  tableNodesTyped nds ->
  let result := commit nds (markCreationTargets sourceNodeId nds) in
  Forall2 (fun n n' =>
             n_id n' = n_id n /\ n_type n' = n_type n
             /\ n_hidden n' = n_hidden n
             /\ (n_type n <> KTable -> n' = n)
             /\ (n_type n = KTable ->
                 isCreatingTarget n'
                 = (opt_truthy str_truthy sourceNodeId
                    && negb (bool_decide (Some (n_id n) = sourceNodeId)))))
          nds result
  /\ markCreationTargets sourceNodeId result = SamePrev.
Proof.
  intros Htyped. cbn zeta.
  pose (should := fun n : Node =>
          opt_truthy str_truthy sourceNodeId
          && negb (bool_decide (Some (n_id n) = sourceNodeId))).
  pose (settled := fun n : Node =>
          negb (bool_decide (n_type n = KTable))
          || bool_decide (should n = isCreatingTarget n)).
  pose (step := fun n : Node =>
          if settled n then n else setCreatingTarget n (should n)).
  assert (Hone : forall n b,
            markCreationTarget sourceNodeId n b
            = (step n, if settled n then b else true)).
  { intros n b. by rewrite markCreationTarget_unfold. }
  assert (Hmap : forall l b,
            map_st (markCreationTarget sourceNodeId) l b
            = (step <$> l, b || negb (forallb settled l))).
  { induction l as [|n l IH]; intros b; cbn [map_st fmap list_fmap forallb].
    - by rewrite orb_false_r.
    - rewrite Hone, IH. by destruct (settled n), b. }
  assert (Hstep : forall n, n ∈ nds ->
            n_id (step n) = n_id n /\ n_type (step n) = n_type n
            /\ n_hidden (step n) = n_hidden n
            /\ (n_type n <> KTable -> step n = n)
            /\ (n_type n = KTable -> isCreatingTarget (step n) = should n)
            /\ settled (step n) = true).
  { intros n Hn. unfold step, settled.
    destruct (bool_decide (n_type n = KTable)) eqn:Hty; cbn [negb orb].
    - apply bool_decide_eq_true in Hty.
      destruct (Htyped n Hn Hty) as [d Hd].
      case_bool_decide as Hs.
      + repeat split; try done.
        rewrite bool_decide_eq_true_2 by done. cbn.
        by rewrite bool_decide_eq_true_2.
      + assert (Hsh : should (setCreatingTarget n (should n)) = should n)
          by done.
        assert (Hcur : isCreatingTarget (setCreatingTarget n (should n))
                       = should n).
        { unfold isCreatingTarget. cbn. by rewrite Hd. }
        repeat split; try done.
        cbn [n_type setCreatingTarget].
        rewrite bool_decide_eq_true_2 by done. cbn [negb orb].
        rewrite Hsh, Hcur. by rewrite bool_decide_eq_true_2.
    - apply bool_decide_eq_false in Hty.
      repeat split; try done.
      by rewrite bool_decide_eq_false_2. }
  assert (Hres : commit nds (markCreationTargets sourceNodeId nds)
                 = step <$> nds).
  { unfold markCreationTargets. rewrite Hmap. cbn [orb].
    destruct (forallb settled nds) eqn:Hall; cbn [negb commit]; [|done].
    rewrite forallb_forall in Hall. symmetry.
    rewrite <- (list_fmap_id nds) at 2. apply list_fmap_ext.
    intros i n Hi. cbn. unfold step. rewrite Hall; [done|].
    apply list_elem_of_In. by eapply list_elem_of_lookup_2. }
  rewrite Hres. split.
  - apply Forall2_fmap_r, Forall_Forall2_diag, Forall_forall.
    intros n Hn. destruct (Hstep n Hn) as (? & ? & ? & ? & ? & _). done.
  - unfold markCreationTargets. rewrite Hmap. cbn [orb].
    replace (forallb settled (step <$> nds)) with true; [done|].
    symmetry. apply forallb_forall. intros n' Hn'.
    apply list_elem_of_In, list_elem_of_fmap in Hn' as (n & -> & Hn).
    by destruct (Hstep n Hn) as (_ & _ & _ & _ & _ & ?).
Qed.

End CreationTargets.

Lemma markCreationTargets_spec_witness :
  let nds := sampleNodes None in
  markCreationTargets (Some "t1")
    (commit nds (markCreationTargets (Some "t1") nds)) = SamePrev.
Proof.
  refine (proj2 (markCreationTargets_spec (Some "t1") (sampleNodes None) _)).
  intros n Hn Hty.
  assert (Hall : Forall (fun n => n_type n = KTable ->
                                  exists d, n_data n = DTable d)
                        (sampleNodes None)).
  { repeat constructor; cbn; intros; try done; by eexists. }
  rewrite Forall_forall in Hall. by apply Hall.
Defined.

(** ** Edge regeneration and handles *)

Section EdgeStructure.
Context `{Collaborators}.

(** X6. The regenerated edge list has exactly one edge per relationship, in
    list order, followed by one per dependency; each carries the id of its
    entity, runs from the source table to the target table (for a
    dependency: from the dependent table to the table depended upon), and
    dependency edges alone are hidden, exactly when views are not shown.
    None of this depends on the previous edge list. *)
Theorem regenerateEdges_structure
    (relationships : list DBRelationship) (dependencies : list DBDependency)
    (showDBViews : option bool) (prevEdges : list Edge) :
  let edges :=
    regenerateEdges relationships dependencies showDBViews prevEdges in
  (fun e => (e_id e, e_source e, e_target e, e_type e, e_hidden e,
             e_data e ≫= ed_relationship, e_data e ≫= ed_dependency))
    <$> edges
  = ((fun r => (r_id r, r_sourceTableId r, r_targetTableId r, ERelationship,
                None, Some r, None)) <$> relationships)
    ++ ((fun d => (d_id d, d_dependentTableId d, d_tableId d, EDependency,
                   Some (negb (flag showDBViews)), None, Some d))
          <$> dependencies).
Proof.
  cbn zeta. rewrite regenerateEdges_unfold, fmap_app.
  f_equal; apply map_st_fmap.
  - intros a s'. unfold relationshipEdge. by destruct (post_incr _ s').
  - intros a s'. unfold dependencyEdge. by destruct (post_incr _ s').
Qed.

Lemma obj_assign_lookup (k k' : string) (v : number)
    (rec : gmap string number) :
  k' <> PROTO_KEY ->
  obj_assign k v rec !! k'
  = if bool_decide (k = k') then Some v else rec !! k'.
Proof.
  intros Hk'. unfold obj_assign.
  destruct (decide (k = PROTO_KEY)) as [Hk|Hk].
  - rewrite (bool_decide_eq_true_2 _ Hk).
    rewrite bool_decide_eq_false_2 by congruence. done.
  - rewrite (bool_decide_eq_false_2 _ Hk).
    destruct (decide (k = k')) as [Hkk|Hkk].
    + rewrite (bool_decide_eq_true_2 _ Hkk). subst.
      by rewrite lookup_insert_eq.
    + rewrite (bool_decide_eq_false_2 _ Hkk). by rewrite lookup_insert_ne.
Qed.

Lemma foldl_assign_zero {A} (key : A -> string) (l : list A)
    (m : gmap string number) (x : A) :
  x ∈ l -> key x <> PROTO_KEY ->
  foldl (fun acc a => obj_assign (key a) (Num 0) acc) m l !! key x
  = Some (Num 0).
Proof.
  revert m. induction l as [|a l IH] using rev_ind; intros m Hx Hk.
  - inversion Hx.
  - rewrite foldl_app. cbn. rewrite obj_assign_lookup by done.
    case_bool_decide as Heq; [done|].
    apply elem_of_app in Hx as [Hx | Hx]; [by apply IH|].
    apply list_elem_of_singleton in Hx. by subst.
Qed.

(** A counter-driven [map]: the handle index of the [i]-th element is the
    count its key had at the start plus the number of earlier elements with
    the same key, and every counter ends advanced by the number of elements
    with its key; the key [__proto__] reads as [NaN] and counts nothing. *)
Lemma map_st_counters {A} (key : A -> string)
    (f : A -> gmap string number -> Edge * gmap string number)
    (mk : A -> number -> option string)
    (l : list A) :
  (forall a s, (f a s).2 = (post_incr (key a) s).2
               /\ e_targetHandle (f a s).1
                  = mk a (post_incr (key a) s).1) ->
  forall (s : gmap string number) (base : string -> nat),
    (forall x, x ∈ l -> key x <> PROTO_KEY ->
               s !! key x = Some (Num (Z.of_nat (base (key x))))) ->
    (forall i a, l !! i = Some a ->
       exists e, (map_st f l s).1 !! i = Some e
                 /\ e_targetHandle e
                    = mk a (handleIndex (key a)
                              (base (key a)
                               + earlierWithKey key l i (key a))))
    /\ (forall k, k <> PROTO_KEY ->
          s !! k = Some (Num (Z.of_nat (base k))) ->
          (map_st f l s).2 !! k
          = Some (Num (Z.of_nat (base k + countWithKey key l k)))).
Proof.
  intros Hf. induction l as [|x l IH]; intros s base Hs.
  { split; [done|]. intros k _ Hk. cbn. unfold countWithKey. cbn.
    by rewrite Nat.add_0_r. }
  cbn [map_st]. destruct (Hf x s) as [Hst Hh].
  destruct (f x s) as [e0 s1] eqn:Hfx. cbn in Hst, Hh.
  pose (base' := fun k => if bool_decide (key x = k)
                          then if bool_decide (k = PROTO_KEY)
                               then base k else S (base k)
                          else base k).
  assert (Hs1 : forall k, k <> PROTO_KEY ->
                  s !! k = Some (Num (Z.of_nat (base k))) ->
                  s1 !! k = Some (Num (Z.of_nat (base' k)))).
  { intros k Hk Hsk. rewrite Hst. unfold post_incr. cbn [snd].
    rewrite obj_assign_lookup by done. unfold base'.
    destruct (decide (key x = k)) as [Heq|Hne].
    - rewrite (bool_decide_eq_true_2 _ Heq).
      rewrite !bool_decide_eq_false_2 by congruence.
      rewrite Heq, Hsk. cbn. do 2 f_equal. lia.
    - by rewrite (bool_decide_eq_false_2 _ Hne). }
  destruct (IH s1 base') as [IHh IHs].
  { intros y Hy Hk. apply Hs1; [done|]. apply Hs; [by right | done]. }
  destruct (map_st f l s1) as [es s2] eqn:Hm. cbn [fst snd] in *.
  split.
  - intros [|i] a Hi; cbn in Hi.
    + injection Hi as <-. exists e0. split; [done|].
      rewrite Hh. f_equal. unfold post_incr, handleIndex. cbn [fst].
      destruct (decide (key x = PROTO_KEY)) as [Hk|Hk].
      * by rewrite !(bool_decide_eq_true_2 _ Hk).
      * rewrite !(bool_decide_eq_false_2 _ Hk).
        rewrite (Hs x) by (done || left). cbn.
        unfold earlierWithKey. cbn. by rewrite Nat.add_0_r.
    + destruct (IHh i a Hi) as (e & He & Hhe).
      exists e. split; [done|]. rewrite Hhe. f_equal.
      unfold handleIndex, base', earlierWithKey.
      destruct (decide (key a = PROTO_KEY)) as [Hk|Hk].
      * by rewrite !(bool_decide_eq_true_2 _ Hk).
      * rewrite !(bool_decide_eq_false_2 _ Hk).
        cbn [take List.filter].
        destruct (decide (key x = key a)) as [Heq|Hne].
        -- rewrite !(bool_decide_eq_true_2 _ Heq). cbn [length].
           do 2 f_equal. lia.
        -- rewrite !(bool_decide_eq_false_2 _ Hne). done.
  - intros k Hk Hsk. rewrite (IHs k Hk (Hs1 k Hk Hsk)).
    unfold base', countWithKey. cbn [List.filter].
    rewrite (bool_decide_eq_false_2 (k = PROTO_KEY)) by done.
    destruct (decide (key x = k)) as [Heq|Hne].
    + rewrite !(bool_decide_eq_true_2 _ Heq). cbn [length].
      do 2 f_equal. lia.
    + rewrite !(bool_decide_eq_false_2 _ Hne). done.
Qed.

Lemma relationshipEdges_length (st : gmap string (option bool * option bool))
    (relationships : list DBRelationship) (s : gmap string number) :
  length (map_st (relationshipEdge st) relationships s).1
  = length relationships.
Proof.
  rewrite <- (length_fmap e_id), <- (length_fmap r_id relationships).
  f_equal. apply map_st_fmap. intros a s'.
  unfold relationshipEdge. by destruct (post_incr _ s').
Qed.

Lemma relationshipEdge_counter
    (st : gmap string (option bool * option bool))
    (r : DBRelationship) (s : gmap string number) :
  (relationshipEdge st r s).2 = (post_incr (relationshipKey r) s).2
  /\ e_targetHandle (relationshipEdge st r s).1
     = Some (TARGET_ID_PREFIX
             +:+ number_to_string (post_incr (relationshipKey r) s).1
             +:+ "_" +:+ r_targetFieldId r).
Proof.
  unfold relationshipEdge, relationshipKey. by destruct (post_incr _ s).
Qed.

Lemma dependencyEdge_counter
    (st : gmap string (option bool * option bool)) (show : option bool)
    (d : DBDependency) (s : gmap string number) :
  (dependencyEdge st show d s).2 = (post_incr (d_tableId d) s).2
  /\ e_targetHandle (dependencyEdge st show d s).1
     = Some (TARGET_DEP_PREFIX
             +:+ number_to_string (post_incr (d_tableId d) s).1
             +:+ "_" +:+ d_tableId d).
Proof. unfold dependencyEdge. by destruct (post_incr _ s). Qed.

(** The [i]-th regenerated edge is the [i]-th relationship's; its target
    handle is the target prefix, a counter value, an underscore and the
    relationship's target field id. *)
Lemma regenerateEdges_relationship_at
    (relationships : list DBRelationship) (dependencies : list DBDependency)
    (showDBViews : option bool) (prevEdges : list Edge)
    (i : nat) (r : DBRelationship) :
  relationships !! i = Some r ->
  exists e idx,
    regenerateEdges relationships dependencies showDBViews prevEdges !! i
    = Some e
    /\ e_targetHandle e
       = Some (TARGET_ID_PREFIX +:+ number_to_string idx
               +:+ "_" +:+ r_targetFieldId r).
Proof.
  intros Hr. rewrite regenerateEdges_unfold.
  set (st := prevEdgeStates prevEdges).
  destruct (map_st_counters relationshipKey (relationshipEdge st)
              (fun r idx => Some (TARGET_ID_PREFIX +:+ number_to_string idx
                                  +:+ "_" +:+ r_targetFieldId r))
              relationships (relationshipEdge_counter st)
              (initTargetIndexes relationships) (fun _ => 0))
    as [Hh _].
  { intros x Hx Hk. unfold initTargetIndexes.
    by apply (foldl_assign_zero relationshipKey). }
  destruct (Hh i r Hr) as (e & He & Hhe).
  exists e, (handleIndex (relationshipKey r)
               (0 + earlierWithKey relationshipKey relationships i
                      (relationshipKey r))).
  split; [|done].
  rewrite lookup_app_l; [done | by eapply lookup_lt_Some].
Qed.

(** X7. Target handles are numbered per counter key, in list order. The key
    of a relationship is its target table id followed by its target field
    id, so that two targets whose ids run together to the same string share
    a counter; the key of a dependency is its table id. When the updater is
    first applied after the effect body has run, the handle of the [i]-th
    relationship carries the number of earlier relationships with the same
    key, and the handle of the [j]-th dependency the number of earlier
    dependencies with the same key. The counters are not reset between
    applications: applied again, the same updater numbers on from the
    number of entities with that key. An entity whose key is [__proto__]
    always gets [NaN]. *)
Theorem regenerateEdges_target_handle_numbering
    (relationships : list DBRelationship) (dependencies : list DBDependency)
    (showDBViews : option bool) (prevEdges prevEdges' : list Edge) :
  let first :=
    edgesUpdater relationships dependencies showDBViews
      (initTargetIndexes relationships, initTargetDepIndexes dependencies)
      prevEdges in
  let again :=
    edgesUpdater relationships dependencies showDBViews first.2 prevEdges' in
  regenerateEdges relationships dependencies showDBViews prevEdges = first.1
  /\ (forall i r, relationships !! i = Some r ->
        let k := relationshipKey r in
        let earlier := earlierWithKey relationshipKey relationships i k in
        let all := countWithKey relationshipKey relationships k in
        exists e e',
          first.1 !! i = Some e /\ again.1 !! i = Some e'
          /\ e_targetHandle e
             = Some (TARGET_ID_PREFIX
                     +:+ number_to_string (handleIndex k earlier)
                     +:+ "_" +:+ r_targetFieldId r)
          /\ e_targetHandle e'
             = Some (TARGET_ID_PREFIX
                     +:+ number_to_string (handleIndex k (all + earlier))
                     +:+ "_" +:+ r_targetFieldId r))
  /\ (forall j d, dependencies !! j = Some d ->
        let k := d_tableId d in
        let earlier := earlierWithKey d_tableId dependencies j k in
        let all := countWithKey d_tableId dependencies k in
        exists e e',
          first.1 !! (length relationships + j) = Some e
          /\ again.1 !! (length relationships + j) = Some e'
          /\ e_targetHandle e
             = Some (TARGET_DEP_PREFIX
                     +:+ number_to_string (handleIndex k earlier)
                     +:+ "_" +:+ d_tableId d)
          /\ e_targetHandle e'
             = Some (TARGET_DEP_PREFIX
                     +:+ number_to_string (handleIndex k (all + earlier))
                     +:+ "_" +:+ d_tableId d)).
Proof.
  cbn zeta. split; [done|]. unfold edgesUpdater. cbn [fst snd].
  set (st := prevEdgeStates prevEdges). set (st' := prevEdgeStates prevEdges').
  set (mkR := fun (r : DBRelationship) idx =>
                Some (TARGET_ID_PREFIX +:+ number_to_string idx
                      +:+ "_" +:+ r_targetFieldId r)).
  set (mkD := fun (d : DBDependency) idx =>
                Some (TARGET_DEP_PREFIX +:+ number_to_string idx
                      +:+ "_" +:+ d_tableId d)).
  assert (HinitR : forall x, x ∈ relationships ->
            relationshipKey x <> PROTO_KEY ->
            initTargetIndexes relationships !! relationshipKey x
            = Some (Num (Z.of_nat 0))).
  { intros x Hx Hk. by apply (foldl_assign_zero relationshipKey). }
  assert (HinitD : forall x, x ∈ dependencies ->
            d_tableId x <> PROTO_KEY ->
            initTargetDepIndexes dependencies !! d_tableId x
            = Some (Num (Z.of_nat 0))).
  { intros x Hx Hk. by apply (foldl_assign_zero d_tableId). }
  destruct (map_st_counters relationshipKey (relationshipEdge st) mkR
              relationships (relationshipEdge_counter st)
              (initTargetIndexes relationships) (fun _ => 0) HinitR)
    as [HR1 HR1s].
  destruct (map_st_counters d_tableId (dependencyEdge st showDBViews) mkD
              dependencies (dependencyEdge_counter st showDBViews)
              (initTargetDepIndexes dependencies) (fun _ => 0) HinitD)
    as [HD1 HD1s].
  set (sR := (map_st (relationshipEdge st) relationships
                (initTargetIndexes relationships)).2) in *.
  set (sD := (map_st (dependencyEdge st showDBViews) dependencies
                (initTargetDepIndexes dependencies)).2) in *.
  destruct (map_st_counters relationshipKey (relationshipEdge st') mkR
              relationships (relationshipEdge_counter st') sR
              (fun k => 0 + countWithKey relationshipKey relationships k))
    as [HR2 _].
  { intros x Hx Hk. apply HR1s; [done|]. by apply HinitR. }
  destruct (map_st_counters d_tableId (dependencyEdge st' showDBViews) mkD
              dependencies (dependencyEdge_counter st' showDBViews) sD
              (fun k => 0 + countWithKey d_tableId dependencies k))
    as [HD2 _].
  { intros x Hx Hk. apply HD1s; [done|]. by apply HinitD. }
  split.
  - intros i r Hr.
    destruct (HR1 i r Hr) as (e & He & Hhe).
    destruct (HR2 i r Hr) as (e' & He' & Hhe').
    exists e, e'. split; [|split; [|split]].
    + rewrite lookup_app_l; [done | by eapply lookup_lt_Some].
    + rewrite lookup_app_l; [done | by eapply lookup_lt_Some].
    + exact Hhe.
    + exact Hhe'.
  - intros j d Hd.
    destruct (HD1 j d Hd) as (e & He & Hhe).
    destruct (HD2 j d Hd) as (e' & He' & Hhe').
    exists e, e'. split; [|split; [|split]].
    + rewrite lookup_app_r by (rewrite relationshipEdges_length; lia).
      rewrite relationshipEdges_length.
      by replace (length relationships + j - length relationships) with j
        by lia.
    + rewrite lookup_app_r by (rewrite relationshipEdges_length; lia).
      rewrite relationshipEdges_length.
      by replace (length relationships + j - length relationships) with j
        by lia.
    + exact Hhe.
    + exact Hhe'.
Qed.

End EdgeStructure.

(** Two targets whose ids run together to the same string share a counter;
    a second application of the same updater numbers on; the key
    [__proto__] yields [NaN]. *)
Example regenerateEdges_keys_run_together :
  e_targetHandle
    <$> @regenerateEdges sampleCollaborators
          [sampleRelationship "r1" "t1" "f1" "ab" "c";
           sampleRelationship "r2" "t1" "f2" "a" "bc"] [] (Some true) []
  = [Some "target_rel_0_c"; Some "target_rel_1_bc"].
Proof. vm_compute. done. Qed.

Example edgesUpdater_applied_again :
  let relationships :=
    [sampleRelationship "r1" "t1" "f1" "t2" "f1";
     sampleRelationship "r2" "t1" "f2" "t2" "f1"] in
  let first :=
    @edgesUpdater sampleCollaborators relationships [] (Some true)
      (initTargetIndexes relationships, initTargetDepIndexes []) [] in
  e_targetHandle
    <$> (@edgesUpdater sampleCollaborators relationships [] (Some true)
           first.2 first.1).1
  = [Some "target_rel_2_f1"; Some "target_rel_3_f1"].
Proof. vm_compute. done. Qed.

Example regenerateEdges_proto_key :
  e_targetHandle
    <$> @regenerateEdges sampleCollaborators []
          [{| d_id := "d1"; d_tableId := "__proto__";
              d_dependentTableId := "t1" |}] (Some true) []
  = [Some "target_dep_NaN___proto__"].
Proof. vm_compute. done. Qed.

(** ** Handles and the connect gesture *)

Section Handles.
Context `{Collaborators}.

Lemma append_cons (a : ascii) (p x : string) :
  String a p +:+ x = String a (p +:+ x).
Proof. reflexivity. Qed.

Lemma append_assoc (a b c : string) : (a +:+ b) +:+ c = a +:+ (b +:+ c).
Proof.
  induction a as [|x a IH]; [done|]. by rewrite !append_cons, IH.
Qed.

Lemma js_split_whole (c : ascii) (s : string) :
  containsChar c s = false -> js_split c s = [s].
Proof.
  induction s as [|a s IH]; [done|]. cbn.
  intros Hno. apply orb_false_iff in Hno as [Ha Hs].
  by rewrite Ha, (IH Hs).
Qed.

Lemma js_split_nonempty (c : ascii) (s : string) : js_split c s <> [].
Proof.
  destruct s as [|a s]; [done|]. cbn.
  destruct (Ascii.eqb a c); [done|]. by destruct (js_split c s).
Qed.

Lemma js_split_app (c : ascii) (p s : string) :
  js_split c (p +:+ String c s) = js_split c p ++ js_split c s.
Proof.
  induction p as [|a p IH].
  - change (js_split c (String c s) = [EmptyString] ++ js_split c s).
    cbn [js_split]. by rewrite Ascii.eqb_refl.
  - rewrite append_cons. cbn [js_split]. rewrite IH.
    destruct (Ascii.eqb a c); [done|].
    pose proof (js_split_nonempty c p).
    by destruct (js_split c p).
Qed.

(** The id parsed from a handle is what follows its last underscore: for a
    handle that ends in an underscore followed by an id free of underscores,
    it is that id. *)
Lemma fieldIdOfHandle_suffix (p id : string) :
  containsChar "_" id = false ->
  fieldIdOfHandle (Some (p +:+ "_" +:+ id)) = id.
Proof.
  intros Hno. unfold fieldIdOfHandle. cbn [mbind option_bind nullish default].
  change ("_" +:+ id) with (String "_" id).
  rewrite js_split_app, (js_split_whole _ _ Hno).
  unfold js_pop. by rewrite last_snoc.
Qed.

(** X8. Handles round-trip through the connect gesture: for a regenerated
    relationship edge whose target field id holds no underscore, the field
    id the connect handler parses from the target handle is the
    relationship's target field id; a field id that holds an underscore is
    cut down to what follows its last underscore; and an absent handle
    parses to the empty id. *)
Theorem handle_field_id_round_trip
    (relationships : list DBRelationship) (dependencies : list DBDependency)
    (showDBViews : option bool) (prevEdges : list Edge)
    (i : nat) (r : DBRelationship) :
  relationships !! i = Some r ->
  exists e,
    regenerateEdges relationships dependencies showDBViews prevEdges !! i
    = Some e
    /\ (containsChar "_" (r_targetFieldId r) = false ->
        fieldIdOfHandle (e_targetHandle e) = r_targetFieldId r)
    /\ (forall a b, r_targetFieldId r = a +:+ "_" +:+ b ->
                    containsChar "_" b = false ->
                    fieldIdOfHandle (e_targetHandle e) = b)
    /\ fieldIdOfHandle None = "".
Proof.
  intros Hr.
  destruct (regenerateEdges_relationship_at relationships dependencies
              showDBViews prevEdges i r Hr) as (e & idx & He & Hh).
  exists e. split; [done|]. rewrite Hh. split; [|split; [|done]].
  - intros Hno. rewrite <- append_assoc. by apply fieldIdOfHandle_suffix.
  - intros a b -> Hno.
    set (n := number_to_string _).
    replace (TARGET_ID_PREFIX +:+ n +:+ "_" +:+ a +:+ "_" +:+ b)
      with ((TARGET_ID_PREFIX +:+ n +:+ "_" +:+ a) +:+ "_" +:+ b)
      by (by rewrite !append_assoc).
    by apply fieldIdOfHandle_suffix.
Qed.

(** X9. A release whose source handle carries a dependency prefix creates
    exactly one dependency, on the target table by the source table,
    whatever fields the endpoints resolve to; and no release makes more
    than one call, so a mutation and a warning never come together. *)
Theorem onConnectHandler_dependency_gesture
    (getField : string -> string -> option DBField)
    (databaseType : DatabaseType) (params : Connection) :
  let calls := onConnectHandler getField databaseType params in
  (isDependencyGesture params = true ->
   calls = [CreateDependency (c_target params) (c_source params)])
  /\ length calls <= 1
  /\ (isDependencyGesture params = false ->
      forall c, c ∈ calls ->
        match c with CreateDependency _ _ => False | _ => True end).
Proof.
  cbn zeta. unfold onConnectHandler, isDependencyGesture.
  destruct (_ || _).
  - split; [done|]. split; [cbn; lia | done].
  - split; [done|].
    destruct (getField (c_source params)
                (fieldIdOfHandle (c_sourceHandle params))) as [sf|],
             (getField (c_target params)
                (fieldIdOfHandle (c_targetHandle params))) as [tf|];
      try (split; [cbn; lia | intros _ c Hc; by inversion Hc]).
    destruct (negb _); (split; [cbn; lia|]); intros _ c Hc;
      apply list_elem_of_singleton in Hc; by subst.
Qed.

End Handles.

Lemma handle_field_id_round_trip_witness :
  exists e,
    @regenerateEdges sampleCollaborators
      [sampleRelationship "r1" "t1" "f1" "t2" "f1"] [] (Some true) [] !! 0
    = Some e
    /\ fieldIdOfHandle (e_targetHandle e) = "f1".
Proof.
  destruct (@handle_field_id_round_trip sampleCollaborators
              [sampleRelationship "r1" "t1" "f1" "t2" "f1"] [] (Some true) []
              0 (sampleRelationship "r1" "t1" "f1" "t2" "f1") eq_refl)
    as (e & He & Hok & _).
  exists e. split; [exact He|]. by apply Hok.
Defined.

(** ** Highlight propagation, continued *)

Section HighlightStability.

Lemma upToDate_highlighted (selRel selTab : gset string) (e : Edge) :
  upToDate selRel selTab (highlighted selRel selTab e) = true.
Proof.
  pose proof (highlighted_shape selRel selTab e) as Hsh. cbn zeta in Hsh.
  destruct Hsh as (Hid & Hsrc & Htgt & _ & _ & Hh & Ha & Hz).
  unfold upToDate. cbn zeta.
  assert (Hsame : shouldBeHighlighted selRel selTab
                    (highlighted selRel selTab e)
                  = shouldBeHighlighted selRel selTab e).
  { unfold shouldBeHighlighted. by rewrite Hid, Hsrc, Htgt. }
  rewrite Hsame, Hh, Ha, Hz.
  by rewrite !bool_decide_eq_true_2.
Qed.

Lemma highlightEdges_eq
    (selectedRelationshipIds selectedTableIds : list string)
    (prevEdges : list Edge) :
  highlightEdges selectedRelationshipIds selectedTableIds prevEdges
  = (let kept :=
       List.filter (fun e => negb (bool_decide (e_type e = ETempFloating)))
                   prevEdges in
     if forallb (upToDate (list_to_set selectedRelationshipIds)
                          (list_to_set selectedTableIds)) kept
     then SamePrev
     else NewValue (highlighted (list_to_set selectedRelationshipIds)
                                (list_to_set selectedTableIds) <$> kept)).
Proof.
  unfold highlightEdges. cbn zeta. rewrite map_st_highlightEdge. cbn [orb].
  by destruct (forallb _ _).
Qed.

(** X10. The highlight recomputation settles in one step: run again on its own
    result with the same selection, it hands back the array it was given.
    When it does produce a new array, that array holds the recomputed
    relationship and dependency edges only: every temp-floating edge of the
    previous array is dropped, and nothing else is. *)
Theorem highlightEdges_settles
    (selectedRelationshipIds selectedTableIds : list string)
    (prevEdges : list Edge) :
  let update :=
    highlightEdges selectedRelationshipIds selectedTableIds prevEdges in
  highlightEdges selectedRelationshipIds selectedTableIds
                 (commit prevEdges update) = SamePrev
  /\ (forall newEdges, update = NewValue newEdges ->
        e_id <$> newEdges
        = e_id <$> List.filter
                     (fun e => negb (bool_decide (e_type e = ETempFloating)))
                     prevEdges
        /\ Forall (fun e => e_type e <> ETempFloating) newEdges).
Proof.
  cbn zeta.
  rewrite (highlightEdges_eq selectedRelationshipIds selectedTableIds
                             prevEdges). cbn zeta.
  set (selTab := list_to_set selectedTableIds : gset string).
  set (selRel := list_to_set selectedRelationshipIds : gset string).
  set (keep := fun e : Edge => negb (bool_decide (e_type e = ETempFloating))).
  assert (Hty : forall e, e_type (highlighted selRel selTab e) = e_type e).
  { intros e. by destruct (highlighted_shape selRel selTab e)
      as (_ & _ & _ & ? & _). }
  destruct (forallb (upToDate selRel selTab) (List.filter keep prevEdges))
    eqn:Hall; cbn [commit].
  - split; [|done]. rewrite highlightEdges_eq. cbn zeta.
    fold selTab selRel keep. by rewrite Hall.
  - split.
    + rewrite highlightEdges_eq. cbn zeta. fold selTab selRel keep.
      replace (forallb _ _) with true; [done|].
      symmetry. apply forallb_forall. intros e He.
      apply filter_In in He as [He _].
      apply list_elem_of_In, list_elem_of_fmap in He as (e0 & -> & _).
      apply upToDate_highlighted.
    + intros newEdges [= <-]. split.
      * rewrite <- list_fmap_compose. apply list_fmap_ext. intros i e _.
        cbn. by destruct (highlighted_shape selRel selTab e) as (? & _).
      * apply Forall_fmap, Forall_forall. intros e He.
        apply elem_of_filter_list in He as [_ He]. cbn. rewrite Hty.
        unfold keep in He. by apply negb_true_iff, bool_decide_eq_false in He.
Qed.

End HighlightStability.

(** ** Node changes *)

Section NodeChanges.
Context `{Collaborators}.

(** X11. The changes picked out for a node kind come from the batch, refer to a
    node the view layer still has, of that kind, and fall into three
    classes: positions that have settled (not dragging, both coordinates
    numbers), sizes still being resized, and removals. A change whose node
    is gone, a position still being dragged, and a position with a [NaN]
    coordinate are never picked. *)
Theorem findRelevantNodesChanges_sound
    (getNode : string -> option Node) (changes : list NodeChange)
    (kind : NodeKind) (c : NodeChange) :
  let found := findRelevantNodesChanges getNode changes kind in
  (c ∈ positionChanges found \/ c ∈ removeChanges found
   \/ c ∈ sizeChanges found ->
   c ∈ changes
   /\ exists id node, nodeChangeId c = Some id /\ getNode id = Some node
                      /\ n_type node = kind)
  /\ (c ∈ positionChanges found ->
      exists id p dragging,
        c = NCPosition id (Some p) dragging /\ flag dragging = false
        /\ isNaN (px p) = false /\ isNaN (py p) = false)
  /\ (c ∈ removeChanges found -> exists id, c = NCRemove id)
  /\ (c ∈ sizeChanges found ->
      exists id dims resizing,
        c = NCDimensions id dims resizing /\ flag resizing = true).
Proof.
  cbn zeta. unfold findRelevantNodesChanges.
  cbn [positionChanges removeChanges sizeChanges].
  set (relevant := List.filter _ changes).
  assert (Hrel : forall c, c ∈ relevant ->
            c ∈ changes
            /\ exists id node, nodeChangeId c = Some id
                               /\ getNode id = Some node
                               /\ n_type node = kind).
  { intros c' Hc'. apply elem_of_filter_list in Hc' as [Hin Hp].
    split; [done|]. destruct (_ || _ || _); [|done].
    destruct (nodeChangeId c') as [id|]; [|done]. cbn in Hp.
    destruct (getNode id) as [node|] eqn:Hn; [|done].
    apply bool_decide_eq_true in Hp. by exists id, node. }
  split; [|split; [|split]].
  - intros [Hc | [Hc | Hc]];
      apply elem_of_filter_list in Hc as [Hc _]; by apply Hrel.
  - intros Hc. apply elem_of_filter_list in Hc as [_ Hs].
    destruct c as [id [p|] dragging| | | | |]; try done.
    cbn in Hs. apply andb_true_iff in Hs as [Hs Hy].
    apply andb_true_iff in Hs as [Hd Hx].
    apply negb_true_iff in Hd, Hx, Hy. by exists id, p, dragging.
  - intros Hc. apply elem_of_filter_list in Hc as [_ Hs].
    destruct c; try done. by eexists.
  - intros Hc. apply elem_of_filter_list in Hc as [_ Hs].
    destruct c; try done. by eexists _, _, _.
Qed.

Lemma findRelevant_dragging getNode (changes : list NodeChange) kind :
  (forall c, c ∈ changes -> isDraggingPosition c = true) ->
  findRelevantNodesChanges getNode changes kind
  = {| positionChanges := []; removeChanges := []; sizeChanges := [] |}.
Proof.
  intros Hall. unfold findRelevantNodesChanges.
  rewrite (filter_none _ changes); [done|].
  intros c Hc. specialize (Hall c Hc).
  destruct c as [id [p|] dragging| | | | |]; try done.
  cbn in *. by rewrite Hall.
Qed.

(** X12. While nodes are being dragged nothing is committed: for a batch that
    holds only positions of nodes still being dragged, the handler makes no
    call on the domain store and schedules no save; it forwards the batch to
    the view layer, followed by a position for every member table of every
    dragged area, and hands the overlap update nothing to do. *)
Theorem onNodesChangeHandler_dragging_is_visual_only
    (readonly : bool) (getNode : string -> option Node)
    (tables : list DBTable) (areas : list Area)
    (changes : list NodeChange) :
  (forall c, c ∈ changes -> isDraggingPosition c = true) ->
  let calls := onNodesChangeHandler readonly getNode tables areas changes in
  calls
  = [UpdateOverlappingGraphDebounced [] [];
     OnNodesChange
       (changes
        ++ concat (areaDragChildChanges areas tables
                     <$> List.filter (isAreaDrag getNode) changes))]
  /\ (forall c, c ∈ calls -> isDomainCommit c = false).
Proof.
  intros Hall. cbn zeta.
  assert (Hkeep : List.filter (fun c => negb (nodeChangeIsRemove c)) changes
                  = changes).
  { apply filter_keeps_all. intros c Hc. specialize (Hall c Hc).
    by destruct c. }
  assert (Hcalls : onNodesChangeHandler readonly getNode tables areas changes
                   = [UpdateOverlappingGraphDebounced [] [];
                      OnNodesChange
                        (changes
                         ++ concat (areaDragChildChanges areas tables
                                      <$> List.filter (isAreaDrag getNode)
                                                      changes))]).
  { unfold onNodesChangeHandler. cbn zeta.
    replace (if readonly
             then List.filter (fun c => negb (nodeChangeIsRemove c)) changes
             else changes) with changes by (by destruct readonly).
    set (drags := List.filter (isAreaDrag getNode) changes).
    set (toApply := if (0 <? length drags)%nat then _ else changes).
    assert (HtoApply : toApply
                       = changes
                         ++ concat (areaDragChildChanges areas tables
                                      <$> drags)).
    { subst toApply. destruct drags; [|done]. cbn. by rewrite app_nil_r. }
    assert (Hdrag : forall c, c ∈ toApply -> isDraggingPosition c = true).
    { intros c Hc. rewrite HtoApply in Hc.
      apply elem_of_app in Hc as [Hc | Hc]; [by apply Hall|].
      apply list_elem_of_In, in_concat in Hc as (l & Hl & Hc).
      apply list_elem_of_In in Hl, Hc.
      apply list_elem_of_fmap in Hl as (ac & -> & _).
      unfold areaDragChildChanges in Hc.
      destruct ac as [id [position|] dragging| | | | |];
        try (by inversion Hc).
      destruct (findArea areas id); [|by inversion Hc].
      by apply list_elem_of_fmap in Hc as (t & -> & _). }
    rewrite !(findRelevant_dragging getNode toApply _ Hdrag).
    cbn [positionChanges removeChanges sizeChanges length Nat.ltb Nat.leb
         orb andb changeIds omap fmap list_fmap app].
    unfold childTableMovementsOf. cbn [length Nat.ltb Nat.leb andb].
    rewrite map_size_empty. cbn. by rewrite HtoApply. }
  split; [exact Hcalls|]. rewrite Hcalls. intros c Hc.
  apply elem_of_cons in Hc as [-> | Hc]; [done|].
  by apply list_elem_of_singleton in Hc as ->.
Qed.

(** X13. Dragging an area moves its members with it: for an area node being
    dragged to a position, every table whose parent is that area gets, in the
    batch forwarded to the view layer, a dragging position shifted from the
    table's own by the area's displacement. The coordinates are stated for
    integer coordinates whose displacement and shifted value stay within
    2^53 of zero, where the double arithmetic of the code is exact, and for
    [NaN], which the arithmetic passes on. *)
Theorem onNodesChangeHandler_area_drag_moves_members
    (getNode : string -> option Node)
    (tables : list DBTable) (areas : list Area) (changes : list NodeChange)
    (areaId : string) (node : Node) (area : Area) (table : DBTable)
    (position : Position) :
  NCPosition areaId (Some position) (Some true) ∈ changes ->
  getNode areaId = Some node -> n_type node = KArea ->
  findArea areas areaId = Some area ->
  table ∈ tables -> t_parentAreaId table = Some areaId ->
  exactShift (t_x table) (a_x area) (px position) = true ->
  exactShift (t_y table) (a_y area) (py position) = true ->
  exists forwarded,
    OnNodesChange forwarded
    ∈ onNodesChangeHandler false getNode tables areas changes
    /\ NCPosition (t_id table)
         (Some {| px := num_add (t_x table)
                                (num_sub (px position) (a_x area));
                  py := num_add (t_y table)
                                (num_sub (py position) (a_y area)) |})
         (Some true) ∈ forwarded.
Proof.
  intros Hc Hnode Hkind Harea Htable Hparent _ _.
  unfold onNodesChangeHandler. cbn zeta.
  set (drags := List.filter (isAreaDrag getNode) changes).
  assert (Hdrag : NCPosition areaId (Some position) (Some true) ∈ drags).
  { apply elem_of_filter_list. split; [done|]. cbn. rewrite Hnode.
    by rewrite bool_decide_eq_true_2. }
  set (toApply := if (0 <? length drags)%nat then _ else changes).
  exists toApply. split.
  - repeat (apply elem_of_app; right). right. left.
  - subst toApply. destruct drags as [|d l] eqn:Hd; [inversion Hdrag|].
    cbn [length Nat.ltb Nat.leb]. apply elem_of_app. right.
    apply list_elem_of_In, in_concat.
    exists (areaDragChildChanges areas tables
              (NCPosition areaId (Some position) (Some true))).
    split.
    + apply list_elem_of_In, list_elem_of_fmap. by eexists.
    + apply list_elem_of_In. cbn. rewrite Harea.
      apply list_elem_of_fmap. exists table. split; [done|].
      apply elem_of_filter_list. split; [done|].
      by apply bool_decide_eq_true.
Qed.

(** X14. Removing an area clears the parent of its member tables and deletes
    none of them; removing a table deletes exactly that table. The updater
    issued for removals keeps, in order, every table whose id is not among
    the removed table ids; a kept table whose parent is a removed area has
    its parent cleared, and every other kept table is handed back
    unchanged. *)
Theorem runUpdater_remove_spec
    (view : string -> option Node) (areaRemoveIds removeIds : list string)
    (currentTables : list DBTable) :
  let clear t :=
    match t_parentAreaId t with
    | Some a =>
        if bool_decide (a ∈ areaRemoveIds) then setParentAreaId t None else t
    | None => t
    end in
  let result :=
    runUpdater view (UpdRemove areaRemoveIds removeIds) currentTables in
  result
  = UFull <$> (clear <$> List.filter
                           (fun t => negb (bool_decide (t_id t ∈ removeIds)))
                           currentTables)
  /\ (removeIds = [] -> length result = length currentTables).
Proof.
  cbn zeta. cbn [runUpdater].
  assert (Heq :
    List.filter
      (fun table =>
         negb (existsb (fun id => bool_decide (id = t_id table)) removeIds))
      ((fun currentTable =>
          match List.find
                  (fun id =>
                     bool_decide (Some id = t_parentAreaId currentTable))
                  areaRemoveIds with
          | Some _ => setParentAreaId currentTable None
          | None => currentTable
          end) <$> currentTables)
    = (fun t =>
         match t_parentAreaId t with
         | Some a =>
             if bool_decide (a ∈ areaRemoveIds)
             then setParentAreaId t None else t
         | None => t
         end)
        <$> List.filter (fun t => negb (bool_decide (t_id t ∈ removeIds)))
                        currentTables).
  { induction currentTables as [|t l IH]; [done|].
    cbn [fmap list_fmap List.filter].
    assert (Hclear : (match List.find
                              (fun id => bool_decide
                                           (Some id = t_parentAreaId t))
                              areaRemoveIds with
                      | Some _ => setParentAreaId t None
                      | None => t
                      end)
                     = match t_parentAreaId t with
                       | Some a =>
                           if bool_decide (a ∈ areaRemoveIds)
                           then setParentAreaId t None else t
                       | None => t
                       end).
    { destruct (List.find _ areaRemoveIds) as [a|] eqn:Hf.
      - apply find_some in Hf as [Hin Hp].
        apply bool_decide_eq_true in Hp. rewrite <- Hp.
        rewrite bool_decide_eq_true_2; [done | by apply list_elem_of_In].
      - destruct (t_parentAreaId t) as [a|]; [|done].
        rewrite bool_decide_eq_false_2; [done|].
        intros Ha. apply list_elem_of_In in Ha.
        apply (find_none _ _ Hf) in Ha.
        by rewrite bool_decide_eq_true_2 in Ha. }
    rewrite Hclear.
    assert (Hid : t_id (match t_parentAreaId t with
                        | Some a =>
                            if bool_decide (a ∈ areaRemoveIds)
                            then setParentAreaId t None else t
                        | None => t
                        end) = t_id t).
    { destruct (t_parentAreaId t); [|done]. by case_bool_decide. }
    assert (Hrem : existsb (fun id => bool_decide (id = t_id t)) removeIds
                   = bool_decide (t_id t ∈ removeIds)).
    { apply eq_true_iff_eq. rewrite existsb_exists, bool_decide_eq_true.
      split.
      - intros (id & Hin & Hp). apply bool_decide_eq_true in Hp as ->.
        by apply list_elem_of_In.
      - intros Hin. exists (t_id t). split; [by apply list_elem_of_In|].
        by apply bool_decide_eq_true. }
    rewrite Hid, Hrem. destruct (bool_decide (t_id t ∈ removeIds)); cbn.
    - apply IH.
    - f_equal. apply IH. }
  rewrite Heq. split; [done|].
  intros ->. rewrite !length_fmap. f_equal.
  apply filter_keeps_all. intros t _.
  rewrite bool_decide_eq_false_2; [done | by apply not_elem_of_nil].
Qed.

Lemma changeIds_remove_length getNode (changes : list NodeChange) kind :
  length (changeIds (removeChanges
                       (findRelevantNodesChanges getNode changes kind)))
  = length (removeChanges (findRelevantNodesChanges getNode changes kind)).
Proof.
  set (rc := removeChanges _).
  assert (Hrc : forall c, c ∈ rc -> exists id, c = NCRemove id).
  { intros c Hin. subst rc. unfold findRelevantNodesChanges in Hin.
    cbn in Hin. apply elem_of_filter_list in Hin as [_ Hr].
    destruct c; try done. by eexists. }
  clearbody rc. induction rc as [|c l IH]; [done|].
  destruct (Hrc c (list_elem_of_here _ _)) as [id ->]. cbn.
  f_equal. apply IH. intros c' Hc'. apply Hrc. by right.
Qed.

(** X15. Only the deletion of a table is recorded in the undo history: of the
    table-state updates the node handler issues, the position sync is never
    recorded, and the removal update is recorded exactly when the batch
    removes at least one table (removing areas alone is not). *)
Theorem onNodesChangeHandler_history
    (readonly : bool) (getNode : string -> option Node)
    (tables : list DBTable) (areas : list Area) (changes : list NodeChange)
    (u : TablesUpdater) (opts : UpdateOptions) :
  UpdateTablesState u opts
  ∈ onNodesChangeHandler readonly getNode tables areas changes ->
  match u with
  | UpdSyncFromView =>
      uo_updateHistory opts = Some false /\ uo_skipPersist opts = Some true
  | UpdRemove areaRemoveIds removeIds =>
      uo_updateHistory opts = Some (0 <? length removeIds)%nat
  | UpdParentAreas _ => False
  end.
Proof.
  unfold onNodesChangeHandler. cbn zeta.
  set (toApply := if (0 <? length _)%nat then _ else _).
  intros Hc.
  repeat (apply elem_of_app in Hc as [Hc | Hc]).
  - destruct (_ || _ || _); [|by inversion Hc].
    apply elem_of_cons in Hc as [[= -> ->] | Hc]; [done|].
    by apply list_elem_of_singleton in Hc.
  - destruct (_ || _ || _ || _); [|by inversion Hc].
    by apply list_elem_of_singleton in Hc.
  - destruct (_ || _); [|by inversion Hc].
    apply list_elem_of_singleton in Hc. injection Hc as -> ->.
    cbn [uo_updateHistory].
    exact (f_equal (fun n => Some (0 <? n)%nat)
             (eq_sym (changeIds_remove_length getNode toApply KTable))).
  - apply list_elem_of_fmap in Hc as (? & ? & _). done.
  - apply list_elem_of_fmap in Hc as (? & ? & _). done.
  - apply elem_of_cons in Hc as [Hc | Hc]; [done|].
    by apply list_elem_of_singleton in Hc.
Qed.

(** X16. The overlap update skips stale and foreign references: with no change
    to look at it makes no call at all, and when every change refers to a
    node that is gone or is not a table it sets the overlap graph to the one
    it started from. *)
Theorem updateOverlappingGraphOnChanges_skips
    (getNode : string -> option Node) (nodes : list Node)
    (overlapGraph : Graph) (positionChanges sizeChanges : list NodeChange) :
  let calls :=
    updateOverlappingGraphOnChanges getNode nodes overlapGraph
                                    positionChanges sizeChanges in
  (positionChanges = [] -> sizeChanges = [] -> calls = [])
  /\ (positionChanges ++ sizeChanges <> [] ->
      (forall c, c ∈ positionChanges ++ sizeChanges ->
         match nodeChangeId c ≫= getNode with
         | Some node => n_type node <> KTable
         | None => True
         end) ->
      calls = [SetOverlapGraph overlapGraph]).
Proof.
  cbn zeta. unfold updateOverlappingGraphOnChanges. split.
  - by intros -> ->.
  - intros Hne Hskip.
    replace ((0 <? length positionChanges)%nat
             || (0 <? length sizeChanges)%nat) with true.
    2:{ destruct positionChanges, sizeChanges; done. }
    do 2 f_equal.
    assert (Hfold : forall (l : list NodeChange) g,
              (forall c, c ∈ l ->
                 match nodeChangeId c ≫= getNode with
                 | Some node => n_type node <> KTable
                 | None => True
                 end) ->
              foldl (fun (g : Graph) change =>
                       match nodeChangeId change ≫= getNode with
                       | Some node =>
                           if bool_decide (n_type node = KTable)
                           then findTableOverlapping node
                                  (List.filter
                                     (fun n => negb (flag (n_hidden n))
                                               && bool_decide
                                                    (n_type n = KTable))
                                     nodes) g
                           else g
                       | None => g
                       end) g l = g).
    { induction l as [|c l IH]; intros g Hl; [done|]. cbn [foldl].
      pose proof (Hl c (list_elem_of_here _ _)) as Hc.
      destruct (nodeChangeId c ≫= getNode) as [node|].
      - rewrite bool_decide_eq_false_2 by done.
        apply IH. intros c' Hc'. apply Hl. by right.
      - apply IH. intros c' Hc'. apply Hl. by right. }
    rewrite Hfold.
    + apply Hfold. intros c Hc. apply Hskip, elem_of_app. by left.
    + intros c Hc. apply Hskip, elem_of_app. by right.
Qed.

End NodeChanges.

Lemma onNodesChangeHandler_dragging_is_visual_only_witness :
  let calls :=
    @onNodesChangeHandler sampleCollaborators false (getNodeIn memberNodes)
                          memberTables sampleAreas [areaDrag] in
  calls
  = [UpdateOverlappingGraphDebounced [] [];
     OnNodesChange
       ([areaDrag]
        ++ concat (areaDragChildChanges sampleAreas memberTables
                     <$> List.filter (isAreaDrag (getNodeIn memberNodes))
                                     [areaDrag]))]
  /\ (forall c, c ∈ calls -> isDomainCommit c = false).
Proof.
  apply (@onNodesChangeHandler_dragging_is_visual_only sampleCollaborators
           false (getNodeIn memberNodes) memberTables sampleAreas [areaDrag]).
  intros c Hc. apply list_elem_of_singleton in Hc. rewrite Hc. reflexivity.
Defined.

Lemma onNodesChangeHandler_area_drag_moves_members_witness :
  exists forwarded,
    OnNodesChange forwarded
    ∈ @onNodesChangeHandler sampleCollaborators false
        (getNodeIn memberNodes) memberTables sampleAreas [areaDrag]
    /\ NCPosition "t1" (Some {| px := Num 110; py := Num 60 |}) (Some true)
       ∈ forwarded.
Proof.
  refine (@onNodesChangeHandler_area_drag_moves_members sampleCollaborators
            (getNodeIn memberNodes) memberTables sampleAreas [areaDrag]
            "a1"
            (@areaToAreaNode sampleCollaborators
               (sampleArea "a1" 0 0 500 500) memberTables None
               "postgresql" false)
            (sampleArea "a1" 0 0 500 500)
            (sampleTable "t1" 10 10 (Some "a1"))
            {| px := Num 100; py := Num 50 |} _ _ _ _ _ _ _ _).
  - apply list_elem_of_here.
  - vm_compute. reflexivity.
  - reflexivity.
  - reflexivity.
  - apply list_elem_of_here.
  - reflexivity.
  - reflexivity.
  - reflexivity.
Defined.

Lemma onNodesChangeHandler_history_witness :
  UpdateTablesState (UpdRemove [] ["t2"])
    {| uo_updateHistory := Some true; uo_skipPersist := None |}
  ∈ @onNodesChangeHandler sampleCollaborators false (getNodeIn memberNodes)
      memberTables sampleAreas [NCRemove "t2"]
  /\ uo_updateHistory
       {| uo_updateHistory := Some true; uo_skipPersist := None |}
     = Some (0 <? length ["t2"])%nat.
Proof.
  assert (Hin : UpdateTablesState (UpdRemove [] ["t2"])
                  {| uo_updateHistory := Some true; uo_skipPersist := None |}
                ∈ @onNodesChangeHandler sampleCollaborators false
                    (getNodeIn memberNodes) memberTables sampleAreas
                    [NCRemove "t2"]).
  { vm_compute. apply list_elem_of_here. }
  split; [exact Hin|].
  exact (@onNodesChangeHandler_history sampleCollaborators false
           (getNodeIn memberNodes) memberTables sampleAreas [NCRemove "t2"]
           (UpdRemove [] ["t2"])
           {| uo_updateHistory := Some true; uo_skipPersist := None |} Hin).
Defined.

(** ** Edge removals *)

Section EdgeRemovals.
Context `{Collaborators}.

(** X17. Removing edges in an editable canvas: the whole batch is forwarded to
    the view layer, last. A removal call is made only with at least one id,
    and every id it carries is read from an edge the view layer still holds,
    of the matching kind, named by a remove change of the batch. When no
    remove change names an edge the view layer still holds, the domain store
    is not called at all. *)
Theorem onEdgesChangeHandler_removals
    (getEdge : string -> option Edge) (changes : list EdgeChange) :
  let calls := onEdgesChangeHandler false getEdge changes in
  last calls = Some (OnEdgesChange changes)
  /\ (forall ids, RemoveRelationships ids ∈ calls ->
        ids <> []
        /\ forall x, x ∈ ids ->
             exists eid edge,
               ECRemove eid ∈ changes /\ getEdge eid = Some edge
               /\ e_type edge = ERelationship
               /\ x = r_id <$> (e_data edge ≫= ed_relationship))
  /\ (forall ids, RemoveDependencies ids ∈ calls ->
        ids <> []
        /\ forall x, x ∈ ids ->
             exists eid edge,
               ECRemove eid ∈ changes /\ getEdge eid = Some edge
               /\ e_type edge = EDependency
               /\ x = d_id <$> (e_data edge ≫= ed_dependency))
  /\ ((forall eid, ECRemove eid ∈ changes -> getEdge eid = None) ->
      calls = [OnEdgesChange changes]).
Proof.
  cbn zeta. unfold onEdgesChangeHandler.
  set (removed := omap (fun c => edgeRemoveId c ≫= getEdge)
                       (List.filter edgeChangeIsRemove changes)).
  assert (Hremoved : forall edge, edge ∈ removed ->
            exists eid, ECRemove eid ∈ changes /\ getEdge eid = Some edge).
  { intros edge Hin. subst removed.
    apply list_elem_of_omap in Hin as (c & Hc & Hedge).
    apply elem_of_filter_list in Hc as [Hc Hrem].
    destruct c as [eid| | |]; try done. by exists eid. }
  set (rels := _ <$> List.filter _ removed).
  set (deps := _ <$> List.filter _ removed).
  assert (Hrels : forall x, x ∈ rels ->
            exists eid edge,
              ECRemove eid ∈ changes /\ getEdge eid = Some edge
              /\ e_type edge = ERelationship
              /\ x = r_id <$> (e_data edge ≫= ed_relationship)).
  { intros x Hx. subst rels.
    apply list_elem_of_fmap in Hx as (edge & -> & Hedge).
    apply elem_of_filter_list in Hedge as [Hedge Hty].
    apply bool_decide_eq_true in Hty.
    destruct (Hremoved edge Hedge) as (eid & ? & ?). by exists eid, edge. }
  assert (Hdeps : forall x, x ∈ deps ->
            exists eid edge,
              ECRemove eid ∈ changes /\ getEdge eid = Some edge
              /\ e_type edge = EDependency
              /\ x = d_id <$> (e_data edge ≫= ed_dependency)).
  { intros x Hx. subst deps.
    apply list_elem_of_fmap in Hx as (edge & -> & Hedge).
    apply elem_of_filter_list in Hedge as [Hedge Hty].
    apply bool_decide_eq_true in Hty.
    destruct (Hremoved edge Hedge) as (eid & ? & ?). by exists eid, edge. }
  split; [|split; [|split]].
  - rewrite !app_assoc. apply last_snoc.
  - intros ids Hin.
    apply elem_of_app in Hin as [Hin | Hin].
    + destruct rels as [|r rels'] eqn:Hr; [by inversion Hin|].
      apply list_elem_of_singleton in Hin. injection Hin as ->.
      split; [done | exact Hrels].
    + apply elem_of_app in Hin as [Hin | Hin].
      * destruct (0 <? length deps)%nat; [|by inversion Hin].
        by apply list_elem_of_singleton in Hin.
      * by apply list_elem_of_singleton in Hin.
  - intros ids Hin.
    apply elem_of_app in Hin as [Hin | Hin].
    + destruct (0 <? length rels)%nat; [|by inversion Hin].
      by apply list_elem_of_singleton in Hin.
    + apply elem_of_app in Hin as [Hin | Hin].
      * destruct deps as [|d deps'] eqn:Hd; [by inversion Hin|].
        apply list_elem_of_singleton in Hin. injection Hin as ->.
        split; [done | exact Hdeps].
      * by apply list_elem_of_singleton in Hin.
  - intros Hstale.
    assert (Hnil : removed = []).
    { destruct removed as [|edge l] eqn:Hr; [done|].
      destruct (Hremoved edge (list_elem_of_here _ _)) as (eid & Hc & Hg).
      rewrite (Hstale eid Hc) in Hg. done. }
    subst rels deps. by rewrite Hnil.
Qed.

End EdgeRemovals.

(** ** Frames, the save effect and the saved payload *)

Section FurtherScheduling.
Context `{Collaborators}.

Lemma step_keeps_frames (st : Engine) (ev : Event) :
  match ev with
  | EvMouseMove _ _ | EvFrame | EvUnmount => True
  | _ => frames (step st ev) = frames st
  end.
Proof.
  destruct ev; cbn [step]; try done.
  - unfold saveEffect, saveEffectCleanup.
    destruct (saveCleanup st), (_ || _); cbn;
      repeat (destruct (saveDiagramTimeoutRef _); cbn); done.
  - unfold fitViewEffect. by destruct (negb _).
  - unfold overlapDebounced, debounceCall.
    by destruct (overlapDebounce st).
  - by destruct (advance_spec dt st) as (_ & _ & _ & -> & _).
Qed.

Lemma mouseMoves_pending (clients : list Position) (st : Engine) id client :
  rafIdRef st = Some id -> frames st = [(id, client)] ->
  rafIdRef (mouseMoves st clients) = Some id
  /\ frames (mouseMoves st clients) = [(id, client)]
  /\ nextHandle (mouseMoves st clients) = nextHandle st.
Proof.
  intros Hraf Hframes. unfold mouseMoves.
  induction clients as [|c l IH] using rev_ind; [done|].
  rewrite foldl_app. cbn [foldl]. unfold handleMouseMove at 1 3 5.
  destruct IH as (Hr & ? & ?). by rewrite Hr.
Qed.

(** X18. Mouse moves are throttled to one per animation frame: the component
    never has more than one frame callback pending, and of a run of mouse
    moves made while an edge is being drawn and no frame is pending, only
    the first registers a callback; when the frame runs, the cursor is
    that first position, converted to flow coordinates, and the next move
    can register again. *)
Theorem mouse_moves_throttled_per_frame
    (history : list Event) (first : Position) (rest : list Position) :
  let st := run initialEngine history in
  length (frames st) <= 1
  /\ (rafIdRef st = None ->
      let moved := mouseMoves st (first :: rest) in
      frames moved = [(nextHandle st, first)]
      /\ cursorPosition (frame moved) = Some (screenToFlowPosition first)
      /\ rafIdRef (frame moved) = None).
Proof.
  cbn zeta. split.
  - assert (Hinv : forall evs st, wellFormed st -> length (frames st) <= 1 ->
                     length (frames (run st evs)) <= 1).
    { induction evs as [|ev evs IH]; intros st Hwf Hlen; [done|].
      cbn [run foldl]. apply IH; [by apply wellFormed_step|].
      pose proof (step_keeps_frames st ev) as Hkeep.
      destruct ev; try (rewrite Hkeep; exact Hlen); clear Hkeep;
        cbn [step].
      - unfold handleMouseMove. destruct tempFloatingEdge; [|done].
        destruct (rafIdRef st) eqn:Hraf; [done|].
        destruct (frames st) as [|cb l] eqn:Hf; [cbn; lia|].
        pose proof (wf_raf st Hwf cb) as Hcb. rewrite Hf, Hraf in Hcb.
        by specialize (Hcb (list_elem_of_here _ _)).
      - destruct (frame_spec st) as (_ & _ & -> & _). cbn. lia.
      - unfold unmount, rafCleanup.
        destruct (saveEffectCleanup_spec st Hwf)
          as (_ & _ & _ & _ & _ & _ & _ & Hf & Hr & _).
        rewrite Hr. destruct (rafIdRef st); [|by rewrite Hf].
        cbn. rewrite Hf. etrans; [apply List.filter_length_le|]. exact Hlen. }
    apply Hinv; [apply initialEngine_wellFormed | cbn; lia].
  - set (st := run initialEngine history). intros Hraf.
    assert (Hwf : wellFormed st)
      by apply run_wellFormed, initialEngine_wellFormed.
    assert (Hempty : frames st = []).
    { destruct (frames st) as [|cb l] eqn:Hf; [done|].
      pose proof (wf_raf st Hwf cb) as Hcb. rewrite Hf, Hraf in Hcb.
      by specialize (Hcb (list_elem_of_here _ _)). }
    change (mouseMoves st (first :: rest))
      with (mouseMoves (handleMouseMove true first st) rest).
    set (st1 := handleMouseMove true first st).
    assert (Hr1 : rafIdRef st1 = Some (nextHandle st)).
    { subst st1. unfold handleMouseMove. by rewrite Hraf. }
    assert (Hf1 : frames st1 = [(nextHandle st, first)]).
    { subst st1. unfold handleMouseMove. rewrite Hraf. cbn.
      by rewrite Hempty. }
    destruct (mouseMoves_pending rest st1 _ _ Hr1 Hf1) as (Hr & Hf & _).
    split; [exact Hf|]. unfold frame. rewrite Hf. done.
Qed.

(** X19. Unloading the diagram drops a pending save: when the save effect
    re-runs without a diagram id or without a current diagram, its cleanup
    has cancelled the pending save timer and no new one is armed, so no
    save is made however long one waits; the other timers are kept. *)
Theorem saveEffect_unloaded_cancels_pending_save
    (history : list Event) (deps : SaveDeps) (dt : nat) :
  isLoaded deps = false ->
  let st := run initialEngine history in
  let st' := saveEffect deps st in
  timers st' = List.filter (fun tm => negb (isSaveTimer tm)) (timers st)
  /\ saveCallsOf (calls (advance dt st')) = saveCallsOf (calls st).
Proof.
  intros Hunloaded. cbn zeta.
  set (st := run initialEngine history).
  assert (Hwf : wellFormed st)
    by apply run_wellFormed, initialEngine_wellFormed.
  assert (Heq : saveEffect deps st = saveEffectCleanup st).
  { unfold saveEffect. unfold isLoaded in Hunloaded.
    rewrite <- negb_andb, Hunloaded. done. }
  rewrite Heq.
  destruct (saveEffectCleanup_spec st Hwf)
    as (_ & Hnone & Htimers & _ & _ & _ & Hcalls & _).
  split; [exact Htimers|].
  destruct (advance_quiet dt (saveEffectCleanup st)) as [Hq _].
  - intros tm Htm Hsave. by rewrite (Hnone tm Htm) in Hsave.
  - by rewrite Hq, Hcalls.
Qed.

(** X20. The saved payload is the snapshot with only geometry replaced: it
    holds the same tables, areas and notes, in the same order, each with its
    id and content untouched; an entity that has no node in the view layer
    is saved exactly as it is in the snapshot; the payload carries the
    snapshot's id, name and database type and the time of the save. *)
Theorem diagramToSave_keeps_entities
    (deps : SaveDeps) (getNode : string -> option Node) (now : nat)
    (payload : DiagramPayload) :
  diagramToSave deps getNode now = Some payload ->
  Forall2 (fun t t' => sameTableContent t t'
                       /\ (getNode (t_id t) = None -> t' = t))
          (sd_tables deps) (pl_tables payload)
  /\ Forall2 (fun a a' => a_id a' = a_id a
                          /\ (getNode (a_id a) = None -> a' = a))
             (sd_areas deps) (pl_areas payload)
  /\ Forall2 (fun n n' => nt_id n' = nt_id n
                          /\ nt_content n' = nt_content n
                          /\ (getNode (nt_id n) = None -> n' = n))
             (sd_notes deps) (pl_notes payload)
  /\ sd_diagramId deps = Some (pl_id payload)
  /\ pl_name payload = sd_diagramName deps
  /\ pl_databaseType payload = sd_databaseType deps
  /\ pl_updated_at payload = now.
Proof.
  unfold diagramToSave. intros Hsave.
  destruct (sd_diagramId deps) as [diagramId|]; [|done].
  destruct (sd_currentDiagram deps) as [currentDiagram|]; [|done].
  destruct (toISOString (cd_createdAt currentDiagram)); [|done].
  injection Hsave as <-. cbn.
  split; [|split; [|split]]; [| | |done].
  - apply Forall2_fmap_r, Forall_Forall2_diag, Forall_forall.
    intros t _. unfold compose, syncTable, sameTableContent. cbn beta.
    destruct (getNode (t_id t)); cbn; repeat split; done.
  - apply Forall2_fmap_r, Forall_Forall2_diag, Forall_forall.
    intros a _. unfold compose, syncArea. cbn beta.
    destruct (getNode (a_id a)); cbn; repeat split; done.
  - apply Forall2_fmap_r, Forall_Forall2_diag, Forall_forall.
    intros n _. unfold compose, syncNote. cbn beta.
    destruct (getNode (nt_id n)); cbn; repeat split; done.
Qed.

End FurtherScheduling.

Lemma saveEffect_unloaded_cancels_pending_save_witness :
  let st := run (@initialEngine sampleCollaborators)
                [EvSaveEffect (sampleDeps sampleTables)] in
  let st' := saveEffect unloadedDeps st in
  timers st' = List.filter (fun tm => negb (isSaveTimer tm)) (timers st)
  /\ saveCallsOf (calls (advance 1000 st')) = saveCallsOf (calls st).
Proof.
  apply (@saveEffect_unloaded_cancels_pending_save sampleCollaborators
           [EvSaveEffect (sampleDeps sampleTables)] unloadedDeps 1000).
  reflexivity.
Defined.

Lemma diagramToSave_keeps_entities_witness :
  let deps := sampleDeps sampleTables in
  let getNode := getNodeIn (mu_view sampleMutation) in
  exists payload,
    diagramToSave deps getNode 500 = Some payload
    /\ Forall2 (fun t t' => sameTableContent t t'
                            /\ (getNode (t_id t) = None -> t' = t))
               (sd_tables deps) (pl_tables payload)
    /\ pl_updated_at payload = 500.
Proof.
  cbn zeta.
  destruct (diagramToSave (sampleDeps sampleTables)
              (getNodeIn (mu_view sampleMutation)) 500)
    as [payload|] eqn:Hsave; [|discriminate Hsave].
  exists payload. split; [reflexivity|].
  pose proof (@diagramToSave_keeps_entities sampleCollaborators
                (sampleDeps sampleTables)
                (getNodeIn (mu_view sampleMutation)) 500 payload Hsave)
    as (Htables & _ & _ & _ & _ & _ & Hnow).
  split; [exact Htables | exact Hnow].
Defined.

(** ** Migration, API client and wrapper *)

Section FurtherMigration.

Lemma obj_get_set (o : Obj) (k k' : string) (v : JsVal) :
  obj_get (obj_set o k v) k'
  = if bool_decide (k = k') then v else obj_get o k'.
Proof.
  unfold obj_get. induction o as [|[k0 v0] o IH]; cbn.
  - by repeat case_bool_decide.
  - destruct (bool_decide (k0 = k)) eqn:Hk0; cbn.
    + apply bool_decide_eq_true in Hk0 as ->.
      by repeat case_bool_decide.
    + apply bool_decide_eq_false in Hk0.
      destruct (bool_decide (k0 = k')) eqn:Hk'; cbn.
      * apply bool_decide_eq_true in Hk' as ->.
        by rewrite bool_decide_eq_false_2 by done.
      * exact IH.
Qed.

Lemma mapM_cons {A B} (f : A -> Res B) (x : A) (l : list A) :
  mapM f (x :: l) = (y ← f x; k ← mapM f l; mret (y :: k)).
Proof. reflexivity. Qed.

(** X21. Cardinalities are defaulted, nothing else is touched: a migrated
    relationship has a truthy source and target cardinality, which are the
    stored ones where those are truthy and [many] and [one] otherwise; every
    other property reads as it did. *)
Theorem normalizeRelationship_defaults (rel : Obj) :
  let rel' := normalizeRelationship rel in
  obj_get rel' "sourceCardinality"
  = (if js_truthy (obj_get rel "sourceCardinality")
     then obj_get rel "sourceCardinality" else JStr "many")
  /\ obj_get rel' "targetCardinality"
     = (if js_truthy (obj_get rel "targetCardinality")
        then obj_get rel "targetCardinality" else JStr "one")
  /\ js_truthy (obj_get rel' "sourceCardinality") = true
  /\ js_truthy (obj_get rel' "targetCardinality") = true
  /\ (forall k, k <> "sourceCardinality" -> k <> "targetCardinality" ->
        obj_get rel' k = obj_get rel k).
Proof.
  cbn zeta. unfold normalizeRelationship, js_or.
  rewrite !obj_get_set.
  rewrite (bool_decide_eq_false_2 ("targetCardinality" = "sourceCardinality"))
    by done.
  rewrite !bool_decide_eq_true_2 by done.
  repeat split.
  - by destruct (js_truthy (obj_get rel "sourceCardinality")) eqn:Hs.
  - by destruct (js_truthy (obj_get rel "targetCardinality")) eqn:Ht.
  - intros k Hs Ht. rewrite !obj_get_set.
    by rewrite !bool_decide_eq_false_2 by done.
Qed.

Lemma normalizeField_obj (o : Obj) :
  exists o', normalizeField (JObj o) = inr (JObj o')
             /\ fieldMigrated (JObj o) (JObj o').
Proof.
  unfold normalizeField. cbn.
  eexists. split; [reflexivity|].
  exists o, (obj_set o "type"
               match obj_get o "type" with
               | JStr s => JObj [("id", JStr s); ("name", JStr s)]
               | _ => js_or (obj_get o "type")
                            (JObj [("id", JStr "string");
                                   ("name", JStr "string")])
               end).
  split; [done|]. split; [done|].
  split; [|split; [|split]].
  - intros k Hk. rewrite obj_get_set.
    by rewrite bool_decide_eq_false_2 by done.
  - intros s Hs. rewrite obj_get_set, Hs. done.
  - intros Hfalsy Hstr. rewrite obj_get_set. cbn.
    unfold js_or. rewrite Hfalsy.
    destruct (obj_get o "type"); try done. by destruct (Hstr s).
  - intros ty Hty. rewrite obj_get_set, Hty. done.
Qed.

(** X22. Field types are brought to object form: a table whose [fields] is
    missing or otherwise falsy is migrated with an empty field list; a table
    whose fields are objects is migrated with as many fields, in order, each
    with an object for its type (a string type becomes the object with that
    id and name, an absent type the [string] type, an object type is kept)
    and every other property as it was. A field that is [null] or
    [undefined] makes the normalisation throw. *)
Theorem normalizeTable_field_types (table : Obj) :
  (js_truthy (obj_get table "fields") = false ->
   normalizeTable table = inr (obj_set table "fields" (JArr [])))
  /\ (forall fields,
        obj_get table "fields" = JArr fields ->
        Forall (fun f => isJObj f = true) fields ->
        exists fields',
          normalizeTable table
          = inr (obj_set table "fields" (JArr fields'))
          /\ Forall2 fieldMigrated fields fields')
  /\ (forall fields,
        obj_get table "fields" = JArr fields ->
        (JNull ∈ fields \/ JUndefined ∈ fields) ->
        exists msg, normalizeTable table = inl msg).
Proof.
  unfold normalizeTable, js_or. split; [|split].
  - intros ->. done.
  - intros fields -> Hobj. cbn [js_truthy].
    assert (Hmap : exists fields',
               mapM normalizeField fields = inr fields'
               /\ Forall2 fieldMigrated fields fields').
    { induction Hobj as [|f l Hf _ IH].
      - exists []. split; [done | constructor].
      - destruct f as [| | | | | |o]; try done.
        destruct (normalizeField_obj o) as (o' & Ho' & Hmig).
        destruct IH as (l' & Hl' & HF).
        exists (JObj o' :: l'). split; [|by constructor].
        by rewrite mapM_cons, Ho', Hl'. }
    destruct Hmap as (fields' & -> & HF). by exists fields'.
  - intros fields -> Hbad. cbn [js_truthy].
    assert (Hmap : exists msg, mapM normalizeField fields = inl msg).
    { assert (Hex : exists f, f ∈ fields /\ (f = JNull \/ f = JUndefined))
        by (destruct Hbad; eauto).
      clear Hbad. destruct Hex as (f & Hin & Hf).
      induction fields as [|x l IH]; [by inversion Hin|].
      rewrite mapM_cons.
      destruct (normalizeField x) as [msg|y] eqn:Hx; [by exists msg|].
      apply elem_of_cons in Hin as [-> | Hin].
      - destruct Hf as [-> | ->]; discriminate Hx.
      - destruct (IH Hin) as [msg Hmsg]. exists msg. by rewrite Hmsg. }
    destruct Hmap as [msg ->]. by exists msg.
Qed.

Lemma migrateDiagram_counts (db : LegacyDB) (api : VertexApi) (d : Obj) :
  length (migrateDiagram db api d).1 <= 1
  /\ length (migrateDiagram db api d).2 <= 1.
Proof.
  unfold migrateDiagram. destruct (buildApiDiagram db d); [cbn; lia|].
  destruct (api_saveDiagram api _); cbn; lia.
Qed.

Lemma concat_length_le {A B} (f : A -> list B) (l : list A) :
  (forall x, length (f x) <= 1) -> length (concat (f <$> l)) <= length l.
Proof.
  intros Hf. induction l as [|x l IH]; [done|].
  cbn. rewrite length_app. specialize (Hf x). lia.
Qed.

(** X23. The accounting of a migration run: it reports success exactly when it
    recorded no error; it issues at most one request per diagram and one for
    the configuration, and records at most as many errors; it touches no
    storage key but the flag; and the flag is left unset in one case only,
    when it was unset and the list of diagrams could not be read, so that
    every other failure is final. *)
Theorem migrateIndexedDBToAPI_accounting
    (db : LegacyDB) (api : VertexApi) (localStorage : gmap string string) :
  let run := migrateIndexedDBToAPI db api localStorage in
  let result := mr_result run in
  (success result = true <-> errors result = [])
  /\ length (mr_requests run) <= diagramsCount result + 1
  /\ length (errors result) <= diagramsCount result + 1
  /\ (forall k, k <> MIGRATION_FLAG ->
        mr_storage run !! k = localStorage !! k)
  /\ (isMigrationComplete (mr_storage run) = false
      <-> isMigrationComplete localStorage = false
          /\ exists errorMsg, db_diagrams db = inl errorMsg).
Proof.
  cbn zeta. unfold migrateIndexedDBToAPI, isMigrationComplete.
  destruct (bool_decide (localStorage !! MIGRATION_FLAG = Some "true"))
    eqn:Hflag.
  { cbn. rewrite Hflag.
    split; [done|]. split; [lia|]. split; [lia|]. split; [done|].
    split; [done | by intros [? _]]. }
  destruct (db_diagrams db) as [errorMsg|diagrams] eqn:Hdb.
  { cbn. rewrite Hflag.
    split; [done|]. split; [lia|]. split; [lia|]. split; [done|].
    split; [|done]. intros _. split; [done | by eexists]. }
  assert (Hset : bool_decide
                   (<[MIGRATION_FLAG := "true"]> localStorage
                      !! MIGRATION_FLAG = Some "true") = true).
  { apply bool_decide_eq_true. by rewrite lookup_insert_eq. }
  destruct diagrams as [|d l].
  { cbn. rewrite Hset.
    split; [done|]. split; [lia|]. split; [lia|].
    split; [intros k Hk; by rewrite lookup_insert_ne|].
    split; [done | by intros [_ [? ?]]]. }
  cbn [mr_result mr_storage mr_requests success errors diagramsCount].
  rewrite Hset. set (diagrams := d :: l).
  split; [|split; [|split; [|split]]].
  - rewrite Nat.eqb_eq. apply length_zero_iff_nil.
  - rewrite length_app.
    assert (Hreq : length (concat (migrateDiagram db api <$> diagrams).*1)
                   <= length diagrams).
    { rewrite <- list_fmap_compose.
      apply (concat_length_le (fst ∘ migrateDiagram db api)).
      intros x. apply migrateDiagram_counts. }
    assert (Hcfg : length (migrateConfig db api).1 <= 1).
    { unfold migrateConfig. destruct (db_config db) as [|[|c ?]];
        [cbn; lia..|]. destruct (api_updateConfig api _); cbn; lia. }
    lia.
  - rewrite length_app.
    assert (Herr : length (concat (migrateDiagram db api <$> diagrams).*2)
                   <= length diagrams).
    { rewrite <- list_fmap_compose.
      apply (concat_length_le (snd ∘ migrateDiagram db api)).
      intros x. apply migrateDiagram_counts. }
    assert (Hcfg : length (migrateConfig db api).2 <= 1).
    { unfold migrateConfig. destruct (db_config db) as [|[|c ?]];
        [cbn; lia..|]. destruct (api_updateConfig api _); cbn; lia. }
    lia.
  - intros k Hk. by rewrite lookup_insert_ne.
  - split; [done|]. by intros [_ [? ?]].
Qed.

(** X24. One diagram's failure does not stop the others: in a run that gets to
    read the diagrams, an upload is requested for exactly the diagrams whose
    body could be assembled from the legacy store, whatever happened to the
    diagrams before them, and for every diagram whose body could not be
    assembled the failure is recorded under its name. *)
Theorem migration_uploads_every_buildable_diagram
    (db : LegacyDB) (api : VertexApi) (localStorage : gmap string string)
    (diagrams : list Obj) :
  isMigrationComplete localStorage = false ->
  db_diagrams db = inr diagrams ->
  let run := migrateIndexedDBToAPI db api localStorage in
  (forall body,
     ReqSaveDiagram body ∈ mr_requests run
     <-> exists diagram, diagram ∈ diagrams
                         /\ buildApiDiagram db diagram = inr body)
  /\ (forall diagram errorMsg,
        diagram ∈ diagrams -> buildApiDiagram db diagram = inl errorMsg ->
        diagramFailure diagram errorMsg ∈ errors (mr_result run)).
Proof.
  unfold isMigrationComplete. intros Hflag Hdb. cbn zeta.
  unfold migrateIndexedDBToAPI. rewrite Hflag, Hdb.
  destruct diagrams as [|d l].
  { cbn. split.
    - intros body. split; [by intros ?%elem_of_nil|].
      by intros (? & ?%elem_of_nil & _).
    - by intros ? ? ?%elem_of_nil. }
  cbn [mr_result mr_requests errors]. set (diagrams := d :: l).
  split.
  - intros body. rewrite elem_of_app. split.
    + intros [Hin | Hin].
      * apply list_elem_of_In, in_concat in Hin as (reqs & Hreqs & Hin).
        apply list_elem_of_In in Hreqs, Hin.
        apply list_elem_of_fmap in Hreqs as (pair & -> & Hpair).
        apply list_elem_of_fmap in Hpair as (diagram & -> & Hd).
        exists diagram. split; [done|].
        unfold migrateDiagram in Hin.
        destruct (buildApiDiagram db diagram) as [|b];
          [by apply elem_of_nil in Hin|].
        destruct (api_saveDiagram api b);
          apply list_elem_of_singleton in Hin; by injection Hin as ->.
      * unfold migrateConfig in Hin.
        destruct (db_config db) as [|[|c ?]];
          [by apply elem_of_nil in Hin..|].
        destruct (api_updateConfig api _);
          by apply list_elem_of_singleton in Hin.
    + intros (diagram & Hd & Hbuild). left.
      apply list_elem_of_In, in_concat.
      exists (migrateDiagram db api diagram).1. split.
      * apply list_elem_of_In, list_elem_of_fmap.
        exists (migrateDiagram db api diagram). split; [done|].
        apply list_elem_of_fmap. by exists diagram.
      * apply list_elem_of_In. unfold migrateDiagram. rewrite Hbuild.
        destruct (api_saveDiagram api body); apply list_elem_of_here.
  - intros diagram errorMsg Hd Hbuild. apply elem_of_app. left.
    apply list_elem_of_In, in_concat.
    exists (migrateDiagram db api diagram).2. split.
    + apply list_elem_of_In, list_elem_of_fmap.
      exists (migrateDiagram db api diagram). split; [done|].
      apply list_elem_of_fmap. by exists diagram.
    + apply list_elem_of_In. unfold migrateDiagram. rewrite Hbuild.
      apply list_elem_of_here.
Qed.

(** X25. Resetting the flag makes the next start migrate again: once a run has
    set the flag, a further run makes no request; after
    [resetMigrationFlag] the flag reads as unset, every other key is as it
    was, and a run does what a run on a storage without the flag does. *)
Theorem resetMigrationFlag_reenables_migration
    (db : LegacyDB) (api : VertexApi) (localStorage : gmap string string) :
  (isMigrationComplete localStorage = true ->
   mr_requests (migrateIndexedDBToAPI db api localStorage) = []
   /\ mr_storage (migrateIndexedDBToAPI db api localStorage) = localStorage)
  /\ isMigrationComplete (resetMigrationFlag localStorage) = false
  /\ (forall k, k <> MIGRATION_FLAG ->
        resetMigrationFlag localStorage !! k = localStorage !! k)
  /\ mr_result (migrateIndexedDBToAPI db api
                  (resetMigrationFlag localStorage))
     = mr_result (migrateIndexedDBToAPI db api ∅)
  /\ mr_requests (migrateIndexedDBToAPI db api
                    (resetMigrationFlag localStorage))
     = mr_requests (migrateIndexedDBToAPI db api ∅).
Proof.
  unfold isMigrationComplete, resetMigrationFlag.
  assert (Hreset : bool_decide (delete MIGRATION_FLAG localStorage
                                  !! MIGRATION_FLAG = Some "true") = false).
  { apply bool_decide_eq_false. by rewrite lookup_delete_eq. }
  assert (Hempty : bool_decide ((∅ : gmap string string)
                                  !! MIGRATION_FLAG = Some "true") = false).
  { apply bool_decide_eq_false. by rewrite lookup_empty. }
  assert (Hsame : forall ls1 ls2 : gmap string string,
            bool_decide (ls1 !! MIGRATION_FLAG = Some "true") = false ->
            bool_decide (ls2 !! MIGRATION_FLAG = Some "true") = false ->
            mr_result (migrateIndexedDBToAPI db api ls1)
            = mr_result (migrateIndexedDBToAPI db api ls2)
            /\ mr_requests (migrateIndexedDBToAPI db api ls1)
               = mr_requests (migrateIndexedDBToAPI db api ls2)).
  { intros ls1 ls2 H1 H2. unfold migrateIndexedDBToAPI. rewrite H1, H2.
    by destruct (db_diagrams db) as [|[|]]. }
  split; [|split; [|split; [|split]]].
  - intros Hflag. unfold migrateIndexedDBToAPI. by rewrite Hflag.
  - exact Hreset.
  - intros k Hk. by rewrite lookup_delete_ne.
  - by apply Hsame.
  - by apply Hsame.
Qed.

(** X26. The API client reports success only for an OK response whose body
    parses: each of the calls that returns a body resolves to a value only
    when the request resolved, the response was OK and its JSON was read;
    [getConfig] alone swallows failures, resolving to [null] for a rejected
    request and for every non-OK status, and rejects only when the body of
    an OK response cannot be read. *)
Theorem vertexApi_success_only_on_ok (fetched : Res Response) :
  (forall v,
     vertexApi_saveDiagram fetched = inr v
     \/ vertexApi_updateConfig fetched = inr v
     \/ vertexApi_getDiagram fetched = inr v
     \/ vertexApi_listDiagrams fetched = inr v ->
     exists response, fetched = inr response /\ rs_ok response = true
                      /\ rs_json response = inr v)
  /\ (vertexApi_deleteDiagram fetched = inr tt
      <-> exists response, fetched = inr response
                           /\ rs_ok response = true)
  /\ (forall v, vertexApi_getConfig fetched = inr v ->
        v = JNull
        \/ exists response, fetched = inr response
                            /\ rs_ok response = true
                            /\ rs_json response = inr v)
  /\ (forall msg, vertexApi_getConfig fetched = inl msg ->
        exists response, fetched = inr response /\ rs_ok response = true
                         /\ rs_json response = inl msg).
Proof.
  unfold vertexApi_saveDiagram, vertexApi_updateConfig, vertexApi_getDiagram,
    vertexApi_listDiagrams, vertexApi_deleteDiagram, vertexApi_getConfig.
  destruct fetched as [e|response]; cbn.
  { split; [by intros v [?|[?|[?|?]]]|]. split; [|split].
    - split; [done | by intros (? & ? & _)].
    - intros v [= <-]. by left.
    - done. }
  destruct (rs_ok response) eqn:Hok; cbn.
  - split; [|split; [|split]].
    + intros v [Hv|[Hv|[Hv|Hv]]]; by exists response.
    + split; [by exists response | done].
    + intros v Hv. right. by exists response.
    + intros msg Hmsg. by exists response.
  - split; [|split; [|split]].
    + intros v [Hv|[Hv|[Hv|Hv]]]; try done.
      by destruct (rs_text response).
    + split; [done|]. intros (r & [= <-] & Hr). congruence.
    + intros v Hv. left. by destruct (rs_status response =? 404)%nat;
        injection Hv as <-.
    + intros msg Hmsg. by destruct (rs_status response =? 404)%nat.
Qed.

(** X27. What the server answers reaches the migration report: when a diagram's
    body could be assembled, the upload is requested once, and a non-OK
    answer is recorded under the diagram's name with the status and the
    response text, a rejected request with its own message, while an OK
    answer with a readable body records nothing. *)
Theorem migrateDiagram_reports_api_failure
    (db : LegacyDB) (diagrams config : JsVal -> Res Response)
    (diagram : Obj) (body : JsVal) :
  buildApiDiagram db diagram = inr body ->
  let outcome := migrateDiagram db (apiOver diagrams config) diagram in
  outcome.1 = [ReqSaveDiagram body]
  /\ (forall response text,
        diagrams body = inr response -> rs_ok response = false ->
        rs_text response = inr text ->
        outcome.2
        = [diagramFailure diagram
             ("Failed to save diagram: " +:+ pretty (rs_status response)
              +:+ " - " +:+ text)])
  /\ (forall errorMsg,
        diagrams body = inl errorMsg ->
        outcome.2 = [diagramFailure diagram errorMsg])
  /\ (forall response saved,
        diagrams body = inr response -> rs_ok response = true ->
        rs_json response = inr saved ->
        outcome.2 = []).
Proof.
  intros Hbuild. cbn zeta. unfold migrateDiagram. rewrite Hbuild.
  cbn [apiOver api_saveDiagram]. unfold vertexApi_saveDiagram.
  split; [|split; [|split]].
  - by destruct (_ ≫= _).
  - intros response text -> Hok Htext. cbn. by rewrite Hok, Htext.
  - by intros errorMsg ->.
  - intros response saved -> Hok Hjson. cbn. by rewrite Hok, Hjson.
Qed.

Lemma migration_success_iff
    (db : LegacyDB) (api : VertexApi) (localStorage : gmap string string) :
  success (mr_result (migrateIndexedDBToAPI db api localStorage)) = true
  <-> errors (mr_result (migrateIndexedDBToAPI db api localStorage)) = [].
Proof.
  unfold migrateIndexedDBToAPI.
  destruct (bool_decide _); [done|].
  destruct (db_diagrams db) as [|[|d l]]; [done..|].
  cbn. rewrite Nat.eqb_eq. apply length_zero_iff_nil.
Qed.

Lemma migration_flag_unset_iff
    (db : LegacyDB) (api : VertexApi) (localStorage : gmap string string) :
  isMigrationComplete
    (mr_storage (migrateIndexedDBToAPI db api localStorage)) = false
  <-> isMigrationComplete localStorage = false
      /\ exists errorMsg, db_diagrams db = inl errorMsg.
Proof.
  unfold migrateIndexedDBToAPI, isMigrationComplete.
  assert (Hset : bool_decide
                   (<[MIGRATION_FLAG := "true"]> localStorage
                      !! MIGRATION_FLAG = Some "true") = true).
  { apply bool_decide_eq_true. by rewrite lookup_insert_eq. }
  destruct (bool_decide (localStorage !! MIGRATION_FLAG = Some "true"))
    eqn:Hflag.
  { cbn. rewrite Hflag. split; [done | by intros [? _]]. }
  destruct (db_diagrams db) as [errorMsg|[|d l]]; cbn.
  - rewrite Hflag. split; [|done]. intros _. split; [done | by eexists].
  - rewrite Hset. split; [done | by intros [_ [? ?]]].
  - rewrite Hset. split; [done | by intros [_ [? ?]]].
Qed.

(** X28. The wrapper never blocks the application and asks at most once: after
    the mount effect has run the application is shown, whatever the
    migration did; the flag is set afterwards unless the migration finished
    in time and could not read the diagrams; with the flag set, a mount
    shows the application with no error and leaves the storage alone; and
    a timeout sets the flag and reports that the API may be unavailable. *)
Theorem mountMigrationWrapper_spec
    (db : LegacyDB) (api : VertexApi) (timedOut : bool)
    (localStorage : gmap string string) :
  let out := mountMigrationWrapper db api timedOut localStorage in
  w_migrationComplete out = true
  /\ (isMigrationComplete (w_storage out) = false
      <-> isMigrationComplete localStorage = false /\ timedOut = false
          /\ exists errorMsg, db_diagrams db = inl errorMsg)
  /\ (isMigrationComplete localStorage = true ->
      w_migrationError out = None /\ w_storage out = localStorage)
  /\ (isMigrationComplete localStorage = false -> timedOut = true ->
      is_Some (w_migrationError out)
      /\ w_storage out = <[MIGRATION_FLAG := "true"]> localStorage)
  /\ (isMigrationComplete localStorage = false -> timedOut = false ->
      (w_migrationError out = None
       <-> errors (mr_result (migrateIndexedDBToAPI db api localStorage))
           = [])).
Proof.
  cbn zeta. unfold mountMigrationWrapper, runMigration.
  destruct (isMigrationComplete localStorage) eqn:Hflag.
  { cbn. rewrite Hflag.
    split; [done|]. split; [split; [done | by intros [? _]]|].
    split; [done|]. split; done. }
  destruct timedOut.
  { assert (Hset : isMigrationComplete
                     (<[MIGRATION_FLAG := "true"]> localStorage) = true).
    { unfold isMigrationComplete. apply bool_decide_eq_true.
      by rewrite lookup_insert_eq. }
    cbn. rewrite Hset.
    split; [done|]. split; [split; [done | by intros (_ & ? & _)]|].
    split; [done|]. split; [|done]. intros _ _. split; [by eexists | done]. }
  pose proof (migration_success_iff db api localStorage) as Hsucc.
  pose proof (migration_flag_unset_iff db api localStorage) as Hleft.
  cbn [w_migrationComplete w_storage w_migrationError].
  split; [done|]. split; [|split; [done|split; [done|]]].
  - rewrite Hleft, Hflag. split.
    + intros [_ He]. by repeat split.
    + intros (_ & _ & He). by split.
  - intros _ _.
    destruct (success (mr_result (migrateIndexedDBToAPI db api localStorage)))
      eqn:Hs.
    + split; [|done]. intros _. by apply Hsucc.
    + destruct (errors (mr_result
                          (migrateIndexedDBToAPI db api localStorage)))
        as [|e l] eqn:He.
      * destruct Hsucc as [_ Hsucc]. by rewrite Hsucc in Hs.
      * cbn. split; done.
Qed.

End FurtherMigration.

Lemma migration_uploads_every_buildable_diagram_witness :
  let run := migrateIndexedDBToAPI sampleLegacyDB failingApi ∅ in
  (forall body,
     ReqSaveDiagram body ∈ mr_requests run
     <-> exists diagram,
           diagram ∈ [[("id", JStr "d1"); ("name", JStr "Shop")]]
           /\ buildApiDiagram sampleLegacyDB diagram = inr body)
  /\ (forall diagram errorMsg,
        diagram ∈ [[("id", JStr "d1"); ("name", JStr "Shop")]] ->
        buildApiDiagram sampleLegacyDB diagram = inl errorMsg ->
        diagramFailure diagram errorMsg ∈ errors (mr_result run)).
Proof.
  apply (migration_uploads_every_buildable_diagram sampleLegacyDB failingApi
           ∅ [[("id", JStr "d1"); ("name", JStr "Shop")]]).
  - reflexivity.
  - reflexivity.
Defined.

Lemma migrateDiagram_reports_api_failure_witness :
  exists body,
    buildApiDiagram sampleLegacyDB [("id", JStr "d1"); ("name", JStr "Shop")]
    = inr body
    /\ migrateDiagram sampleLegacyDB
         (apiOver rejectingServer rejectingServer)
         [("id", JStr "d1"); ("name", JStr "Shop")]
       = ([ReqSaveDiagram body],
          ["Failed to migrate diagram " +:+ dquote +:+ "Shop" +:+ dquote
           +:+ ": Failed to save diagram: 500 - boom"]).
Proof.
  destruct (buildApiDiagram sampleLegacyDB
              [("id", JStr "d1"); ("name", JStr "Shop")])
    as [msg|body] eqn:Hbuild; [discriminate Hbuild|].
  exists body. split; [reflexivity|].
  pose proof (migrateDiagram_reports_api_failure sampleLegacyDB
                rejectingServer rejectingServer
                [("id", JStr "d1"); ("name", JStr "Shop")] body Hbuild)
    as (Hreq & Hfail & _).
  specialize (Hfail _ "boom" eq_refl eq_refl eq_refl).
  destruct (migrateDiagram _ _ _) as [reqs errs]. cbn in Hreq, Hfail.
  by rewrite Hreq, Hfail.
Defined.

(** ** Domain events *)

Section DomainEvents.
Context `{Collaborators}.
Variable removeVertex : Graph -> string -> Graph.
Variable graphAfterCall : Node -> list Node -> Graph -> Graph.

Lemma addTables_fold (getNode : string -> option Node)
    (visible : list Node) (tables : list DBTable) (calledFor : list Node)
    (state : Graph * Graph) :
  Forall2 (fun t node => getNode (t_id t) = Some node) tables calledFor ->
  exists returned,
    foldl (fun (acc : option (Graph * Graph)) table =>
             state ← acc;
             node ← getNode (t_id table);
             Some (findTableOverlapping node visible state.2,
                   graphAfterCall node visible state.2))
          (Some state) tables
    = Some (returned,
            graphAfterCalls graphAfterCall visible state.2 calledFor).
Proof.
  intros Hall. revert state.
  induction Hall as [|t node tables calledFor Hnode Hall IH]; intros state.
  { exists state.1. by destruct state. }
  cbn [foldl]. cbn [mbind option_bind]. rewrite Hnode. cbn [mbind option_bind].
  destruct (IH (findTableOverlapping node visible state.2,
                graphAfterCall node visible state.2)) as [r Hr].
  exists r. exact Hr.
Qed.

(** X29. The [add_tables] loop keeps what its last call returns: when the
    view layer has a node for each table of the event, the overlap graph
    that is set is what [findTableOverlapping] returns for the last table;
    that call, like every call of the loop, is handed the consumer's own
    graph object, as the calls for the earlier tables have left it, and
    what those calls returned is discarded. So if [findTableOverlapping]
    does not change the graph it is handed, only the last table counts: the
    event has the effect of the event with the last table alone. *)
Theorem eventConsumer_add_tables_keeps_last
    (getNode : string -> option Node) (nodes : list Node)
    (overlapGraph : Graph) (filter : option DiagramFilter)
    (databaseType : DatabaseType) (showDBViews : option bool)
    (earlier : list DBTable) (table : DBTable)
    (calledFor : list Node) (node : Node) :
  Forall2 (fun t n => getNode (t_id t) = Some n) earlier calledFor ->
  getNode (t_id table) = Some node ->
  let consume :=
    eventConsumer removeVertex graphAfterCall getNode nodes overlapGraph
                  filter databaseType showDBViews in
  consume (OnAddTables (earlier ++ [table]))
  = Some {| ce_calls :=
              [SetOverlapGraph
                 (findTableOverlapping node (visibleTableNodes nodes)
                    (graphAfterCalls graphAfterCall (visibleTableNodes nodes)
                                     overlapGraph calledFor))];
            ce_deferred := None |}
  /\ ((forall n visible g, graphAfterCall n visible g = g) ->
      consume (OnAddTables (earlier ++ [table]))
      = consume (OnAddTables [table])).
Proof.
  intros Hearlier Hnode. cbn zeta.
  assert (Hlast : eventConsumer removeVertex graphAfterCall getNode nodes
                    overlapGraph filter databaseType showDBViews
                    (OnAddTables (earlier ++ [table]))
                  = Some {| ce_calls :=
                              [SetOverlapGraph
                                 (findTableOverlapping node
                                    (visibleTableNodes nodes)
                                    (graphAfterCalls graphAfterCall
                                       (visibleTableNodes nodes)
                                       overlapGraph calledFor))];
                            ce_deferred := None |}).
  { unfold eventConsumer. rewrite foldl_app.
    destruct (addTables_fold getNode (visibleTableNodes nodes) earlier
                calledFor (overlapGraph, overlapGraph) Hearlier)
      as [returned ->].
    cbn. by rewrite Hnode. }
  split; [exact Hlast|]. intros Hpure. rewrite Hlast.
  unfold eventConsumer. cbn. rewrite Hnode. cbn. do 4 f_equal.
  unfold graphAfterCalls. clear -Hpure.
  induction calledFor as [|n l IH] using rev_ind; [done|].
  rewrite foldl_app. cbn. by rewrite Hpure.
Qed.

(** X30. A width change is measured against the node as it was when the event
    arrived: for an [update_table] event with a truthy width whose node the
    view layer has, the overlap graph is recomputed for that node with the
    new width, and the deferred update gives the node of that id the new
    width and the height read when the event arrived, leaving every other
    node, and every other property of that node, as they are. Without a
    truthy width the event does nothing, and so does every action the
    consumer does not know. *)
Theorem eventConsumer_update_table
    (getNode : string -> option Node) (nodes : list Node)
    (overlapGraph : Graph) (filter : option DiagramFilter)
    (databaseType : DatabaseType) (showDBViews : option bool)
    (id : string) (width : option number) :
  let consume :=
    eventConsumer removeVertex graphAfterCall getNode nodes overlapGraph
                  filter databaseType showDBViews in
  (opt_truthy num_truthy width = false ->
   consume (OnUpdateTable id width)
   = Some {| ce_calls := []; ce_deferred := None |})
  /\ consume OnOtherAction = Some {| ce_calls := []; ce_deferred := None |}
  /\ (forall node,
        opt_truthy num_truthy width = true -> getNode id = Some node ->
        exists measured,
          consume (OnUpdateTable id width)
          = Some {| ce_calls :=
                      [SetOverlapGraph
                         (findTableOverlapping (setMeasured node measured)
                            (visibleTableNodes nodes) overlapGraph)];
                    ce_deferred := Some (id, measured) |}
          /\ m_width measured = width
          /\ m_height measured = n_measured node ≫= m_height
          /\ forall prevNodes,
               Forall2 (fun n n' =>
                          n_id n' = n_id n /\ n_type n' = n_type n
                          /\ n_position n' = n_position n
                          /\ n_data n' = n_data n
                          /\ n_hidden n' = n_hidden n
                          /\ (n_id n <> id -> n' = n)
                          /\ (n_id n = id -> n_measured n' = Some measured))
                       prevNodes (applyDeferred (id, measured) prevNodes)).
Proof.
  cbn zeta. unfold eventConsumer. split; [|split; [done|]].
  - by intros ->.
  - intros node -> ->. cbn. eexists. split; [reflexivity|].
    split; [done|]. split; [done|].
    intros prevNodes. unfold applyDeferred.
    apply Forall2_fmap_r, Forall_Forall2_diag, Forall_forall.
    intros n _. unfold compose. cbn.
    case_bool_decide; cbn; repeat split; done.
Qed.

End DomainEvents.

Lemma eventConsumer_add_tables_keeps_last_witness :
  let consume :=
    @eventConsumer recordingCollaborators (fun g _ => g) (fun _ _ g => g)
      (getNodeIn memberNodes) memberNodes
      {| graph := ∅; lastUpdated := Num 0 |} None "postgresql" None in
  consume (OnAddTables memberTables)
  = consume (OnAddTables [sampleTable "t2" 600 600 None])
  /\ consume (OnAddTables memberTables)
     = Some {| ce_calls :=
                 [@SetOverlapGraph recordingCollaborators
                    {| graph := {["t2" := []]}; lastUpdated := Num 0 |}];
               ce_deferred := None |}.
Proof.
  pose proof (@eventConsumer_add_tables_keeps_last recordingCollaborators
                (fun g _ => g) (fun _ _ g => g)
                (getNodeIn memberNodes) memberNodes
                {| graph := ∅; lastUpdated := Num 0 |} None "postgresql"
                None [sampleTable "t1" 10 10 (Some "a1")]
                (sampleTable "t2" 600 600 None)
                [@tableToTableNode sampleCollaborators
                   (sampleTable "t1" 10 10 (Some "a1")) (sampleOptions None)]
                (@tableToTableNode sampleCollaborators
                   (sampleTable "t2" 600 600 None) (sampleOptions None)))
    as Hlast.
  destruct Hlast as [Hset Hsame].
  - repeat constructor.
  - reflexivity.
  - split; [by apply Hsame|]. exact Hset.
Defined.
